(** * sha3sum: manifest grammar, manifest reader and batch verifier

A shallow embedding of the two command sources of the repository,
[src/sha3sum.go] (module [Sha3sum]) and the second copy of the command
kept under [src/unnamed/part_000] (module [Part000]), followed by the
properties of the specification that can be stated over them.

Go strings are byte strings: they are [string] here (a list of 8-bit
[ascii]), [len] is [String.length].  A [[]byte] is a [list byte].  Go's
[int] is 64 bits wide; every integer of the program is either a length,
a three-digit number or a counter bounded by the number of manifest
lines, so [Z] and [nat] are used without wrap-around. *)

From Stdlib Require Import List Bool Arith ZArith NArith Lia.
From Stdlib Require Import Strings.Ascii Strings.String Strings.Byte.
Import ListNotations.

Local Open Scope list_scope.
Local Open Scope string_scope.

(* ================================================================== *)
(** * Byte strings and UTF-8 runes *)
(* ================================================================== *)

Module GoString.

(** Code points, as the regexp engine sees them. *)
Definition rune := N.

Definition RuneError : rune := 65533%N.

Definition byteVal (c : ascii) : N := N_of_ascii c.

Definition inRange (lo hi : N) (c : ascii) : bool :=
  (lo <=? byteVal c)%N && (byteVal c <=? hi)%N.

(** A continuation byte of UTF-8, [0x80..0xBF]. *)
Definition isCont (c : ascii) : bool := inRange 128 191 c.

(** Accepted range of the second byte after a three-byte lead
    ([unicode/utf8]: [E0] needs [A0..BF], [ED] needs [80..9F]). *)
Definition second3 (n0 : N) (c : ascii) : bool :=
  if (n0 =? 224)%N then inRange 160 191 c
  else if (n0 =? 237)%N then inRange 128 159 c
  else inRange 128 191 c.

(** Accepted range of the second byte after a four-byte lead
    ([F0] needs [90..BF], [F4] needs [80..8F]). *)
Definition second4 (n0 : N) (c : ascii) : bool :=
  if (n0 =? 240)%N then inRange 144 191 c
  else if (n0 =? 244)%N then inRange 128 143 c
  else inRange 128 191 c.

Definition str1 (a : ascii) : string := String a EmptyString.
Definition str2 (a b : ascii) : string := String a (str1 b).
Definition str3 (a b c : ascii) : string := String a (str2 b c).
Definition str4 (a b c d : ascii) : string := String a (str3 b c d).

(** [decodeRunes s] is the sequence of steps [utf8.DecodeRuneInString]
    makes over [s]: every step yields a code point and the bytes it
    consumed.  A byte that does not start a well-formed encoding is
    consumed alone and yields [RuneError], as in Go.  The value of a
    multi-byte rune is written arithmetically; on the accepted ranges it
    is the value Go assembles with masks and shifts. *)
Fixpoint decodeRunes (s : string) : list (rune * string) :=
  match s with
  | EmptyString => []
  | String b0 s1 =>
    let n0 := byteVal b0 in
    if (n0 <? 128)%N then (n0, str1 b0) :: decodeRunes s1
    else if (n0 <? 194)%N then (RuneError, str1 b0) :: decodeRunes s1
    else if (n0 <? 224)%N then
      match s1 with
      | String b1 s2 =>
        if isCont b1
        then ((n0 - 192) * 64 + (byteVal b1 - 128), str2 b0 b1)%N
               :: decodeRunes s2
        else (RuneError, str1 b0) :: decodeRunes s1
      | EmptyString => (RuneError, str1 b0) :: decodeRunes s1
      end
    else if (n0 <? 240)%N then
      match s1 with
      | String b1 (String b2 s3) =>
        if second3 n0 b1 && isCont b2
        then ((n0 - 224) * 4096 + (byteVal b1 - 128) * 64
              + (byteVal b2 - 128), str3 b0 b1 b2)%N
               :: decodeRunes s3
        else (RuneError, str1 b0) :: decodeRunes s1
      | _ => (RuneError, str1 b0) :: decodeRunes s1
      end
    else if (n0 <? 245)%N then
      match s1 with
      | String b1 (String b2 (String b3 s4)) =>
        if second4 n0 b1 && isCont b2 && isCont b3
        then ((n0 - 240) * 262144 + (byteVal b1 - 128) * 4096
              + (byteVal b2 - 128) * 64 + (byteVal b3 - 128),
              str4 b0 b1 b2 b3)%N
               :: decodeRunes s4
        else (RuneError, str1 b0) :: decodeRunes s1
      | _ => (RuneError, str1 b0) :: decodeRunes s1
      end
    else (RuneError, str1 b0) :: decodeRunes s1
  end.

(** One step of the decoding, [utf8.DecodeRuneInString]: the code point,
    the bytes consumed and the rest of the string; [None] on the empty
    string.  [decodeRunes] iterates it (lemma [decodeRunes_step]). *)
Definition decodeRune (s : string) : option (rune * string * string) :=
  match s with
  | EmptyString => None
  | String b0 s1 =>
    let n0 := byteVal b0 in
    Some
    (if (n0 <? 128)%N then (n0, str1 b0, s1)
     else if (n0 <? 194)%N then (RuneError, str1 b0, s1)
     else if (n0 <? 224)%N then
       match s1 with
       | String b1 s2 =>
         if isCont b1
         then (((n0 - 192) * 64 + (byteVal b1 - 128))%N, str2 b0 b1, s2)
         else (RuneError, str1 b0, s1)
       | EmptyString => (RuneError, str1 b0, s1)
       end
     else if (n0 <? 240)%N then
       match s1 with
       | String b1 (String b2 s3) =>
         if second3 n0 b1 && isCont b2
         then (((n0 - 224) * 4096 + (byteVal b1 - 128) * 64
                + (byteVal b2 - 128))%N, str3 b0 b1 b2, s3)
         else (RuneError, str1 b0, s1)
       | _ => (RuneError, str1 b0, s1)
       end
     else if (n0 <? 245)%N then
       match s1 with
       | String b1 (String b2 (String b3 s4)) =>
         if second4 n0 b1 && isCont b2 && isCont b3
         then (((n0 - 240) * 262144 + (byteVal b1 - 128) * 4096
                + (byteVal b2 - 128) * 64 + (byteVal b3 - 128))%N,
               str4 b0 b1 b2 b3, s4)
         else (RuneError, str1 b0, s1)
       | _ => (RuneError, str1 b0, s1)
       end
     else (RuneError, str1 b0, s1))
  end.

(** A byte below [0x80], a rune of its own in any context. *)
Definition isAscii (c : ascii) : bool := (byteVal c <? 128)%N.

Definition isHigh (c : ascii) : bool := (128 <=? byteVal c)%N.

(** The bytes a run of decoding steps covers. *)
Fixpoint bytesOf (rs : list (rune * string)) : string :=
  match rs with
  | [] => EmptyString
  | (_, w) :: rs' => w ++ bytesOf rs'
  end.

(** [strings.Repeat]-like helper used to build test lines. *)
Fixpoint replicate (n : nat) (c : ascii) : string :=
  match n with
  | O => EmptyString
  | S n' => String c (replicate n' c)
  end.

(** Every byte of [s] satisfies [p]. *)
Fixpoint allb (p : ascii -> bool) (s : string) : bool :=
  match s with
  | EmptyString => true
  | String c s' => p c && allb p s'
  end.

(** Go's slice expression [s[lo:hi]]; [None] stands for the run-time
    panic on bounds that are out of range. *)
Definition slice (s : string) (lo hi : nat) : option string :=
  if (lo <=? hi)%nat && (hi <=? String.length s)%nat
  then Some (substring lo (hi - lo) s)
  else None.

End GoString.

(* ================================================================== *)
(** * The fragment of Go's [regexp] the two patterns use *)
(* ================================================================== *)

Module Regexp.
Import GoString.

(** Syntax.  Every repetition in the source patterns is a repetition of a
    single character class, so [Star] and [Plus] carry a class. *)
Inductive regex : Type :=
| Lit (c : ascii)               (* a literal character *)
| Cls (p : rune -> bool)       (* a bracket class, or [.] *)
| Star (p : rune -> bool)      (* [c*], greedy *)
| Plus (p : rune -> bool)      (* [c+], greedy *)
| Opt (r : regex)              (* [r?], prefers to match *)
| Seq (r1 r2 : regex)
| Group (i : nat) (r : regex)  (* the i-th parenthesis *)
| EndText.                     (* [$] without the multi-line flag *)

Definition input := list (rune * string).

(** Submatches by group number; an unset group reads as the empty string,
    which is what [FindStringSubmatch] returns for it. *)
Definition caps := nat -> string.

Definition noCaps : caps := fun _ => EmptyString.

Definition setCap (i : nat) (v : string) (c : caps) : caps :=
  fun j => if Nat.eqb j i then v else c j.

(** The text between two positions of the input, [s'] a suffix of [s]. *)
Definition consumed (s s' : input) : string :=
  bytesOf (firstn (List.length s - List.length s') s).

(** Greedy repetition of a class with backtracking: take one more rune
    when possible, fall back to the continuation when the rest fails. *)
Fixpoint starCls (p : rune -> bool) (s : input) (c : caps)
         (k : input -> caps -> option caps) : option caps :=
  match s with
  | (x, _) :: s' =>
    if p x then
      match starCls p s' c k with
      | Some r => Some r
      | None => k s c
      end
    else k s c
  | [] => k s c
  end.

(** Backtracking matcher in continuation-passing style.  The order in
    which alternatives are tried is the leftmost-first order of Go's
    [regexp] (Perl semantics), which decides the submatches. *)
Fixpoint run (r : regex) (s : input) (c : caps)
         (k : input -> caps -> option caps) : option caps :=
  match r with
  | Lit a =>
    match s with
    | (x, _) :: s' => if (x =? byteVal a)%N then k s' c else None
    | [] => None
    end
  | Cls p =>
    match s with
    | (x, _) :: s' => if p x then k s' c else None
    | [] => None
    end
  | Star p => starCls p s c k
  | Plus p =>
    match s with
    | (x, _) :: s' => if p x then starCls p s' c k else None
    | [] => None
    end
  | Opt r' =>
    match run r' s c k with
    | Some res => Some res
    | None => k s c
    end
  | Seq r1 r2 => run r1 s c (fun s1 c1 => run r2 s1 c1 k)
  | Group i r' =>
    run r' s c (fun s' c' => k s' (setCap i (consumed s s') c'))
  | EndText =>
    match s with
    | [] => k s c
    | _ :: _ => None
    end
  end.

(** A literal string. *)
Fixpoint lits (s : string) (rest : regex) : regex :=
  match s with
  | EmptyString => rest
  | String a s' => Seq (Lit a) (lits s' rest)
  end.

(** Both patterns of the program start with [^]: a match can only start
    at offset 0, so the search of [regexp] reduces to one attempt there.
    [ngroups] is the number of parentheses of the pattern. *)
Record Regexp := MustCompile { ngroups : nat; pattern : regex }.

Definition exec (re : Regexp) (s : string) : option caps :=
  run (pattern re) (decodeRunes s) noCaps
      (fun s' c => Some (setCap 0 (consumed (decodeRunes s) s') c)).

Definition MatchString (re : Regexp) (s : string) : bool :=
  match exec re s with Some _ => true | None => false end.

(** [FindStringSubmatch]: [nil] without a match, else the whole match
    followed by one string per group. *)
Definition FindStringSubmatch (re : Regexp) (s : string) : list string :=
  match exec re s with
  | Some c => map c (seq 0 (S (ngroups re)))
  | None => []
  end.

(** Character classes of the patterns. *)
Definition between (lo hi : ascii) (x : rune) : bool :=
  (byteVal lo <=? x)%N && (x <=? byteVal hi)%N.

Definition isDigit (x : rune) : bool := between "0" "9" x.

Definition isHex (x : rune) : bool :=
  between "0" "9" x || between "A" "F" x || between "a" "f" x.

Definition isSpace (x : rune) : bool := (x =? byteVal " ")%N.

Definition notRParen (x : rune) : bool := negb (x =? byteVal ")")%N.

Definition isModeChar (x : rune) : bool :=
  (x =? byteVal "*")%N || (x =? byteVal "?")%N.

(** [.] without the [s] flag: any rune but line feed. *)
Definition dot (x : rune) : bool := negb (x =? 10)%N.

End Regexp.

(* ================================================================== *)
(** * [strconv], [fmt] verbs and [encoding/hex] as the program uses them *)
(* ================================================================== *)

Module GoLib.
Import GoString.

Definition isDigitByte (c : ascii) : bool := inRange 48 57 c.

(** Value of a run of decimal digits, most significant first. *)
Fixpoint digitsVal (acc : Z) (s : string) : Z :=
  match s with
  | EmptyString => acc
  | String c s' => digitsVal (acc * 10 + (Z.of_N (byteVal c) - 48)) s'
  end.

Definition dquote : ascii := "034"%char.

Definition syntaxError (s : string) : string :=
  "strconv.Atoi: parsing " ++ String dquote (s ++ String dquote ": invalid syntax").

Definition rangeError (s : string) : string :=
  "strconv.Atoi: parsing " ++ String dquote (s ++ String dquote ": value out of range").

(** [strconv.Atoi]: an optional sign, then one or more decimal digits;
    the value has to fit a 64-bit [int]. *)
Definition Atoi (s : string) : Z * option string :=
  let body (neg : bool) (d : string) :=
    if negb (allb isDigitByte d) || (String.length d =? 0)%nat
    then (0%Z, Some (syntaxError s))
    else
      let v := digitsVal 0 d in
      let v' := if neg then (- v)%Z else v in
      if ((- 2 ^ 63 <=? v') && (v' <? 2 ^ 63))%Z
      then (v', None)
      else ((if neg then - 2 ^ 63 else 2 ^ 63 - 1)%Z, Some (rangeError s)) in
  match s with
  | String "+"%char d => body false d
  | String "-"%char d => body true d
  | _ => body false s
  end.

Definition digitChar (n : N) : ascii := ascii_of_N (48 + n).

(** Decimal digits of a natural number, by repeated division; the fuel
    is the number itself, which always suffices. *)
Fixpoint natDigits (fuel : nat) (n : N) (acc : string) : string :=
  match fuel with
  | O => acc
  | S fuel' =>
    let acc' := String (digitChar (n mod 10)) acc in
    if (n / 10 =? 0)%N then acc' else natDigits fuel' (n / 10) acc'
  end.

(** The verb [%d] of [fmt]. *)
Definition fmtD (z : Z) : string :=
  match z with
  | Z0 => "0"
  | Zpos p => natDigits (Pos.to_nat p) (Npos p) EmptyString
  | Zneg p => String "-"%char (natDigits (Pos.to_nat p) (Npos p) EmptyString)
  end.

Definition hexDigitLower (n : N) : ascii :=
  if (n <? 10)%N then ascii_of_N (48 + n) else ascii_of_N (87 + n).

(** The verb [%02x] applied to one byte. *)
Definition fmt02x (b : byte) : string :=
  let n := Byte.to_N b in
  str2 (hexDigitLower (n / 16)) (hexDigitLower (n mod 16)).

(** [encoding/hex]'s reverse table: the value of a hex digit of either
    case, [None] for any other byte. *)
Definition fromHexChar (c : ascii) : option N :=
  let n := byteVal c in
  if inRange 48 57 c then Some (n - 48)%N
  else if inRange 97 102 c then Some (n - 87)%N
  else if inRange 65 70 c then Some (n - 55)%N
  else None.

(** Go errors, by their text ([err.Error()]); [nil] is [None]. *)
Definition error := string.

Definition hexDigitUpper (n : N) : ascii :=
  if (n <? 10)%N then ascii_of_N (48 + n) else ascii_of_N (55 + n).

(** The verb [%#U] applied to a byte taken as a code point: [U+00XX],
    followed by the quoted character when it is printable. *)
Definition fmtSharpU (c : ascii) : string :=
  let n := byteVal c in
  let code := "U+00" ++ str2 (hexDigitUpper (n / 16)) (hexDigitUpper (n mod 16)) in
  if inRange 32 126 c then code ++ " '" ++ str1 c ++ "'"
  else if inRange 161 255 c && negb (n =? 173)%N
  then code ++ " '" ++ str2 (ascii_of_N (192 + n / 64)) (ascii_of_N (128 + n mod 64)) ++ "'"
  else code.

Definition ErrLength : error := "encoding/hex: odd length hex string".

Definition InvalidByteError (c : ascii) : error :=
  "encoding/hex: invalid byte: " ++ fmtSharpU c.

(** [hex.DecodeString]: the bytes decoded so far and the error, the
    first invalid digit being reported before an odd length. *)
Fixpoint DecodeString (s : string) : list byte * option error :=
  match s with
  | EmptyString => ([], None)
  | String p EmptyString =>
    match fromHexChar p with
    | None => ([], Some (InvalidByteError p))
    | Some _ => ([], Some ErrLength)
    end
  | String p (String q s') =>
    match fromHexChar p, fromHexChar q with
    | None, _ => ([], Some (InvalidByteError p))
    | Some _, None => ([], Some (InvalidByteError q))
    | Some a, Some b =>
      let (bs, err) := DecodeString s' in
      (byte_of_ascii (ascii_of_N (a * 16 + b)) :: bs, err)
    end
  end.

End GoLib.

(* ================================================================== *)
(** * Processes: output, files, [os.Exit] and panics *)
(* ================================================================== *)

Module Proc.

(** What a run of the command does to the outside, in order. *)
Inductive Event : Type :=
| Stdout (text : string)
| Stderr (text : string)
| Open (name : string)      (* a call of [os.Open] *)
| UseStdin.                 (* [os.Stdin] taken as the input file *)

(** How a computation ends: it returns, the process exits ([os.Exit]), or
    the Go run time panics (nil dereference, index out of range). *)
Inductive Result (A : Type) : Type :=
| Ret (a : A)
| Exit (code : Z)
| Panic.
Arguments Ret {A} a.
Arguments Exit {A} code.
Arguments Panic {A}.

(** A computation: the events it emitted and how it ended. *)
Definition M (A : Type) : Type := (list Event * Result A)%type.

Definition ret {A} (a : A) : M A := ([], Ret a).

Definition bind {A B} (m : M A) (f : A -> M B) : M B :=
  match m with
  | (t, Ret a) => let (t', r) := f a in ((t ++ t')%list, r)
  | (t, Exit c) => (t, Exit c)
  | (t, Panic) => (t, Panic)
  end.

Definition emit (e : Event) : M unit := ([e], Ret tt).
Definition exit {A} (code : Z) : M A := ([], Exit code).
Definition panic {A} : M A := ([], Panic).

Definition trace {A} (m : M A) : list Event := fst m.
Definition result {A} (m : M A) : Result A := snd m.

(** The status the operating system sees; a panicking Go program exits
    with status 2. *)
Definition exitStatus {A} (m : M A) : Z :=
  match result m with
  | Ret _ => 0
  | Exit c => c
  | Panic => 2
  end.

Definition nl : string := String "010"%char EmptyString.

(** What a run has written to standard output. *)
Fixpoint stdoutText (t : list Event) : string :=
  match t with
  | [] => EmptyString
  | Stdout text :: t' => text ++ stdoutText t'
  | _ :: t' => stdoutText t'
  end.

(** An open file as [Read] sees it: the chunks successive calls return,
    then the error that ends the reading, [None] for [io.EOF]. *)
Record File : Type := mkFile {
  chunks : list (list byte);
  readErr : option string
}.

(** The environment of a run.  [keccakSum w data] is the digest a
    [hash.Hash] of width [w] returns from [Sum(nil)] after [data] was
    written to it; [secureEqual] is [securecompare.Equal]; [readLine f]
    lists what the successive calls of [bufio.Reader.ReadLine] over [f]
    return (a part of a line and the [isPrefix] flag) before the call
    that returns an error. *)
Record Env : Type := mkEnv {
  windows : bool;
  osOpen : string -> File + string;
  stdin : File;
  readLine : File -> list (string * bool);
  keccakSum : Z -> list byte -> list byte;
  secureEqual : list byte -> list byte -> bool
}.

End Proc.

Declare Scope proc_scope.
Delimit Scope proc_scope with proc.
Notation "x <- m ;; k" := (Proc.bind m (fun x => k))
  (at level 61, m at next level, right associativity) : proc_scope.
Notation "' p <- m ;; k" := (Proc.bind m (fun x => match x with p => k end))
  (at level 61, p pattern, m at next level, right associativity) : proc_scope.
Notation "m ;;; k" := (Proc.bind m (fun _ => k))
  (at level 61, right associativity) : proc_scope.

(* ================================================================== *)
(** * [src/sha3sum.go] *)
(* ================================================================== *)

Module Sha3sum.
Import GoString Regexp GoLib Proc.
Local Open Scope proc_scope.

Definition die {A} (msg : string) : M A :=
  emit (Stderr (msg ++ nl)) ;;; exit 1.

Definition dieerr {A} (err : error) : M A := die err.

Definition BUF_SIZE : Z := 256 * 1024.

(** A [hash.Hash] value: [None] is the nil interface, otherwise the width
    and the bytes written so far. *)
Definition Hash := option (Z * list byte).

Definition hWrite (h : Hash) (p : list byte) : M Hash :=
  match h with
  | Some (w, d) => ret (Some (w, (d ++ p)%list))
  | None => panic
  end.

(** Index expression [xs[i]]. *)
Definition index {A} (xs : list A) (i : nat) : M A :=
  match nth_error xs i with
  | Some x => ret x
  | None => panic
  end.

Definition sliceM (s : string) (lo hi : nat) : M string :=
  match slice s lo hi with
  | Some t => ret t
  | None => panic
  end.

(** [bufio.Reader.ReadString('\n')] over [data]: the lines that end in a
    line feed, and what is left when the input ends ([cur] is the line
    being collected). *)
Fixpoint readStrings (cur data : string) : list string * string :=
  match data with
  | EmptyString => ([], cur)
  | String c d =>
    if (c =? "010")%char
    then let (ls, r) := readStrings EmptyString d in
         ((cur ++ str1 c) :: ls, r)
    else readStrings (cur ++ str1 c) d
  end.

Definition validAlgorithm (algorithm : Z) : bool :=
  if (algorithm =? 224)%Z || (algorithm =? 256)%Z
     || (algorithm =? 384)%Z || (algorithm =? 512)%Z
  then true else false.

(** The named results of the two line parsers. *)
Record ParseResult : Type := mkParse {
  hash : string;
  fname : string;
  algorithm : Z;
  portable : bool;
  binary : bool;
  err : option error
}.

Definition zeroParse : ParseResult :=
  mkParse EmptyString EmptyString 0 false false None.

Definition withErr (e : option error) (r : ParseResult) :=
  mkParse (hash r) (fname r) (algorithm r) (portable r) (binary r) e.
Definition withAlgorithm (a : Z) (r : ParseResult) :=
  mkParse (hash r) (fname r) a (portable r) (binary r) (err r).
Definition withFname (f : string) (r : ParseResult) :=
  mkParse (hash r) f (algorithm r) (portable r) (binary r) (err r).
Definition withHash (h : string) (r : ParseResult) :=
  mkParse h (fname r) (algorithm r) (portable r) (binary r) (err r).
Definition withPortable (b : bool) (r : ParseResult) :=
  mkParse (hash r) (fname r) (algorithm r) b (binary r) (err r).
Definition withBinary (b : bool) (r : ParseResult) :=
  mkParse (hash r) (fname r) (algorithm r) (portable r) b (err r).

(** The pattern of [tagRegexp], piece by piece: start of text, the
    literal [SHA3-], three times [[0-9]] (group 1), a space and an opening
    parenthesis, one [[^)]] (group 2; the class is not repeated), a closing
    parenthesis, any number of spaces, [=], any number of spaces, a hex
    digit and any number of hex digits (group 3), end of text. *)
Definition tagRegexp : Regexp :=
  MustCompile 3
    (lits "SHA3-"
      (Seq (Group 1 (Seq (Cls isDigit) (Seq (Cls isDigit) (Cls isDigit))))
      (lits " ("
      (Seq (Group 2 (Cls notRParen))
      (lits ")"
      (Seq (Star isSpace)
      (lits "="
      (Seq (Star isSpace)
      (Seq (Group 3 (Seq (Cls isHex) (Star isHex)))
       EndText))))))))).

(** SHA3-XXX (filename) = hex *)
Definition parseTagHash (line : string) : ParseResult :=
  let r := zeroParse in
  if negb (MatchString tagRegexp line)
  then withErr (Some "bad checksum line") r
  else
    let matches := FindStringSubmatch tagRegexp line in
    if negb (List.length matches =? 4)%nat
    then withErr (Some "bad line") r
    else
      let (a, e) := Atoi (nth 1 matches EmptyString) in
      let r := withErr e (withAlgorithm a r) in
      match e with
      | Some _ => r
      | None =>
        if negb (validAlgorithm (algorithm r))
        then withErr (Some "bad algorithm") r
        else
          let r := withFname (nth 2 matches EmptyString) r in
          if (String.length (fname r) =? 0)%nat
          then withErr (Some "bad filename") r
          else
            let r := withHash (nth 3 matches EmptyString) r in
            if negb (Z.of_nat (String.length (hash r))
                     =? Z.quot (algorithm r) 4)%Z
            then withErr (Some "bad hash") r
            else r
      end.

(** The pattern of [normalRegexp], piece by piece: start of text, a hex
    digit and any number of hex digits (group 1), a space and any number
    of spaces, optionally one of [*] and [?] (group 2), one or more of
    any character but line feed (group 3), end of text. *)
Definition normalRegexp : Regexp :=
  MustCompile 3
    (Seq (Group 1 (Seq (Cls isHex) (Star isHex)))
    (Seq (Cls isSpace)
    (Seq (Star isSpace)
    (Seq (Opt (Group 2 (Cls isModeChar)))
    (Seq (Group 3 (Plus dot))
     EndText))))).

(** hex filename *)
Definition parseNormalHash (line : string) : ParseResult :=
  let r := zeroParse in
  if negb (MatchString normalRegexp line)
  then withErr (Some "bad checksum line") r
  else
    let matches := FindStringSubmatch normalRegexp line in
    if negb (List.length matches =? 4)%nat
    then withErr (Some "bad line") r
    else
      let r := withHash (nth 1 matches EmptyString) r in
      let hashlen := Z.of_nat (String.length (hash r)) in
      if (hashlen =? Z.quot 224 4)%Z || (hashlen =? Z.quot 256 4)%Z
         || (hashlen =? Z.quot 384 4)%Z || (hashlen =? Z.quot 512 4)%Z
      then
        let r := withAlgorithm (hashlen * 4)%Z r in
        let r := withPortable (nth 2 matches EmptyString =? "?")%string r in
        let r := withBinary (nth 2 matches EmptyString =? "*")%string r in
        let r := withFname (nth 3 matches EmptyString) r in
        if (String.length (fname r) =? 0)%nat
        then withErr (Some "bad filename") r
        else r
      else withErr (Some "bad hash") r.

Definition parseHash (line : string) (tag : bool) : ParseResult :=
  if tag then parseTagHash line else parseNormalHash line.

(** The five slices [readHashes] returns. *)
Record HashLists : Type := mkLists {
  hashes : list string;
  filenames : list string;
  algorithms : list Z;
  portables : list bool;
  binaries : list bool
}.

Definition noLists : HashLists := mkLists [] [] [] [] [].

Definition appendParse (l : HashLists) (p : ParseResult) : HashLists :=
  mkLists (hashes l ++ [hash p])%list (filenames l ++ [fname p])%list
          (algorithms l ++ [algorithm p])%list
          (portables l ++ [portable p])%list
          (binaries l ++ [binary p])%list.

(** The [for] loop of [readHashes] over the results of [ReadLine]; the
    list ends where [ReadLine] returns an error, which makes the function
    return what it has. *)
Fixpoint readHashesLoop (tag strict : bool) (rs : list (string * bool))
         (line : string) (acc : HashLists) : M HashLists :=
  match rs with
  | [] => ret acc
  | (part, prefix) :: rs' =>
    let line := line ++ part in
    if negb prefix then
      let p := parseHash line tag in
      (match err p with
       | Some e => if strict then dieerr e else ret tt
       | None => ret tt
       end) ;;;
      readHashesLoop tag strict rs' EmptyString (appendParse acc p)
    else readHashesLoop tag strict rs' line acc
  end.

(** The text of one printed manifest line, as [hashFiles] prints it. *)
Definition printEntry (filename : string) (algorithm : Z) (hash : string)
           (portable binary tag : bool) : M unit :=
  if tag then
    emit (Stdout ("SHA3-" ++ fmtD algorithm ++ " (" ++ filename ++ ") = "
                  ++ hash ++ nl))
  else
    emit (Stdout (hash ++ "  ")) ;;;
    (if portable then emit (Stdout "?")
     else if binary then emit (Stdout "*")
     else ret tt) ;;;
    emit (Stdout (filename ++ nl)).

(** [%v] of a slice of strings. *)
Definition fmtStrings (xs : list string) : string :=
  "[" ++ String.concat " " xs ++ "]".

Definition orIndex (flag : bool) (xs : list bool) (i : nat) : M bool :=
  if flag then ret true else index xs i.

(** The pointers [goopt] hands to [main] after parsing the command line
    ([None] is nil), and the remaining arguments. *)
Record Options : Type := mkOptions {
  optAlgorithm : option Z;
  optBinary : option bool;
  optCheck : option string;
  optPortable : option bool;
  optText : option bool;
  optTag : option bool;
  optStatus : option bool;
  optQuiet : option bool;
  optStrict : option bool;
  optVersion : option bool;
  Args : list string
}.

Definition deref {A} (p : option A) : M A :=
  match p with
  | Some a => ret a
  | None => panic
  end.

Definition isNil {A} (p : option A) : bool :=
  match p with Some _ => false | None => true end.

(** [p != nil && *p] *)
Definition flagOf (p : option bool) : bool :=
  match p with Some b => b | None => false end.

Section WithEnv.
Variable E : Env.

Definition hSum (h : Hash) : M (list byte) :=
  match h with
  | Some (w, d) => ret (keccakSum E w d)
  | None => panic
  end.

(** [keccak.New224()] and the like, chosen by the [switch]. *)
Definition newHash (algorithm : Z) : Hash :=
  if (algorithm =? 224)%Z then Some (224%Z, [])
  else if (algorithm =? 256)%Z then Some (256%Z, [])
  else if (algorithm =? 384)%Z then Some (384%Z, [])
  else if (algorithm =? 512)%Z then Some (512%Z, [])
  else None.

(** The file [hashFile] reads: [os.Stdin] for the name [-], else what
    [os.Open] gives.  [hashFile] closes that file when it returns
    ([defer f.Close()]).  For a file of [os.Open] this leaves nothing
    behind in the run, each call opening the name anew.  For [-] the file
    closed is [os.Stdin] itself, and a later [hashFile] of [-] in the same
    run reads a closed file and dies.  The closing is not part of this
    model, which gives [stdin E] at every [-]: it is exact for the runs
    that take [-] at most once ([Shapes.stdinUses] counts the uses in a
    list of files). *)
Definition openInput (filename : string) : M File :=
  if (filename =? "-")%string then emit UseStdin ;;; ret (stdin E)
  else
    emit (Open filename) ;;;
    match osOpen E filename with
    | inl f => ret f
    | inr e => dieerr e
    end.

(** The loop of the binary branch: one iteration per [f.Read]. *)
Fixpoint binaryLoop (h : Hash) (cs : list (list byte))
         (final : option error) : M (Hash * option error) :=
  match cs with
  | [] => ret (h, final)
  | c :: cs' =>
    if (0 <? List.length c)%nat
    then h' <- hWrite h c ;; binaryLoop h' cs' final
    else binaryLoop h cs' final
  end.

(** The loop of the text branch: one iteration per line that
    [ReadString] returns without error. *)
Fixpoint textLoop (h : Hash) (lines : list string)
         (final : option error) : M (Hash * option error) :=
  match lines with
  | [] => ret (h, final)
  | line :: rest =>
    let linelen := String.length line in
    whole <- sliceM line 0 linelen ;;
    line' <- (if (whole =? str1 "013")%string
              then sliceM line 0 (linelen - 1)
              else ret line) ;;
    h' <- hWrite h (list_byte_of_string line') ;;
    textLoop h' rest final
  end.

Definition fileData (f : File) : string :=
  string_of_list_byte (List.concat (chunks f)).

Definition hashFile (filename : string) (algorithm : Z)
           (portable binary : bool) : M (string * option error) :=
  f <- openInput filename ;;
  let h := newHash algorithm in
  '(h', err) <-
    (if binary || portable || negb (windows E)
     then binaryLoop h (chunks f) (readErr f)
     else textLoop h (fst (readStrings EmptyString (fileData f)))
                   (readErr f)) ;;
  match err with
  | Some e => dieerr e
  | None =>
    sum <- hSum h' ;;
    ret (fold_left (fun result b => result ++ fmt02x b) sum EmptyString,
         None)
  end.

Definition readHashes (hashesFilename : string) (tag strict : bool)
  : M HashLists :=
  emit (Open hashesFilename) ;;;
  match osOpen E hashesFilename with
  | inr e => dieerr e
  | inl f => readHashesLoop tag strict (readLine E f) EmptyString noLists
  end.

Fixpoint hashFilesLoop (files : list string) (algorithm : Z)
         (portable binary tag : bool) (err : option error)
  : M (option error) :=
  match files with
  | [] => ret err
  | filename :: rest =>
    '(hash, err2) <- hashFile filename algorithm portable binary ;;
    match err2 with
    | Some e => hashFilesLoop rest algorithm portable binary tag (Some e)
    | None =>
      printEntry filename algorithm hash portable binary tag ;;;
      hashFilesLoop rest algorithm portable binary tag err
    end
  end.

Definition hashFiles (files : list string) (algorithm : Z)
           (portable binary tag : bool) : M (option error) :=
  if (List.length files =? 0)%nat
  then ret (Some "missing files to check")
  else hashFilesLoop files algorithm portable binary tag None.

(** The [for i, filename := range filenames] loop of [checkFiles].  The
    result is [inl err] when the body executes [return err], and the
    two counters when the loop runs to its end. *)
Fixpoint checkLoop (l : HashLists)
         (binaryFlag portableFlag strictFlag statusFlag : bool)
         (i : nat) (rest : list string) (good bad : Z)
  : M (error + Z * Z) :=
  match rest with
  | [] => ret (inr (good, bad))
  | filename :: rest' =>
    let continue g b :=
      checkLoop l binaryFlag portableFlag strictFlag statusFlag
                (S i) rest' g b in
    a <- index (algorithms l) i ;;
    p <- orIndex portableFlag (portables l) i ;;
    b <- orIndex binaryFlag (binaries l) i ;;
    '(actualHashHex, err) <- hashFile filename a p b ;;
    match err with
    | Some e => if strictFlag then ret (inl e) else continue good bad
    | None =>
      match DecodeString actualHashHex with
      | (_, Some e) =>
        if strictFlag then ret (inl e) else continue good bad
      | (actualHash, None) =>
        expected <- index (hashes l) i ;;
        match DecodeString expected with
        | (_, Some e) =>
          if strictFlag then ret (inl e) else continue good bad
        | (expectedHash, None) =>
          if secureEqual E actualHash expectedHash then
            (if negb statusFlag
             then emit (Stdout (filename ++ ": OK" ++ nl))
             else ret tt) ;;;
            continue (good + 1)%Z bad
          else
            (if negb statusFlag
             then emit (Stdout (filename ++ ": FAILED" ++ nl))
             else ret tt) ;;;
            continue good (bad + 1)%Z
        end
      end
    end
  end.

Definition checkFiles (checkFilename : string)
           (binaryFlag portableFlag tagFlag strictFlag statusFlag : bool)
  : M (option error) :=
  emit (Stdout ("checking " ++ " " ++ checkFilename ++ nl)) ;;;
  l <- readHashes checkFilename tagFlag strictFlag ;;
  emit (Stdout ("checking files" ++ " " ++ fmtStrings (filenames l) ++ nl)) ;;;
  r <- checkLoop l binaryFlag portableFlag strictFlag statusFlag
                 0 (filenames l) 0 0 ;;
  match r with
  | inl e => ret (Some e)
  | inr (good, bad) =>
    (if negb statusFlag && (0 <? bad)%Z
     then emit (Stderr ("sha3sum: WARNING " ++ fmtD bad ++ " of "
                        ++ fmtD (good + bad)
                        ++ " computed checksums did NOT match" ++ nl))
     else ret tt) ;;;
    ret None
  end.

Definition main (o : Options) : M unit :=
  bad <- (if isNil (optAlgorithm o)
          then a <- deref (optAlgorithm o) ;; ret (negb (validAlgorithm a))
          else ret false) ;;
  (if bad then die "bad algorithm" else ret tt) ;;;
  let binaryFlag := flagOf (optBinary o) in
  let portableFlag := flagOf (optPortable o) in
  let textFlag := flagOf (optText o) in
  let tagFlag := flagOf (optTag o) in
  let statusFlag := flagOf (optStatus o) in
  let quietFlag := flagOf (optQuiet o) in
  let strictFlag := flagOf (optStrict o) in
  let versionFlag := flagOf (optVersion o) in
  (if textFlag && binaryFlag
   then die "cannot specify both text and binary" else ret tt) ;;;
  only <- (if isNil (optCheck o)
           then c <- deref (optCheck o) ;; ret (negb (c =? EmptyString)%string)
           else ret false) ;;
  (if only && (statusFlag || quietFlag || strictFlag)
   then die "silent, warn, strict and/or quiet can only be used with check"
   else ret tt) ;;;
  let files := if (List.length (Args o) =? 0)%nat then ["-"] else Args o in
  if versionFlag then emit (Stdout ("sha3sum 1.0" ++ nl))
  else
    c <- deref (optCheck o) ;;
    err <- (if (c =? EmptyString)%string
            then a <- deref (optAlgorithm o) ;;
                 hashFiles files a portableFlag binaryFlag tagFlag
            else checkFiles c binaryFlag portableFlag tagFlag
                            strictFlag statusFlag) ;;
    match err with
    | Some _ => exit 1
    | None => ret tt
    end.

End WithEnv.

End Sha3sum.

(* ================================================================== *)
(** * [src/unnamed/part_000]: the copy of the command without transfer
      modes *)
(* ================================================================== *)

Module Part000.
Import GoString Regexp GoLib Proc.
Local Open Scope proc_scope.

(** [die], [dieerr] and the hash values read as in [src/sha3sum.go]. *)
Definition die {A} (msg : string) : M A :=
  emit (Stderr (msg ++ nl)) ;;; exit 1.

Definition dieerr {A} (err : error) : M A := die err.

Definition BUF_SIZE : Z := 256 * 1024.

Definition Hash := Sha3sum.Hash.
Definition hWrite := Sha3sum.hWrite.
Definition index {A} := @Sha3sum.index A.
Definition deref {A} := @Sha3sum.deref A.
Definition isNil {A} := @Sha3sum.isNil A.
Definition flagOf := Sha3sum.flagOf.

Definition validAlgorithm (algorithm : Z) : bool :=
  if (algorithm =? 224)%Z || (algorithm =? 256)%Z
     || (algorithm =? 384)%Z || (algorithm =? 512)%Z
  then true else false.

(** The named results of the two line parsers of this file. *)
Record ParseResult : Type := mkParse {
  hash : string;
  fname : string;
  algorithm : Z;
  err : option error
}.

Definition zeroParse : ParseResult := mkParse EmptyString EmptyString 0 None.

Definition withErr (e : option error) (r : ParseResult) :=
  mkParse (hash r) (fname r) (algorithm r) e.
Definition withAlgorithm (a : Z) (r : ParseResult) :=
  mkParse (hash r) (fname r) a (err r).
Definition withFname (f : string) (r : ParseResult) :=
  mkParse (hash r) f (algorithm r) (err r).
Definition withHash (h : string) (r : ParseResult) :=
  mkParse h (fname r) (algorithm r) (err r).

(** The same pattern text as in [src/sha3sum.go]. *)
Definition tagRegexp : Regexp := Sha3sum.tagRegexp.

(** SHA3-XXX (filename) = hex *)
Definition parseTagHash (line : string) : ParseResult :=
  let r := zeroParse in
  if negb (MatchString tagRegexp line)
  then withErr (Some "bad checksum line") r
  else
    let matches := FindStringSubmatch tagRegexp line in
    if negb (List.length matches =? 4)%nat
    then withErr (Some "bad line") r
    else
      let (a, e) := Atoi (nth 1 matches EmptyString) in
      let r := withErr e (withAlgorithm a r) in
      match e with
      | Some _ => r
      | None =>
        if negb (validAlgorithm (algorithm r))
        then withErr (Some "bad algorithm") r
        else
          let r := withFname (nth 2 matches EmptyString) r in
          if (String.length (fname r) =? 0)%nat
          then withErr (Some "bad filename") r
          else
            let r := withHash (nth 3 matches EmptyString) r in
            if negb (Z.of_nat (String.length (hash r))
                     =? Z.quot (algorithm r) 4)%Z
            then withErr (Some "bad hash") r
            else r
      end.

(** The pattern of [normalRegexp] in this file, piece by piece: start of
    text, a hex digit and any number of hex digits (group 1), a space and
    any number of spaces, one or more of any character but line feed
    (group 2), end of text.  It has two groups. *)
Definition normalRegexp : Regexp :=
  MustCompile 2
    (Seq (Group 1 (Seq (Cls isHex) (Star isHex)))
    (Seq (Cls isSpace)
    (Seq (Star isSpace)
    (Seq (Group 2 (Plus dot))
     EndText)))).

(** hex filename *)
Definition parseNormalHash (line : string) : ParseResult :=
  let r := zeroParse in
  if negb (MatchString normalRegexp line)
  then withErr (Some "bad checksum line") r
  else
    let matches := FindStringSubmatch normalRegexp line in
    if negb (List.length matches =? 4)%nat
    then withErr (Some "bad line") r
    else
      let r := withHash (nth 1 matches EmptyString) r in
      let hashlen := Z.of_nat (String.length (hash r)) in
      if (hashlen =? Z.quot 224 4)%Z || (hashlen =? Z.quot 256 4)%Z
         || (hashlen =? Z.quot 384 4)%Z || (hashlen =? Z.quot 512 4)%Z
      then
        let r := withAlgorithm (hashlen * 4)%Z r in
        let r := withFname (nth 2 matches EmptyString) r in
        if (String.length (fname r) =? 0)%nat
        then withErr (Some "bad filename") r
        else r
      else withErr (Some "bad hash") r.

Definition parseHash (line : string) (tag : bool) : ParseResult :=
  if tag then parseTagHash line else parseNormalHash line.

(** The three slices [readHashes] returns. *)
Record HashLists : Type := mkLists {
  hashes : list string;
  filenames : list string;
  algorithms : list Z
}.

Definition noLists : HashLists := mkLists [] [] [].

Definition appendParse (l : HashLists) (p : ParseResult) : HashLists :=
  mkLists (hashes l ++ [hash p])%list (filenames l ++ [fname p])%list
          (algorithms l ++ [algorithm p])%list.

Fixpoint readHashesLoop (tag strict : bool) (rs : list (string * bool))
         (line : string) (acc : HashLists) : M HashLists :=
  match rs with
  | [] => ret acc
  | (part, prefix) :: rs' =>
    let line := line ++ part in
    if negb prefix then
      let p := parseHash line tag in
      (match err p with
       | Some e => if strict then dieerr e else ret tt
       | None => ret tt
       end) ;;;
      readHashesLoop tag strict rs' EmptyString (appendParse acc p)
    else readHashesLoop tag strict rs' line acc
  end.

Definition printEntry (filename : string) (algorithm : Z) (hash : string)
           (tag : bool) : M unit :=
  if tag then
    emit (Stdout ("SHA3-" ++ fmtD algorithm ++ " (" ++ filename ++ ") = "
                  ++ hash ++ nl))
  else emit (Stdout (hash ++ "  " ++ filename ++ nl)).

Record Options : Type := mkOptions {
  optAlgorithm : option Z;
  optCheckFilename : option string;
  optTag : option bool;
  optVer : option bool;
  optStat : option bool;
  optQ : option bool;
  optStrict : option bool;
  Args : list string
}.

Section WithEnv.
Variable E : Env.

Definition hSum := Sha3sum.hSum E.

(** [New224()] and the like are functions of the same package that are
    not part of these sources; they are the hash constructors the
    environment provides. *)
Definition newHash := Sha3sum.newHash.

(** As in [Sha3sum.openInput]: the deferred [f.Close()] is not part of
    the model, which is exact for the runs that take [-] at most once. *)
Definition openInput (filename : string) : M File :=
  if (filename =? "-")%string then emit UseStdin ;;; ret (stdin E)
  else
    emit (Open filename) ;;;
    match osOpen E filename with
    | inl f => ret f
    | inr e => dieerr e
    end.

Fixpoint readLoop (h : Hash) (cs : list (list byte))
         (final : option error) : M (Hash * option error) :=
  match cs with
  | [] => ret (h, final)
  | c :: cs' =>
    if (0 <? List.length c)%nat
    then h' <- hWrite h c ;; readLoop h' cs' final
    else readLoop h cs' final
  end.

Definition hashFile (filename : string) (algorithm : Z)
  : M (string * option error) :=
  f <- openInput filename ;;
  let h := newHash algorithm in
  '(h', err) <- readLoop h (chunks f) (readErr f) ;;
  match err with
  | Some e => dieerr e
  | None =>
    sum <- hSum h' ;;
    ret (fold_left (fun result b => result ++ fmt02x b) sum EmptyString,
         None)
  end.

Definition readHashes (hashesFilename : string) (tag strict : bool)
  : M HashLists :=
  emit (Open hashesFilename) ;;;
  match osOpen E hashesFilename with
  | inr e => dieerr e
  | inl f => readHashesLoop tag strict (readLine E f) EmptyString noLists
  end.

Fixpoint hashFilesLoop (files : list string) (algorithm : Z) (tag : bool)
         (err : option error) : M (option error) :=
  match files with
  | [] => ret err
  | filename :: rest =>
    '(hash, err2) <- hashFile filename algorithm ;;
    match err2 with
    | Some e => hashFilesLoop rest algorithm tag (Some e)
    | None =>
      printEntry filename algorithm hash tag ;;;
      hashFilesLoop rest algorithm tag err
    end
  end.

Definition hashFiles (files : list string) (algorithm : Z) (tag : bool)
  : M (option error) :=
  if (List.length files =? 0)%nat
  then ret (Some "missing files to check")
  else hashFilesLoop files algorithm tag None.

Definition isSome {A} (o : option A) : bool :=
  match o with Some _ => true | None => false end.

Fixpoint checkLoop (l : HashLists) (strictFlag statusFlag : bool)
         (i : nat) (rest : list string) (good bad : Z)
  : M (error + Z * Z) :=
  match rest with
  | [] => ret (inr (good, bad))
  | filename :: rest' =>
    a <- index (algorithms l) i ;;
    '(actualHashHex, err) <- hashFile filename a ;;
    match err, strictFlag with
    | Some e, true => ret (inl e)
    | _, _ =>
      let (actualHash, err2) := DecodeString actualHashHex in
      match err2, strictFlag with
      | Some e, true => ret (inl e)
      | _, _ =>
        expected <- index (hashes l) i ;;
        let (expectedHash, err3) := DecodeString expected in
        match err3, strictFlag with
        | Some e, true => ret (inl e)
        | _, _ =>
          if negb (isSome err) && negb (isSome err2) && negb (isSome err3)
             && secureEqual E actualHash expectedHash
          then
            (if negb statusFlag
             then emit (Stdout (filename ++ ": OK" ++ nl))
             else ret tt) ;;;
            checkLoop l strictFlag statusFlag (S i) rest' (good + 1)%Z bad
          else
            (if negb statusFlag
             then emit (Stdout (filename ++ ": FAILED" ++ nl))
             else ret tt) ;;;
            checkLoop l strictFlag statusFlag (S i) rest' good (bad + 1)%Z
        end
      end
    end
  end.

Definition checkFiles (checkFilename : string)
           (tagFlag strictFlag statusFlag : bool) : M (option error) :=
  l <- readHashes checkFilename tagFlag strictFlag ;;
  r <- checkLoop l strictFlag statusFlag 0 (filenames l) 0 0 ;;
  match r with
  | inl e => ret (Some e)
  | inr (good, bad) =>
    (if negb statusFlag && (0 <? bad)%Z
     then emit (Stderr ("sha3sum: WARNING " ++ fmtD bad ++ " of "
                        ++ fmtD (good + bad)
                        ++ " computed checksums did NOT match" ++ nl))
     else ret tt) ;;;
    ret None
  end.

Definition main (o : Options) : M unit :=
  if flagOf (optVer o) then emit (Stdout ("sha3sum 1.0" ++ nl))
  else
    bad <- (if isNil (optAlgorithm o) then ret true
            else a <- deref (optAlgorithm o) ;;
                 ret (negb (validAlgorithm a))) ;;
    (if bad then die "bad algorithm" else ret tt) ;;;
    let statusFlag := flagOf (optStat o) in
    let quietFlag := flagOf (optQ o) in
    let strictFlag := flagOf (optStrict o) in
    let tagFlag := flagOf (optTag o) in
    generate <- (if isNil (optCheckFilename o) then ret true
                 else c <- deref (optCheckFilename o) ;;
                      ret (c =? EmptyString)%string) ;;
    if generate then
      (if statusFlag || quietFlag || strictFlag
       then die "silent, warn, strict and/or quiet can only be used with check"
       else ret tt) ;;;
      let files := if (List.length (Args o) =? 0)%nat
                   then ["-"] else Args o in
      a <- deref (optAlgorithm o) ;;
      err <- hashFiles files a tagFlag ;;
      match err with
      | Some _ => exit 1
      | None => ret tt
      end
    else
      c <- deref (optCheckFilename o) ;;
      err <- checkFiles c tagFlag strictFlag statusFlag ;;
      match err with
      | Some _ => exit 1
      | None => ret tt
      end.

End WithEnv.

End Part000.

(* ================================================================== *)
(** * Predicates used in the statements *)
(* ================================================================== *)

Module Preds.
Import GoString Regexp.

(** The byte is not a line feed. *)
Definition notNL (c : ascii) : bool := negb (byteVal c =? 10)%N.

Definition isHexByte (c : ascii) : bool := isHex (byteVal c).

Definition isSpaceByte (c : ascii) : bool := isSpace (byteVal c).

Definition isModeByte (c : ascii) : bool := isModeChar (byteVal c).

(** The string does not go on with a byte of the class. *)
Definition startsNot (p : ascii -> bool) (s : string) : Prop :=
  match s with
  | EmptyString => True
  | String c _ => p c = false
  end.

(** The shape of a decoding step: some bytes, which are either one ASCII
    byte standing for itself or bytes of [0x80] and above standing for a
    rune of [0x80] and above. *)
Definition stepOK (x : rune * string) : Prop :=
  0 < String.length (snd x) /\
  ((exists c, snd x = str1 c /\ fst x = byteVal c /\ isAscii c = true)
   \/ ((128 <= fst x)%N /\ allb isHigh (snd x) = true)).

(** The rune of a decoding step is in the class. *)
Definition holds (p : rune -> bool) (x : rune * string) : Prop :=
  p (fst x) = true.

(** The input does not go on with a rune of the class. *)
Definition stops (p : rune -> bool) (s : input) : Prop :=
  match s with
  | [] => True
  | x :: _ => p (fst x) = false
  end.

(** The decoding of a string of ASCII bytes. *)
Definition asciiRunes (s : string) : input :=
  map (fun c => (byteVal c, str1 c)) (list_ascii_of_string s).

(** The widths the program knows. *)
Definition widths : list Z := [224; 256; 384; 512]%Z.

(** The lines a sequence of [ReadLine] results delivers: the parts up to
    and including the first one without the prefix flag make a line
    ([line] holds the parts read so far).  Parts at the end that no part
    without the flag completes make no line. *)
Fixpoint assemble (rs : list (string * bool)) (line : string) : list string :=
  match rs with
  | [] => []
  | (part, prefix) :: rs' =>
    if prefix then assemble rs' (line ++ part)
    else (line ++ part) :: assemble rs' EmptyString
  end.

End Preds.

(* ================================================================== *)
(** * An environment for closed examples *)
(* ================================================================== *)

Module Demo.
Import GoString GoLib Proc.

Definition bytes (s : string) : list byte := list_byte_of_string s.

(** A stand-in digest of the right size: [w/8] zero bytes for any input. *)
Definition zeroSum (w : Z) (data : list byte) : list byte :=
  repeat x00 (Z.to_nat (w / 8)).

(** A stand-in digest that shows what was written: the input itself. *)
Definition idSum (w : Z) (data : list byte) : list byte := data.

(** Equality of byte slices, the function [securecompare.Equal] computes. *)
Fixpoint bytesEqb (a b : list byte) : bool :=
  match a, b with
  | [], [] => true
  | x :: a', y :: b' => Byte.eqb x y && bytesEqb a' b'
  | _, _ => false
  end.

Fixpoint dropLast (s : string) : string :=
  match s with
  | EmptyString => EmptyString
  | String c EmptyString => EmptyString
  | String c s' => String c (dropLast s')
  end.

Fixpoint lastIsCR (s : string) : bool :=
  match s with
  | EmptyString => false
  | String c EmptyString => (c =? "013")%char
  | String _ s' => lastIsCR s'
  end.

(** [ReadLine] over lines that fit its buffer: the content cut at line
    feeds, a carriage return before the line feed dropped, a last line
    without line feed returned as well. *)
Fixpoint shortLines (cur data : string) : list (string * bool) :=
  match data with
  | EmptyString =>
    if (String.length cur =? 0)%nat then [] else [(cur, false)]
  | String c d =>
    if (c =? "010")%char
    then ((if lastIsCR cur then dropLast cur else cur), false)
           :: shortLines EmptyString d
    else shortLines (cur ++ str1 c) d
  end.

(** A file system given as a list of names and contents. *)
Fixpoint lookup (files : list (string * string)) (name : string)
  : File + string :=
  match files with
  | [] => inr ("open " ++ name ++ ": no such file or directory")
  | (n, content) :: rest =>
    if (n =? name)%string then inl (mkFile [bytes content] None)
    else lookup rest name
  end.

Definition env (win : bool) (sum : Z -> list byte -> list byte)
           (files : list (string * string)) : Env :=
  mkEnv win (lookup files) (mkFile [] None)
        (fun f => shortLines EmptyString (Sha3sum.fileData f))
        sum bytesEqb.

Definition digestA : string := replicate 64 "a"%char.
Definition digest0 : string := replicate 64 "0"%char.

(** A tagged manifest whose only entry does not match the file it names. *)
Definition mismatchFiles : list (string * string) :=
  [("sums", "SHA3-256 (f) = " ++ digestA ++ nl); ("f", "x")].

(** A plain manifest that names a file that does not exist, then one that
    does and matches under [zeroSum]. *)
Definition missingFiles : list (string * string) :=
  [("sums", digest0 ++ "  missing" ++ nl ++ digest0 ++ "  f" ++ nl);
   ("f", "x")].

(** The same two lines with the two kinds of line ending. *)
Definition crlfFiles : list (string * string) :=
  [("crlf", "a" ++ str1 "013" ++ nl ++ "b" ++ str1 "013" ++ nl);
   ("lf", "a" ++ nl ++ "b" ++ nl)].

(** The command line [-a 256 -c sums], with [--tag] and [--strict] as
    given. *)
Definition checkOptions (tag strict : bool) : Sha3sum.Options :=
  Sha3sum.mkOptions (Some 256%Z) (Some false) (Some "sums") (Some false)
                    (Some false) (Some tag) (Some false) (Some false)
                    (Some strict) (Some false) [].

(** The command line [-a width files...]. *)
Definition hashOptions (width : Z) (files : list string) : Sha3sum.Options :=
  Sha3sum.mkOptions (Some width) (Some false) (Some EmptyString) (Some false)
                    (Some false) (Some false) (Some false) (Some false)
                    (Some false) (Some false) files.

Definition checkOptions000 (tag strict : bool) : Part000.Options :=
  Part000.mkOptions (Some 256%Z) (Some "sums") (Some tag) (Some false)
                    (Some false) (Some false) (Some strict) [].

Definition hashOptions000 (width : Z) (files : list string)
  : Part000.Options :=
  Part000.mkOptions (Some width) (Some EmptyString) (Some false) (Some false)
                    (Some false) (Some false) (Some false) files.

End Demo.

(* ================================================================== *)
(** * Further notions used to state properties of the two commands *)
(* ================================================================== *)

Module Shapes.
Import GoString GoLib Proc.

(** The loop that ends [hashFile]: two hex digits for every byte of the
    digest, appended in order. *)
Definition hexString (sum : list byte) : string :=
  fold_left (fun result b => result ++ fmt02x b) sum EmptyString.

(** A decimal digit or one of [a] to [f]. *)
Definition isLowerHexByte (c : ascii) : bool :=
  inRange 48 57 c || inRange 97 102 c.

(** What the first statements of [hashFile] read from: standard input for
    the name [-], else the result of [os.Open]. *)
Definition source (E : Env) (filename : string) : File + string :=
  if (filename =? "-")%string then inl (stdin E) else osOpen E filename.

Definition openEvent (filename : string) : Event :=
  if (filename =? "-")%string then UseStdin else Open filename.

(** The results of [ReadLine] for one line delivered in several parts:
    every part but the last carries the prefix flag. *)
Definition lineParts (parts : list string) (last : string)
  : list (string * bool) :=
  (map (fun p => (p, true)) parts ++ [(last, false)])%list.

(** The line these parts make. *)
Definition joinParts (parts : list string) (last : string) : string :=
  fold_right append last parts.

(** The command line of [src/sha3sum.go] with other values for the three
    flags that belong to [--check]. *)
Definition withCheckFlags (st q strict : option bool) (o : Sha3sum.Options)
  : Sha3sum.Options :=
  Sha3sum.mkOptions (Sha3sum.optAlgorithm o) (Sha3sum.optBinary o)
                    (Sha3sum.optCheck o) (Sha3sum.optPortable o)
                    (Sha3sum.optText o) (Sha3sum.optTag o)
                    st q strict (Sha3sum.optVersion o) (Sha3sum.Args o).

(** The command line of [src/unnamed/part_000] with another value for
    [--quiet]. *)
Definition withQuiet000 (q : option bool) (o : Part000.Options)
  : Part000.Options :=
  Part000.mkOptions (Part000.optAlgorithm o) (Part000.optCheckFilename o)
                    (Part000.optTag o) (Part000.optVer o) (Part000.optStat o)
                    q (Part000.optStrict o) (Part000.Args o).

(** What a run has written to standard error. *)
Fixpoint stderrText (t : list Event) : string :=
  match t with
  | [] => EmptyString
  | Stderr text :: t' => text ++ stderrText t'
  | _ :: t' => stderrText t'
  end.

(** Nothing written: neither to standard output nor to standard error. *)
Definition mute (t : list Event) : Prop :=
  stdoutText t = EmptyString /\ stderrText t = EmptyString.

(** The files a run has opened, in order. *)
Fixpoint opened (t : list Event) : list string :=
  match t with
  | [] => []
  | Open name :: t' => name :: opened t'
  | _ :: t' => opened t'
  end.

(** How many times a list of files names standard input. *)
Definition stdinUses (files : list string) : nat :=
  List.length (filter (fun fn => (fn =? "-")%string) files).

(** The events of one file in generate mode: the input is taken, then the
    line is printed. *)
Definition entryEvents (w : Z) (p b tag : bool) (x : string * string)
  : list Event :=
  openEvent (fst x) :: trace (Sha3sum.printEntry (fst x) w (snd x) p b tag).

End Shapes.

(* ================================================================== *)
(** * Facts about byte strings and rune decoding *)
(* ================================================================== *)

Module StringFacts.
Import GoString Preds.

Lemma append_assoc (a b c : string) : (a ++ b) ++ c = a ++ (b ++ c).
Proof. induction a as [|x a IH]; simpl; [reflexivity | now rewrite IH]. Qed.

Lemma append_nil_r (a : string) : a ++ EmptyString = a.
Proof. induction a as [|x a IH]; simpl; [reflexivity | now rewrite IH]. Qed.

Lemma length_append (a b : string) :
  String.length (a ++ b) = String.length a + String.length b.
Proof. induction a as [|x a IH]; simpl; [reflexivity | now rewrite IH]. Qed.

Lemma append_inv_head (a b c : string) : a ++ b = a ++ c -> b = c.
Proof.
  induction a as [|x a IH]; simpl; intros H; [exact H|].
  injection H as H. now apply IH.
Qed.

Lemma length_zero (a : string) : String.length a = 0 -> a = EmptyString.
Proof. destruct a; simpl; [reflexivity | discriminate]. Qed.

Lemma allb_append (p : ascii -> bool) (a b : string) :
  allb p (a ++ b) = allb p a && allb p b.
Proof.
  induction a as [|x a IH]; simpl; [reflexivity|].
  now rewrite IH, andb_assoc.
Qed.

Lemma allb_replicate (p : ascii -> bool) (n : nat) (c : ascii) :
  p c = true -> allb p (replicate n c) = true.
Proof. intros H. induction n; simpl; [reflexivity | now rewrite H]. Qed.

Lemma length_replicate (n : nat) (c : ascii) :
  String.length (replicate n c) = n.
Proof. induction n; simpl; [reflexivity | now rewrite IHn]. Qed.

Lemma allb_impl (p q : ascii -> bool) (s : string) :
  (forall c, p c = true -> q c = true) -> allb p s = true -> allb q s = true.
Proof.
  intros Hpq. induction s as [|x s IH]; simpl; [reflexivity|].
  intros H. apply andb_true_iff in H as [Hx Hs].
  now rewrite (Hpq _ Hx), IH.
Qed.

Lemma isAscii_not_isCont (c : ascii) : isAscii c = true -> isCont c = false.
Proof.
  unfold isAscii, isCont, inRange. intros H. apply N.ltb_lt in H.
  apply andb_false_iff. left. apply N.leb_gt. lia.
Qed.

Lemma isAscii_not_second3 (n : N) (c : ascii) :
  isAscii c = true -> second3 n c = false.
Proof.
  unfold isAscii, second3, inRange. intros H. apply N.ltb_lt in H.
  repeat match goal with |- context [if ?b then _ else _] => destruct b end;
    apply andb_false_iff; left; apply N.leb_gt; lia.
Qed.

Lemma isAscii_not_second4 (n : N) (c : ascii) :
  isAscii c = true -> second4 n c = false.
Proof.
  unfold isAscii, second4, inRange. intros H. apply N.ltb_lt in H.
  repeat match goal with |- context [if ?b then _ else _] => destruct b end;
    apply andb_false_iff; left; apply N.leb_gt; lia.
Qed.

Lemma isCont_isHigh (c : ascii) : isCont c = true -> isHigh c = true.
Proof.
  unfold isCont, inRange, isHigh. intros H.
  apply andb_true_iff in H as [H _]. exact H.
Qed.

Lemma second3_isHigh (n : N) (c : ascii) :
  second3 n c = true -> isHigh c = true.
Proof.
  unfold second3, inRange, isHigh.
  repeat match goal with |- context [if ?b then _ else _] => destruct b end;
    intros H; apply andb_true_iff in H as [H _];
    apply N.leb_le in H; apply N.leb_le; lia.
Qed.

Lemma second4_isHigh (n : N) (c : ascii) :
  second4 n c = true -> isHigh c = true.
Proof.
  unfold second4, inRange, isHigh.
  repeat match goal with |- context [if ?b then _ else _] => destruct b end;
    intros H; apply andb_true_iff in H as [H _];
    apply N.leb_le in H; apply N.leb_le; lia.
Qed.

Ltac split_decode :=
  repeat match goal with
         | |- context [if ?b then _ else _] => destruct b eqn:?
         | |- context [match ?s with EmptyString => _ | String _ _ => _ end] =>
           destruct s
         end.

(** [decodeRunes] iterates [decodeRune]. *)
Lemma decodeRunes_step (s : string) :
  decodeRunes s =
  match decodeRune s with
  | None => []
  | Some (r, w, rest) => (r, w) :: decodeRunes rest
  end.
Proof.
  destruct s as [|b0 s1]; [reflexivity|].
  unfold decodeRune. cbn [decodeRunes].
  cbv zeta. split_decode; reflexivity.
Qed.

(** A step consumes a non-empty prefix. *)
Lemma decodeRune_split (s : string) r w rest :
  decodeRune s = Some (r, w, rest) ->
  s = w ++ rest /\ 0 < String.length w.
Proof.
  destruct s as [|b0 s1]; [discriminate|].
  unfold decodeRune. cbv zeta.
  intros H. injection H as H. revert H.
  split_decode; intros H; injection H as <- <- <-; simpl; split;
    (reflexivity || lia).
Qed.

(** A step yields either an ASCII byte as its own rune, or a rune of at
    least [0x80] whose bytes are all at least [0x80]. *)
Lemma decodeRune_kind (s : string) r w rest :
  decodeRune s = Some (r, w, rest) ->
  (exists c, w = str1 c /\ r = byteVal c /\ isAscii c = true)
  \/ ((128 <= r)%N /\ allb isHigh w = true).
Proof.
  destruct s as [|b0 s1]; [discriminate|].
  unfold decodeRune. cbv zeta.
  intros H. injection H as H. revert H.
  destruct (byteVal b0 <? 128)%N eqn:H0.
  - intros H; injection H as <- <- <-. left. exists b0. now repeat split.
  - split_decode; intros H; injection H as <- <- <-; right;
      unfold second3, second4, isCont, inRange in *;
      repeat match goal with
             | H : (if ?b then _ else _) = true |- _ => destruct b eqn:?
             | H : _ && _ = true |- _ => apply andb_true_iff in H as [? ?]
             end;
      repeat match goal with
             | H : (_ <? _)%N = false |- _ => apply N.ltb_ge in H
             | H : (_ <? _)%N = true |- _ => apply N.ltb_lt in H
             | H : (_ <=? _)%N = true |- _ => apply N.leb_le in H
             | H : (_ =? _)%N = true |- _ => apply N.eqb_eq in H
             | H : (_ =? _)%N = false |- _ => apply N.eqb_neq in H
             end;
      (split; [unfold RuneError; lia|]);
      simpl; unfold isHigh;
      repeat (apply andb_true_iff; split);
      try reflexivity; apply N.leb_le; lia.
Qed.

Lemma decodeRune_app_ascii (a b : string) (c : ascii) r w rest :
  isAscii c = true ->
  decodeRune a = Some (r, w, rest) ->
  decodeRune (a ++ String c b) = Some (r, w, rest ++ String c b).
Proof.
  intros Hc H. destruct a as [|b0 a1]; [discriminate|].
  simpl. unfold decodeRune in *. cbv zeta in *.
  injection H as H. f_equal. revert H.
  destruct a1 as [|b1 [|b2 [|b3 a4]]]; simpl;
    rewrite ?(isAscii_not_isCont _ Hc), ?(isAscii_not_second3 _ _ Hc),
      ?(isAscii_not_second4 _ _ Hc), ?andb_false_r; simpl;
    split_decode; intros H; injection H as <- <- <-; reflexivity.
Qed.

(** Induction along the decoding steps. *)
Lemma rune_ind (P : string -> Prop) :
  P EmptyString ->
  (forall s r w rest, decodeRune s = Some (r, w, rest) -> P rest -> P s) ->
  forall s, P s.
Proof.
  intros Hnil Hstep s.
  remember (String.length s) as n eqn:Hn.
  revert s Hn. induction n as [n IH] using lt_wf_ind. intros s Hn.
  destruct (decodeRune s) as [[[r w] rest]|] eqn:Hd.
  - apply (Hstep s r w rest Hd).
    apply decodeRune_split in Hd as [Hs Hw].
    apply (IH (String.length rest)); [|reflexivity].
    subst s n. rewrite length_append. lia.
  - destruct s; [exact Hnil | discriminate].
Qed.

Lemma bytesOf_app (x y : list (rune * string)) :
  bytesOf (x ++ y) = bytesOf x ++ bytesOf y.
Proof.
  induction x as [|[r w] x IH]; simpl; [reflexivity|].
  now rewrite IH, append_assoc.
Qed.

(** Decoding loses no byte. *)
Lemma bytesOf_decodeRunes (s : string) : bytesOf (decodeRunes s) = s.
Proof.
  induction s as [|s r w rest Hd IH] using rune_ind; [reflexivity|].
  rewrite decodeRunes_step, Hd. simpl. rewrite IH.
  now apply decodeRune_split in Hd as [-> _].
Qed.

(** An ASCII byte is a rune boundary whatever precedes it. *)
Lemma decodeRunes_app_ascii (a b : string) (c : ascii) :
  isAscii c = true ->
  decodeRunes (a ++ String c b)
  = (decodeRunes a ++ decodeRunes (String c b))%list.
Proof.
  intros Hc.
  induction a as [|a r w rest Hd IH] using rune_ind; [reflexivity|].
  rewrite (decodeRunes_step (a ++ _)), (decodeRunes_step a).
  rewrite (decodeRune_app_ascii a b c r w rest Hc Hd), Hd.
  simpl. now rewrite IH.
Qed.

Lemma decodeRunes_ascii_cons (c : ascii) (s : string) :
  isAscii c = true ->
  decodeRunes (String c s) = (byteVal c, str1 c) :: decodeRunes s.
Proof.
  intros Hc. unfold isAscii in Hc. cbn [decodeRunes]. cbv zeta.
  now rewrite Hc.
Qed.

Lemma decodeRunes_stepOK (s : string) : Forall stepOK (decodeRunes s).
Proof.
  induction s as [|s r w rest Hd IH] using rune_ind; [constructor|].
  rewrite decodeRunes_step, Hd. constructor; [|exact IH].
  split; [exact (proj2 (decodeRune_split s r w rest Hd))|].
  exact (decodeRune_kind s r w rest Hd).
Qed.

(** A class of ASCII characters holds of every rune of a string all of
    whose bytes are in the class. *)
Lemma decodeRunes_all_ascii (p : ascii -> bool) (q : rune -> bool) (s : string) :
  (forall c, p c = true -> isAscii c = true /\ q (byteVal c) = true) ->
  allb p s = true ->
  decodeRunes s = map (fun c => (byteVal c, str1 c)) (list_ascii_of_string s)
  /\ Forall (fun x => q (fst x) = true) (decodeRunes s).
Proof.
  intros Hp. induction s as [|c s IH]; simpl allb; intros H.
  - split; [reflexivity | constructor].
  - apply andb_true_iff in H as [Hc Hs].
    destruct (Hp c Hc) as [Ha Hq]. destruct (IH Hs) as [IH1 IH2].
    rewrite (decodeRunes_ascii_cons c s Ha). split.
    + simpl. now rewrite IH1.
    + constructor; [exact Hq | exact IH2].
Qed.

(** [.] holds of every rune of a string without line feed. *)
Lemma decodeRunes_dot (s : string) :
  allb notNL s = true ->
  Forall (fun x => Regexp.dot (fst x) = true) (decodeRunes s).
Proof.
  induction s as [|s r w rest Hd IH] using rune_ind; [constructor|].
  intros H. rewrite decodeRunes_step, Hd.
  pose proof (decodeRune_split s r w rest Hd) as [Hs Hw].
  subst s. rewrite allb_append in H. apply andb_true_iff in H as [H1 H2].
  constructor; [|exact (IH H2)].
  destruct (decodeRune_kind _ r w rest Hd) as [(c & -> & -> & Hc)|[Hr _]].
  - simpl in H1. rewrite andb_true_r in H1. exact H1.
  - unfold Regexp.dot. simpl. apply negb_true_iff, N.eqb_neq. lia.
Qed.

End StringFacts.

(* ================================================================== *)
(** * Facts about the matcher *)
(* ================================================================== *)

Module RegexpFacts.
Import GoString Regexp Preds StringFacts.

Lemma consumed_app (pre s' : input) : consumed (pre ++ s')%list s' = bytesOf pre.
Proof.
  unfold consumed. rewrite length_app.
  replace (List.length pre + List.length s' - List.length s')
    with (List.length pre) by lia.
  rewrite firstn_app, firstn_all, Nat.sub_diag, firstn_O, app_nil_r.
  reflexivity.
Qed.

Lemma consumed_all (s : input) : consumed s [] = bytesOf s.
Proof. rewrite <- (app_nil_r s) at 1. apply consumed_app. Qed.

Lemma run_Lit_inv a s c k r :
  run (Lit a) s c k = Some r ->
  exists w s', s = (byteVal a, w) :: s' /\ k s' c = Some r.
Proof.
  simpl. destruct s as [|[x w] s']; [discriminate|].
  destruct (x =? byteVal a)%N eqn:Hx; [|discriminate].
  apply N.eqb_eq in Hx. subst x. intros H. now exists w, s'.
Qed.

Lemma run_Cls_inv p s c k r :
  run (Cls p) s c k = Some r ->
  exists x w s', s = (x, w) :: s' /\ p x = true /\ k s' c = Some r.
Proof.
  simpl. destruct s as [|[x w] s']; [discriminate|].
  destruct (p x) eqn:Hx; [|discriminate].
  intros H. now exists x, w, s'.
Qed.

(** Whatever the repetition returns was returned by the continuation after
    some run of runes of the class. *)
Lemma starCls_inv p s c k r :
  starCls p s c k = Some r ->
  exists pre s', s = (pre ++ s')%list /\ Forall (holds p) pre /\ k s' c = Some r.
Proof.
  induction s as [|[x w] s IH]; simpl; intros H.
  - exists [], []. now repeat split.
  - destruct (p x) eqn:Hx.
    + destruct (starCls p s c k) as [r'|] eqn:Hs.
      * injection H as <-. destruct (IH eq_refl) as (pre & s' & -> & Hp & Hk).
        exists ((x, w) :: pre), s'. repeat split; [|exact Hk].
        constructor; [exact Hx | exact Hp].
      * exists [], ((x, w) :: s). now repeat split.
    + exists [], ((x, w) :: s). now repeat split.
Qed.

(** Greedy: when the continuation accepts after the longest run, that is
    the answer. *)
Lemma starCls_greedy p pre s' c k r :
  Forall (holds p) pre -> stops p s' -> k s' c = Some r ->
  starCls p (pre ++ s')%list c k = Some r.
Proof.
  intros Hp Hs Hk. induction Hp as [|[x w] pre Hx Hp IH]; simpl.
  - destruct s' as [|[y v] s']; [exact Hk|].
    simpl in Hs. simpl. now rewrite Hs.
  - unfold holds in Hx. simpl in Hx. now rewrite Hx, IH.
Qed.

(** Complete: when the continuation accepts after some run, the repetition
    returns something. *)
Lemma starCls_complete p pre s' c k :
  Forall (holds p) pre -> k s' c <> None ->
  starCls p (pre ++ s')%list c k <> None.
Proof.
  intros Hp Hk. induction Hp as [|[x w] pre Hx Hp IH]; simpl.
  - destruct s' as [|[y v] s']; [exact Hk|]. simpl.
    destruct (p y); [|exact Hk].
    destruct (starCls p s' c k); [discriminate | exact Hk].
  - unfold holds in Hx. simpl in Hx. rewrite Hx.
    destruct (starCls p (pre ++ s')%list c k); [discriminate | contradiction].
Qed.

Lemma run_Plus_inv p s c k r :
  run (Plus p) s c k = Some r ->
  exists x pre s', s = (x :: pre ++ s')%list /\ Forall (holds p) (x :: pre)
                   /\ k s' c = Some r.
Proof.
  simpl. destruct s as [|[x w] s]; [discriminate|].
  destruct (p x) eqn:Hx; [|discriminate].
  intros H. apply starCls_inv in H as (pre & s' & -> & Hp & Hk).
  exists (x, w), pre, s'. repeat split; [|exact Hk].
  constructor; [exact Hx | exact Hp].
Qed.

Lemma run_EndText_inv s c k r :
  run EndText s c k = Some r -> s = [] /\ k [] c = Some r.
Proof. simpl. destruct s; [now split | discriminate]. Qed.

(** A literal string matches exactly its own runes. *)
Lemma run_lits_inv str rest s c k r :
  run (lits str rest) s c k = Some r ->
  exists pre s', s = (pre ++ s')%list /\ map fst pre = map fst (asciiRunes str)
                 /\ run rest s' c k = Some r.
Proof.
  revert s. induction str as [|a str IH]; intros s; simpl lits; intros H.
  - exists [], s. now repeat split.
  - change (run (Lit a) s c (fun s1 c1 => run (lits str rest) s1 c1 k)
            = Some r) in H.
    apply run_Lit_inv in H as (w & s1 & -> & H).
    apply IH in H as (pre & s' & -> & Hm & H).
    exists ((byteVal a, w) :: pre), s'. repeat split; [|exact H].
    simpl. now rewrite Hm.
Qed.

Lemma run_lits str rest s c k :
  run (lits str rest) (asciiRunes str ++ s)%list c k = run rest s c k.
Proof.
  induction str as [|a str IH]; [reflexivity|].
  simpl lits. cbn [run]. unfold asciiRunes. simpl.
  rewrite N.eqb_refl. apply IH.
Qed.

Lemma byteVal_inj (a b : ascii) : byteVal a = byteVal b -> a = b.
Proof.
  unfold byteVal. intros H.
  rewrite <- (ascii_N_embedding a), <- (ascii_N_embedding b). now rewrite H.
Qed.

(** The bytes of a run of well-formed steps that carry ASCII runes. *)
Lemma bytesOf_ascii_runes (pre : input) (str : string) :
  Forall stepOK pre -> allb isAscii str = true ->
  map fst pre = map fst (asciiRunes str) ->
  bytesOf pre = str.
Proof.
  revert str. induction pre as [|[x w] pre IH]; intros str Hok Ha Hm.
  - destruct str; [reflexivity | discriminate].
  - destruct str as [|a str]; [discriminate|].
    simpl in Ha. apply andb_true_iff in Ha as [Ha Hs].
    unfold asciiRunes in Hm. simpl in Hm. injection Hm as Hx Hm.
    inversion Hok as [|? ? [_ H1] H2]; subst.
    simpl in H1. destruct H1 as [(c' & -> & Hc & _)|[Hge _]].
    + apply byteVal_inj in Hc. subst c'. simpl. f_equal.
      now apply IH.
    + unfold isAscii in Ha. apply N.ltb_lt in Ha. lia.
Qed.

(** The bytes of a run of runes of a class of ASCII characters. *)
Lemma bytesOf_class_run (p : rune -> bool) (pre : input) :
  (forall x, p x = true -> (x < 128)%N) ->
  Forall stepOK pre -> Forall (holds p) pre ->
  allb (fun c => p (byteVal c)) (bytesOf pre) = true
  /\ String.length (bytesOf pre) = List.length pre.
Proof.
  intros Hp. induction pre as [|[x w] pre IH]; intros Hok Hh.
  - now split.
  - inversion Hok as [|? ? [_ H1] H2]; subst.
    inversion Hh as [|? ? H3 H4]; subst.
    destruct (IH H2 H4) as [IH1 IH2].
    unfold holds in H3. simpl in H1, H3.
    destruct H1 as [(c' & -> & -> & _)|[Hge _]].
    + simpl. rewrite H3, IH1, IH2. now split.
    + apply Hp in H3. lia.
Qed.

Lemma asciiRunes_app (a b : string) :
  asciiRunes (a ++ b) = (asciiRunes a ++ asciiRunes b)%list.
Proof.
  unfold asciiRunes. induction a as [|x a IH]; [reflexivity|].
  simpl. now rewrite IH.
Qed.

Lemma bytesOf_asciiRunes (a : string) : bytesOf (asciiRunes a) = a.
Proof.
  unfold asciiRunes. induction a as [|x a IH]; [reflexivity|].
  simpl. now rewrite IH.
Qed.

(** Decoding an ASCII prefix. *)
Lemma decodeRunes_ascii_prefix (a b : string) :
  allb isAscii a = true ->
  decodeRunes (a ++ b) = (asciiRunes a ++ decodeRunes b)%list.
Proof.
  induction a as [|x a IH]; simpl allb; intros H; [reflexivity|].
  apply andb_true_iff in H as [Hx Ha]. simpl append.
  rewrite (decodeRunes_ascii_cons x _ Hx), (IH Ha). reflexivity.
Qed.

Lemma Forall_asciiRunes (p : rune -> bool) (a : string) :
  allb (fun c => p (byteVal c)) a = true -> Forall (holds p) (asciiRunes a).
Proof.
  unfold asciiRunes. induction a as [|x a IH]; simpl; intros H; [constructor|].
  apply andb_true_iff in H as [Hx Ha]. constructor; [exact Hx | now apply IH].
Qed.

End RegexpFacts.

Module TagFacts.
Import GoString Regexp GoLib Preds StringFacts RegexpFacts Sha3sum.

Ltac eat H :=
  match type of H with
  | match ?s with [] => None | _ :: _ => _ end = Some _ =>
    destruct s as [|[? ?] ?]; [discriminate H|];
    match type of H with
    | (if ?b then _ else None) = Some _ =>
      let E := fresh "E" in destruct b eqn:E; [|discriminate H]
    end
  end.

Ltac eat_as H x w t E :=
  match type of H with
  | match ?s with [] => None | _ :: _ => _ end = Some _ =>
    destruct s as [|[x w] t]; [discriminate H|];
    match type of H with
    | (if ?b then _ else None) = Some _ =>
      destruct b eqn:E; [|discriminate H]
    end
  end.

Lemma stepOK_lit x w a :
  stepOK (x, w) -> (x =? byteVal a)%N = true -> isAscii a = true -> w = str1 a.
Proof.
  intros [_ [(c & Hw & Hx & _)|[Hge _]]] E Ha; simpl in *.
  - apply N.eqb_eq in E. subst x. apply byteVal_inj in E. now subst.
  - apply N.eqb_eq in E. unfold isAscii in Ha. apply N.ltb_lt in Ha. lia.
Qed.

Lemma stepOK_class (p : rune -> bool) x w :
  (forall y, p y = true -> (y < 128)%N) ->
  stepOK (x, w) -> p x = true -> exists c, w = str1 c /\ x = byteVal c.
Proof.
  intros Hp [_ [(c & Hw & Hx & _)|[Hge _]]] E; simpl in *.
  - now exists c.
  - apply Hp in E. lia.
Qed.

Lemma between_lt (lo hi : ascii) x :
  isAscii hi = true -> between lo hi x = true -> (x < 128)%N.
Proof.
  unfold between, isAscii. intros Hh H.
  apply andb_true_iff in H as [_ H]. apply N.leb_le in H.
  apply N.ltb_lt in Hh. lia.
Qed.

Lemma isDigit_lt x : isDigit x = true -> (x < 128)%N.
Proof. apply between_lt. reflexivity. Qed.

Lemma isHex_lt x : isHex x = true -> (x < 128)%N.
Proof.
  unfold isHex. intros H.
  apply orb_true_iff in H as [H|H]; [apply orb_true_iff in H as [H|H]|];
    revert H; apply between_lt; reflexivity.
Qed.

Lemma isSpace_lt x : isSpace x = true -> (x < 128)%N.
Proof. unfold isSpace. intros H. apply N.eqb_eq in H. subst. reflexivity. Qed.

Lemma isModeChar_lt x : isModeChar x = true -> (x < 128)%N.
Proof.
  unfold isModeChar. intros H.
  apply orb_true_iff in H as [H|H]; apply N.eqb_eq in H; subst; reflexivity.
Qed.

(** The tail of a decoding is the decoding of its bytes. *)
Lemma decodeRunes_suffix (s : string) (l1 l2 : input) :
  decodeRunes s = (l1 ++ l2)%list -> decodeRunes (bytesOf l2) = l2.
Proof.
  revert l1. induction s as [|s r w rest Hd IH] using rune_ind; intros l1 H.
  - simpl in H. symmetry in H. apply app_eq_nil in H as [_ ->]. reflexivity.
  - destruct l1 as [|y l1].
    + simpl in H. subst l2. now rewrite bytesOf_decodeRunes.
    + rewrite decodeRunes_step, Hd in H. simpl in H. injection H as _ H.
      exact (IH l1 H).
Qed.

Lemma decodeRune_alone (s : string) r w rest :
  decodeRune s = Some (r, w, rest) -> decodeRune w = Some (r, w, EmptyString).
Proof.
  destruct s as [|b0 s1]; [discriminate|].
  unfold decodeRune at 1. cbv zeta.
  intros H. injection H as H. revert H.
  split_decode; intros H; injection H as <- <- <-;
    unfold decodeRune, str4, str3, str2, str1; cbv zeta;
    repeat match goal with
           | H : ?b = _ |- context [?b] => rewrite H
           end; reflexivity.
Qed.

(** An element of a decoding is, alone, the decoding of its own bytes. *)
Lemma decodeRunes_element (s : string) (l1 l2 : input) x w :
  decodeRunes s = (l1 ++ (x, w) :: l2)%list -> decodeRunes w = [(x, w)].
Proof.
  intros H. apply decodeRunes_suffix in H.
  rewrite decodeRunes_step in H. simpl bytesOf in H.
  destruct (decodeRune (w ++ bytesOf l2)) as [[[r' w'] rest]|] eqn:Hd;
    [|discriminate].
  injection H as -> -> _.
  apply decodeRune_alone in Hd.
  rewrite decodeRunes_step, Hd. reflexivity.
Qed.

Lemma consumed_cons1 (x : rune * string) (l : input) :
  consumed (x :: l) l = bytesOf [x].
Proof. exact (consumed_app [x] l). Qed.

Lemma consumed_cons3 (x y z : rune * string) (l : input) :
  consumed (x :: y :: z :: l) l = bytesOf [x; y; z].
Proof. exact (consumed_app [x; y; z] l). Qed.

Lemma hex_not_space x : isHex x = true -> isSpace x = false.
Proof.
  unfold isHex, isSpace, between. intros H. apply N.eqb_neq. intros ->.
  vm_compute in H. discriminate.
Qed.

Lemma isDigitByte_isDigit (c : ascii) : isDigitByte c = isDigit (byteVal c).
Proof. reflexivity. Qed.

(** What a match of [tagRegexp] says about the line and the submatches. *)
Lemma tag_exec_inv line c :
  exec tagRegexp line = Some c ->
  exists d f sp1 sp2 h x,
    line = "SHA3-" ++ d ++ " (" ++ f ++ ")" ++ sp1 ++ "=" ++ sp2 ++ h
    /\ String.length d = 3 /\ allb isDigitByte d = true
    /\ decodeRunes f = [(x, f)] /\ notRParen x = true
    /\ allb isSpaceByte sp1 = true /\ allb isSpaceByte sp2 = true
    /\ allb isHexByte h = true /\ 0 < String.length h
    /\ c 1 = d /\ c 2 = f /\ c 3 = h.
Proof.
  unfold exec, tagRegexp. cbn [pattern].
  pose proof (decodeRunes_stepOK line) as Hok.
  pose proof (bytesOf_decodeRunes line) as Hby.
  assert (Hel : forall l1 x w l2,
             decodeRunes line = (l1 ++ (x, w) :: l2)%list ->
             decodeRunes w = [(x, w)])
    by (intros; eapply decodeRunes_element; eassumption).
  remember (decodeRunes line) as s0 eqn:Hs0. clear Hs0.
  intros H. cbn [lits run] in H.
  do 12 eat H.
  apply starCls_inv in H as (sp1 & t1 & -> & Hsp1 & H). cbv beta in H.
  eat H.
  apply starCls_inv in H as (sp2 & t2 & -> & Hsp2 & H). cbv beta in H.
  eat H.
  apply starCls_inv in H as (hs & t3 & -> & Hhs & H). cbv beta in H.
  destruct t3; [|discriminate H]. injection H as <-.
  rewrite app_nil_r in *.
  specialize (Hel [(r, s); (r0, s0); (r1, s1); (r2, s2); (r3, s3); (r4, s4);
                   (r5, s5); (r6, s6); (r7, s7); (r8, s8)] r9 s9 _ eq_refl).
  repeat match goal with
         | H : Forall stepOK (_ :: _) |- _ =>
           let H1 := fresh "K" in let H2 := fresh "Hok" in
           inversion H as [|? ? H1 H2]; subst; clear H; rename H2 into Hok
         end.
  apply Forall_app in Hok as [Ksp1 Hok].
  inversion Hok as [|? ? Keq Hok']; subst; clear Hok.
  apply Forall_app in Hok' as [Ksp2 Hok].
  inversion Hok as [|? ? Khx Khs]; subst; clear Hok.
  repeat match goal with
         | K : stepOK (?x, ?w), E : (?x =? byteVal ?a)%N = true |- _ =>
           pose proof (stepOK_lit x w a K E eq_refl); subst w; clear K
         end.
  destruct (stepOK_class isDigit _ _ isDigit_lt K4 E4) as (c4 & -> & ->).
  destruct (stepOK_class isDigit _ _ isDigit_lt K5 E5) as (c5 & -> & ->).
  destruct (stepOK_class isDigit _ _ isDigit_lt K6 E6) as (c6 & -> & ->).
  destruct (stepOK_class isHex _ _ isHex_lt Khx E12) as (ch & -> & ->).
  destruct (bytesOf_class_run isSpace sp1 isSpace_lt Ksp1 Hsp1) as [A1 _].
  destruct (bytesOf_class_run isSpace sp2 isSpace_lt Ksp2 Hsp2) as [A2 _].
  destruct (bytesOf_class_run isHex hs isHex_lt Khs Hhs) as [A3 _].
  exists (str3 c4 c5 c6), s9, (bytesOf sp1), (bytesOf sp2),
    (String ch (bytesOf hs)), r9.
  repeat split; try assumption.
  - simpl. rewrite !bytesOf_app. simpl.
    rewrite !bytesOf_app. reflexivity.
  - simpl. rewrite !isDigitByte_isDigit. now rewrite E4, E5, E6.
  - simpl. unfold isHexByte at 1. now rewrite E12.
  - simpl. lia.
  - unfold setCap. simpl. now rewrite consumed_cons3.
  - unfold setCap. simpl. rewrite consumed_cons1. simpl.
    apply append_nil_r.
  - unfold setCap. simpl. rewrite consumed_all. reflexivity.
Qed.

End TagFacts.

Module ParseFacts.
Import GoString Regexp GoLib Preds StringFacts RegexpFacts TagFacts Sha3sum.

Lemma digit_range (c : ascii) :
  isDigitByte c = true -> (0 <= Z.of_N (byteVal c) - 48 <= 9)%Z.
Proof.
  unfold isDigitByte, inRange. intros H.
  apply andb_true_iff in H as [H1 H2].
  apply N.leb_le in H1. apply N.leb_le in H2. lia.
Qed.

Lemma digit_not_sign (c : ascii) :
  isDigitByte c = true -> c <> "+"%char /\ c <> "-"%char.
Proof. intros H. split; intros ->; vm_compute in H; discriminate. Qed.

(** [strconv.Atoi] on three decimal digits. *)
Lemma Atoi_digits3 (d : string) :
  String.length d = 3 -> allb isDigitByte d = true ->
  Atoi d = (digitsVal 0 d, None) /\ (0 <= digitsVal 0 d <= 999)%Z.
Proof.
  intros Hl Hd.
  destruct d as [|a [|b [|c [|? ?]]]]; try discriminate Hl.
  simpl in Hd.
  apply andb_true_iff in Hd as [Ha Hd].
  apply andb_true_iff in Hd as [Hb Hd].
  apply andb_true_iff in Hd as [Hc _].
  pose proof (digit_range a Ha). pose proof (digit_range b Hb).
  pose proof (digit_range c Hc).
  assert (Hv : (0 <= digitsVal 0 (String a (String b (String c EmptyString))) <= 999)%Z)
    by (simpl; lia).
  split; [|exact Hv].
  destruct (digit_not_sign a Ha) as [Hp Hm].
  unfold Atoi.
  assert (Hbody :
    (if negb (allb isDigitByte (String a (String b (String c EmptyString))))
        || (String.length (String a (String b (String c EmptyString))) =? 0)%nat
     then (0%Z, Some (syntaxError (String a (String b (String c EmptyString)))))
     else
       let v := digitsVal 0 (String a (String b (String c EmptyString))) in
       let v' := if false then (- v)%Z else v in
       if ((- 2 ^ 63 <=? v') && (v' <? 2 ^ 63))%Z
       then (v', None)
       else ((if false then - 2 ^ 63 else 2 ^ 63 - 1)%Z,
             Some (rangeError (String a (String b (String c EmptyString))))))
    = (digitsVal 0 (String a (String b (String c EmptyString))), None)).
  { cbn [allb String.length Nat.eqb]. rewrite Ha, Hb, Hc. cbn [andb negb orb].
    cbv zeta.
    replace ((- 2 ^ 63 <=? _) && (_ <? 2 ^ 63))%Z with true; [reflexivity|].
    symmetry. apply andb_true_iff. split.
    - apply Z.leb_le. lia.
    - apply Z.ltb_lt. lia. }
  destruct a as [[] [] [] [] [] [] [] []]; try exact Hbody;
    try (exfalso; apply Hp; reflexivity); exfalso; apply Hm; reflexivity.
Qed.

Lemma validAlgorithm_spec (a : Z) :
  validAlgorithm a = true <-> In a [224; 256; 384; 512]%Z.
Proof.
  unfold validAlgorithm. split.
  - destruct (a =? 224)%Z eqn:E1; [apply Z.eqb_eq in E1; simpl; auto|].
    destruct (a =? 256)%Z eqn:E2; [apply Z.eqb_eq in E2; simpl; auto|].
    destruct (a =? 384)%Z eqn:E3; [apply Z.eqb_eq in E3; simpl; auto|].
    destruct (a =? 512)%Z eqn:E4; [apply Z.eqb_eq in E4; simpl; auto|].
    discriminate.
  - simpl. intros [<-|[<-|[<-|[<-|[]]]]]; reflexivity.
Qed.

(** What a successful [parseTagHash] went through. *)
Lemma parseTagHash_ok (line : string) :
  err (parseTagHash line) = None ->
  exists c, exec tagRegexp line = Some c
    /\ Atoi (c 1) = (algorithm (parseTagHash line), None)
    /\ validAlgorithm (algorithm (parseTagHash line)) = true
    /\ fname (parseTagHash line) = c 2
    /\ String.length (c 2) <> 0
    /\ hash (parseTagHash line) = c 3
    /\ Z.of_nat (String.length (c 3))
       = Z.quot (algorithm (parseTagHash line)) 4
    /\ portable (parseTagHash line) = false
    /\ binary (parseTagHash line) = false.
Proof.
  unfold parseTagHash, MatchString, FindStringSubmatch.
  destruct (exec tagRegexp line) as [c|] eqn:He; [|discriminate].
  cbn [negb ngroups tagRegexp seq map List.length Nat.eqb nth].
  destruct (Atoi (c 1)) as [a [e|]] eqn:Ha; [discriminate|].
  cbn [algorithm withErr withAlgorithm zeroParse].
  destruct (validAlgorithm a) eqn:Hv;
    cbn [negb hash fname algorithm portable binary err
         withErr withAlgorithm withFname withHash zeroParse];
    [|discriminate].
  destruct (String.length (c 2) =? 0)%nat eqn:Hf;
    cbn [negb hash fname algorithm portable binary err
         withErr withAlgorithm withFname withHash zeroParse];
    [discriminate|].
  destruct (Z.of_nat (String.length (c 3%nat)) =? Z.quot a 4)%Z eqn:Hh;
    cbn [negb hash fname algorithm portable binary err
         withErr withAlgorithm withFname withHash zeroParse];
    [|discriminate].
  intros _. exists c. repeat split; try reflexivity; try assumption.
  - now apply Nat.eqb_neq.
  - now apply Z.eqb_eq.
Qed.

End ParseFacts.

Module NormalFacts.
Import GoString Regexp GoLib Preds StringFacts RegexpFacts TagFacts ParseFacts Sha3sum.

(** The bytes of a run of runes other than line feed. *)
Lemma bytesOf_dot_run (pre : input) :
  Forall stepOK pre -> Forall (holds dot) pre ->
  allb notNL (bytesOf pre) = true.
Proof.
  induction pre as [|[x w] pre IH]; intros Hok Hd; [reflexivity|].
  inversion Hok as [|? ? [_ H1] H2]; subst.
  inversion Hd as [|? ? H3 H4]; subst.
  simpl. rewrite allb_append, (IH H2 H4), andb_true_r.
  unfold holds in H3. simpl in H1, H3.
  destruct H1 as [(c & -> & -> & _)|[_ Hh]].
  - simpl. rewrite andb_true_r. exact H3.
  - revert Hh. apply allb_impl. intros c Hc. unfold isHigh in Hc.
    unfold notNL. apply N.leb_le in Hc. apply negb_true_iff, N.eqb_neq. lia.
Qed.

Lemma bytesOf_nonempty (x : rune * string) (pre : input) :
  stepOK x -> 0 < String.length (bytesOf (x :: pre)).
Proof.
  destruct x as [r w]. intros [H _]. simpl in *. rewrite length_append. lia.
Qed.

(** What a match of [normalRegexp] says about the line and the
    submatches. *)
Lemma normal_exec_inv line c :
  exec normalRegexp line = Some c ->
  exists h sp m f,
    line = h ++ " " ++ sp ++ m ++ f
    /\ allb isHexByte h = true /\ 0 < String.length h
    /\ allb isSpaceByte sp = true
    /\ (m = EmptyString \/ m = "*" \/ m = "?")
    /\ 0 < String.length f /\ allb notNL f = true
    /\ c 1 = h /\ c 2 = m /\ c 3 = f.
Proof.
  unfold exec, normalRegexp. cbn [pattern].
  pose proof (decodeRunes_stepOK line) as Hok.
  pose proof (bytesOf_decodeRunes line) as Hby.
  remember (decodeRunes line) as s0 eqn:Hs0. clear Hs0.
  intros H. cbn [run] in H.
  eat H.
  apply starCls_inv in H as (hs & t1 & -> & Hhs & H). cbv beta in H.
  eat H.
  apply starCls_inv in H as (sp & t2 & -> & Hsp & H). cbv beta in H.
  inversion Hok as [|? ? Khx Hok1]; subst; clear Hok.
  apply Forall_app in Hok1 as [Khs Hok].
  inversion Hok as [|? ? Ks1 Hok1]; subst; clear Hok.
  apply Forall_app in Hok1 as [Ksp Hok].
  destruct (stepOK_class isHex _ _ isHex_lt Khx E) as (ch & -> & ->).
  pose proof (stepOK_lit _ _ " "%char Ks1 E0 eq_refl) as ->.
  destruct (bytesOf_class_run isHex hs isHex_lt Khs Hhs) as [A1 _].
  destruct (bytesOf_class_run isSpace sp isSpace_lt Ksp Hsp) as [A2 _].
  assert (C1 : forall X Y,
             consumed ((byteVal ch, str1 ch) :: hs ++ X)%list Y
             = consumed (((byteVal ch, str1 ch) :: hs) ++ X)%list Y)
    by reflexivity.
  match type of H with
  | match ?A with Some _ => _ | None => _ end = _ =>
    destruct A as [res|] eqn:HA
  end.
  - injection H as ->.
    eat_as HA xm wm tm Em. eat_as HA xf wf tf Ef.
    apply starCls_inv in HA as (fs & t3 & -> & Hfs & HA). cbv beta in HA.
    destruct t3; [|discriminate HA]. injection HA as <-.
    rewrite app_nil_r in *.
    inversion Hok as [|? ? Km Hok1]; subst; clear Hok.
    destruct (stepOK_class isModeChar _ _ isModeChar_lt Km Em) as (cm & -> & ->).
    exists (String ch (bytesOf hs)), (bytesOf sp), (str1 cm),
      (bytesOf ((xf, wf) :: fs)).
    repeat split.
    + simpl. rewrite !bytesOf_app. simpl. rewrite !bytesOf_app.
      reflexivity.
    + simpl. unfold isHexByte at 1. now rewrite E.
    + simpl. lia.
    + exact A2.
    + right. unfold isModeChar in Em. apply orb_true_iff in Em as [Em|Em];
        apply N.eqb_eq, byteVal_inj in Em; subst cm; auto.
    + inversion Hok1; subst. now apply bytesOf_nonempty.
    + apply bytesOf_dot_run; [exact Hok1|].
      constructor; [exact Ef | exact Hfs].
    + unfold setCap. simpl. rewrite C1, consumed_app. reflexivity.
    + unfold setCap. simpl. rewrite consumed_cons1. reflexivity.
    + unfold setCap. simpl. rewrite consumed_all. reflexivity.
  - clear HA. eat_as H xf wf tf Ef.
    apply starCls_inv in H as (fs & t3 & -> & Hfs & H). cbv beta in H.
    destruct t3; [|discriminate H]. injection H as <-.
    rewrite app_nil_r in *.
    exists (String ch (bytesOf hs)), (bytesOf sp), EmptyString,
      (bytesOf ((xf, wf) :: fs)).
    repeat split.
    + simpl. rewrite !bytesOf_app. simpl. rewrite !bytesOf_app.
      reflexivity.
    + simpl. unfold isHexByte at 1. now rewrite E.
    + simpl. lia.
    + exact A2.
    + now left.
    + inversion Hok; subst. now apply bytesOf_nonempty.
    + apply bytesOf_dot_run; [exact Hok|].
      constructor; [exact Ef | exact Hfs].
    + unfold setCap. simpl. rewrite C1, consumed_app. reflexivity.
    + unfold setCap. simpl. rewrite consumed_all. reflexivity.
Qed.

(** The longest prefix in a class is unique. *)
Lemma prefix_unique (p : ascii -> bool) (a a' b b' : string) :
  allb p a = true -> allb p a' = true -> startsNot p b -> startsNot p b' ->
  a ++ b = a' ++ b' -> a = a' /\ b = b'.
Proof.
  revert a'. induction a as [|x a IH]; intros [|x' a'] Ha Ha' Hb Hb' H;
    simpl in *.
  - now split.
  - subst b. simpl in Hb. apply andb_true_iff in Ha' as [Hx _]. congruence.
  - subst b'. simpl in Hb'. apply andb_true_iff in Ha as [Hx _]. congruence.
  - injection H as -> H.
    apply andb_true_iff in Ha as [_ Ha]. apply andb_true_iff in Ha' as [_ Ha'].
    destruct (IH a' Ha Ha' Hb Hb' H) as [-> ->]. now split.
Qed.

Lemma asciiRunes_cons (c : ascii) (s : string) :
  asciiRunes (String c s) = (byteVal c, str1 c) :: asciiRunes s.
Proof. reflexivity. Qed.

Lemma isHexByte_ascii (c : ascii) : isHexByte c = true -> isAscii c = true.
Proof. intros H. apply N.ltb_lt. now apply isHex_lt. Qed.

Lemma isSpaceByte_ascii (c : ascii) : isSpaceByte c = true -> isAscii c = true.
Proof. intros H. apply N.ltb_lt. now apply isSpace_lt. Qed.

(** The first rune of a string, seen through a class of ASCII
    characters. *)
Lemma decodeRunes_head (f : string) :
  0 < String.length f ->
  exists x w rest, decodeRunes f = (x, w) :: rest
    /\ forall p : rune -> bool,
         (forall y, p y = true -> (y < 128)%N) ->
         startsNot (fun c => p (byteVal c)) f -> p x = false.
Proof.
  intros Hl. rewrite decodeRunes_step.
  destruct (decodeRune f) as [[[x w] rest]|] eqn:Hd.
  - exists x, w, (decodeRunes rest). split; [reflexivity|].
    intros p Hp Hs.
    destruct (decodeRune_split f x w rest Hd) as [-> _].
    destruct (decodeRune_kind _ x w rest Hd) as [(c & -> & -> & _)|[Hge _]].
    + exact Hs.
    + destruct (p x) eqn:Hpx; [|reflexivity]. apply Hp in Hpx. lia.
  - destruct f; [simpl in Hl; lia | discriminate].
Qed.

(** The last group of both plain patterns takes a whole string without
    line feed. *)
Lemma dot_plus_all (f : string) :
  0 < String.length f -> allb notNL f = true ->
  exists x w rest, decodeRunes f = (x, w) :: rest /\ dot x = true
    /\ forall c k r, k [] c = Some r -> starCls dot rest c k = Some r.
Proof.
  intros Hl Hn. pose proof (decodeRunes_dot f Hn) as Hd.
  destruct (decodeRunes f) as [|[x w] rest] eqn:Hf.
  - pose proof (bytesOf_decodeRunes f) as Hb. rewrite Hf in Hb.
    simpl in Hb. subst f. simpl in Hl. lia.
  - exists x, w, rest. inversion Hd as [|? ? Hx Hr]; subst.
    repeat split; [exact Hx|].
    intros c k r Hk. rewrite <- (app_nil_r rest).
    now apply starCls_greedy.
Qed.

Lemma decodeRunes_line (h sp rest : string) :
  allb isHexByte h = true -> allb isSpaceByte sp = true ->
  decodeRunes (h ++ sp ++ rest)
  = (asciiRunes h ++ asciiRunes sp ++ decodeRunes rest)%list.
Proof.
  intros Hh Hs.
  rewrite decodeRunes_ascii_prefix
    by (revert Hh; apply allb_impl, isHexByte_ascii).
  rewrite decodeRunes_ascii_prefix
    by (revert Hs; apply allb_impl, isSpaceByte_ascii).
  reflexivity.
Qed.

(** Every line made of hex digits, one or more spaces and a non-empty
    rest without line feed matches [normalRegexp]. *)
Lemma normal_exec_complete (h sp f : string) :
  allb isHexByte h = true -> 0 < String.length h ->
  allb isSpaceByte sp = true ->
  0 < String.length f -> allb notNL f = true ->
  exec normalRegexp (h ++ String " " sp ++ f) <> None.
Proof.
  intros Hh Hl Hs Hf Hn.
  destruct h as [|ch h]; [simpl in Hl; lia|].
  simpl in Hh. apply andb_true_iff in Hh as [Hch Hh].
  unfold exec.
  change (String ch h ++ String " " sp ++ f)
    with (String ch h ++ String " " sp ++ f).
  rewrite (decodeRunes_line (String ch h) (String " " sp) f)
    by (simpl; rewrite ?Hch, ?Hh, ?Hs; reflexivity).
  rewrite !asciiRunes_cons. cbn [pattern normalRegexp run app].
  unfold isHexByte in Hch. rewrite Hch.
  apply starCls_complete; [now apply Forall_asciiRunes|].
  cbn [isSpace]. change (isSpace (byteVal " ")) with true. cbv iota.
  apply starCls_complete; [now apply Forall_asciiRunes|].
  destruct (dot_plus_all f Hf Hn) as (x & w & rest & -> & Hx & Hall).
  rewrite Hx.
  match goal with
  | |- match ?A with Some _ => _ | None => _ end <> None => destruct A
  end; [discriminate|].
  erewrite Hall; [discriminate | reflexivity].
Qed.

Lemma isModeChar_ascii (c : ascii) :
  isModeChar (byteVal c) = true -> isAscii c = true.
Proof. intros H. apply N.ltb_lt. now apply isModeChar_lt. Qed.

Lemma modeChar_not_space (c : ascii) :
  isModeChar (byteVal c) = true -> isSpace (byteVal c) = false.
Proof.
  unfold isModeChar, isSpace. intros H.
  apply orb_true_iff in H as [H|H]; apply N.eqb_eq in H; rewrite H;
    reflexivity.
Qed.

(** The submatches of a line written with two spaces and a file name that
    cannot be taken for more spaces or for a mode character. *)
Lemma normal_exec_plain (h f : string) :
  allb isHexByte h = true -> 0 < String.length h ->
  0 < String.length f -> allb notNL f = true ->
  startsNot (fun c => isSpace (byteVal c)) f ->
  startsNot (fun c => isModeChar (byteVal c)) f ->
  exists c, exec normalRegexp (h ++ "  " ++ f) = Some c
            /\ c 1 = h /\ c 2 = EmptyString /\ c 3 = f.
Proof.
  intros Hh Hl Hf Hn Hsp Hmc.
  destruct h as [|ch h]; [simpl in Hl; lia|].
  assert (Hh' := Hh). simpl in Hh'. apply andb_true_iff in Hh' as [Hch Hh'].
  unfold isHexByte in Hch.
  destruct (dot_plus_all f Hf Hn) as (x & w & rest & Hdf & Hx & Hall).
  destruct (decodeRunes_head f Hf) as (x' & w' & rest' & Hdf' & Hhead).
  rewrite Hdf in Hdf'. injection Hdf' as <- <- <-.
  pose proof (bytesOf_decodeRunes f) as Hbf.
  unfold exec.
  assert (Hdec : decodeRunes (String ch h ++ "  " ++ f)
                 = (((byteVal ch, str1 ch) :: asciiRunes h)
                    ++ (byteVal " ", str1 " ")
                    :: ([(byteVal " ", str1 " ")] ++ decodeRunes f))%list)
    by (now rewrite (decodeRunes_line (String ch h) "  " f Hh eq_refl)).
  rewrite Hdec. cbn [pattern normalRegexp run].
  change (((byteVal ch, str1 ch) :: asciiRunes h) ++ ?X)%list
    with ((byteVal ch, str1 ch) :: (asciiRunes h ++ X))%list.
  cbv iota beta. rewrite Hch.
  eexists. split.
  - apply starCls_greedy;
      [now apply Forall_asciiRunes | reflexivity |].
    cbv iota beta. change (isSpace (byteVal " ")) with true. cbv iota.
    apply starCls_greedy; [repeat constructor | |].
    + rewrite Hdf. exact (Hhead isSpace isSpace_lt Hsp).
    + rewrite Hdf. rewrite (Hhead isModeChar isModeChar_lt Hmc).
      rewrite Hx. apply Hall. reflexivity.
  - unfold setCap. simpl. repeat split.
    + change ((byteVal ch, str1 ch)
              :: asciiRunes h ++ ?X)%list
        with (((byteVal ch, str1 ch) :: asciiRunes h) ++ X)%list.
      rewrite consumed_app. simpl. now rewrite bytesOf_asciiRunes.
    + rewrite consumed_all, <- Hdf. exact Hbf.
Qed.

(** The submatches of a line written with two spaces, a mode character and
    a file name. *)
Lemma normal_exec_mode (h f : string) (cm : ascii) :
  allb isHexByte h = true -> 0 < String.length h ->
  isModeChar (byteVal cm) = true ->
  0 < String.length f -> allb notNL f = true ->
  exists c, exec normalRegexp (h ++ "  " ++ String cm f) = Some c
            /\ c 1 = h /\ c 2 = str1 cm /\ c 3 = f.
Proof.
  intros Hh Hl Hcm Hf Hn.
  destruct h as [|ch h]; [simpl in Hl; lia|].
  assert (Hh' := Hh). simpl in Hh'. apply andb_true_iff in Hh' as [Hch Hh'].
  unfold isHexByte in Hch.
  destruct (dot_plus_all f Hf Hn) as (x & w & rest & Hdf & Hx & Hall).
  pose proof (bytesOf_decodeRunes f) as Hbf.
  unfold exec.
  assert (Hdec : decodeRunes (String ch h ++ "  " ++ String cm f)
                 = (((byteVal ch, str1 ch) :: asciiRunes h)
                    ++ (byteVal " ", str1 " ")
                    :: ([(byteVal " ", str1 " ")]
                        ++ (byteVal cm, str1 cm) :: decodeRunes f))%list).
  { rewrite (decodeRunes_line (String ch h) "  " (String cm f) Hh eq_refl).
    now rewrite (decodeRunes_ascii_cons cm f (isModeChar_ascii cm Hcm)). }
  rewrite Hdec. cbn [pattern normalRegexp run].
  change (((byteVal ch, str1 ch) :: asciiRunes h) ++ ?X)%list
    with ((byteVal ch, str1 ch) :: (asciiRunes h ++ X))%list.
  cbv iota beta. rewrite Hch.
  eexists. split.
  - apply starCls_greedy;
      [now apply Forall_asciiRunes | reflexivity |].
    cbv iota beta. change (isSpace (byteVal " ")) with true. cbv iota.
    apply starCls_greedy; [repeat constructor | |].
    + exact (modeChar_not_space cm Hcm).
    + rewrite Hcm. rewrite Hdf, Hx. erewrite Hall; reflexivity.
  - unfold setCap. simpl. repeat split.
    + change ((byteVal ch, str1 ch)
              :: asciiRunes h ++ ?X)%list
        with (((byteVal ch, str1 ch) :: asciiRunes h) ++ X)%list.
      rewrite consumed_app. simpl. now rewrite bytesOf_asciiRunes.
    + rewrite consumed_cons1. reflexivity.
    + rewrite consumed_all, <- Hdf. exact Hbf.
Qed.

End NormalFacts.

Module GrammarFacts.
Import GoString Regexp GoLib Proc Preds.
Import StringFacts RegexpFacts TagFacts ParseFacts NormalFacts Sha3sum.

(** [parseNormalHash] as a function of the submatches. *)
Lemma parseNormalHash_exec (line : string) (c : caps) :
  exec normalRegexp line = Some c ->
  parseNormalHash line =
  let hashlen := Z.of_nat (String.length (c 1)) in
  if ((hashlen =? 56) || (hashlen =? 64) || (hashlen =? 96)
      || (hashlen =? 128))%Z
  then mkParse (c 1) (c 3) (hashlen * 4)%Z (c 2 =? "?")%string
               (c 2 =? "*")%string
               (if (String.length (c 3) =? 0)%nat
                then Some "bad filename" else None)
  else mkParse (c 1) EmptyString 0 false false (Some "bad hash").
Proof.
  intros He. unfold parseNormalHash, MatchString, FindStringSubmatch.
  rewrite He.
  cbn [negb ngroups normalRegexp seq map List.length Nat.eqb nth].
  cbn [hash withHash zeroParse]. cbv zeta.
  change (Z.quot 224 4) with 56%Z. change (Z.quot 256 4) with 64%Z.
  change (Z.quot 384 4) with 96%Z. change (Z.quot 512 4) with 128%Z.
  destruct ((Z.of_nat (String.length (c 1%nat)) =? 56)
            || (Z.of_nat (String.length (c 1%nat)) =? 64)
            || (Z.of_nat (String.length (c 1%nat)) =? 96)
            || (Z.of_nat (String.length (c 1%nat)) =? 128))%Z; [|reflexivity].
  cbn [fname withFname withBinary withPortable withAlgorithm withHash
       hash algorithm portable binary err zeroParse].
  destruct (String.length (c 3) =? 0)%nat; reflexivity.
Qed.

Lemma parseNormalHash_nomatch (line : string) :
  exec normalRegexp line = None ->
  parseNormalHash line = mkParse EmptyString EmptyString 0 false false (Some "bad checksum line").
Proof.
  intros He. unfold parseNormalHash, MatchString. now rewrite He.
Qed.

(** Splitting at the last occurrence of a byte. *)
Lemma split_last (c : ascii) (x y x' y' : string) :
  allb (fun a => negb (a =? c)%char) y = true ->
  allb (fun a => negb (a =? c)%char) y' = true ->
  x ++ String c y = x' ++ String c y' -> x = x' /\ y = y'.
Proof.
  intros Hy Hy'. revert x'.
  assert (Hno : forall u v, allb (fun a => negb (a =? c)%char)
                                 (u ++ String c v) = false).
  { intros u v. rewrite allb_append. simpl. rewrite Ascii.eqb_refl. simpl.
    apply andb_false_r. }
  induction x as [|a x IH]; intros [|a' x'] H; simpl in H.
  - injection H as ->. now split.
  - injection H as -> ->. rewrite Hno in Hy. discriminate.
  - injection H as -> <-. rewrite Hno in Hy'. discriminate.
  - injection H as -> H. destruct (IH x' H) as [-> ->]. now split.
Qed.

Lemma append_length_inj (a a' b b' : string) :
  String.length a = String.length a' -> a ++ b = a' ++ b' ->
  a = a' /\ b = b'.
Proof.
  revert a'. induction a as [|x a IH]; intros [|x' a'] Hl H;
    simpl in *; try discriminate.
  - now split.
  - injection Hl as Hl. injection H as -> H.
    destruct (IH a' Hl H) as [-> ->]. now split.
Qed.

Lemma hex_no_byte (c : ascii) (h : string) :
  isHexByte c = false -> allb isHexByte h = true ->
  allb (fun a => negb (a =? c)%char) h = true.
Proof.
  intros Hc. apply allb_impl. intros a Ha.
  apply negb_true_iff. apply Ascii.eqb_neq. intros ->. congruence.
Qed.

Lemma space_no_byte (c : ascii) (h : string) :
  isSpaceByte c = false -> allb isSpaceByte h = true ->
  allb (fun a => negb (a =? c)%char) h = true.
Proof.
  intros Hc. apply allb_impl. intros a Ha.
  apply negb_true_iff. apply Ascii.eqb_neq. intros ->. congruence.
Qed.

Lemma hex_startsNot_space (h : string) :
  allb isHexByte h = true -> startsNot isSpaceByte h.
Proof.
  destruct h as [|c h]; simpl; [trivial|]. intros H.
  apply andb_true_iff in H as [H _]. now apply hex_not_space.
Qed.

Lemma fmtD_width (w : Z) :
  In w widths ->
  String.length (fmtD w) = 3 /\ Atoi (fmtD w) = (w, None).
Proof.
  unfold widths. simpl. intros [<-|[<-|[<-|[<-|[]]]]]; now vm_compute.
Qed.

End GrammarFacts.

Import GoString Regexp GoLib Proc Preds.
Import StringFacts RegexpFacts TagFacts ParseFacts NormalFacts GrammarFacts.

(* ================================================================== *)
(** * The line grammar (claims C2, C3, C4) *)
(* ================================================================== *)

(** C4.  Tagged-grammar parsing of a line succeeds only when the line has
    the tagged shape, the width it declares is one of 224, 256, 384 and
    512, its hex digest has exactly a quarter of the width in characters
    and its file name is not empty; the entry returned carries that width,
    file name and digest.  Every other line yields a parse error. *)
Theorem parseTagHash_success_only_for_valid_entry (line : string) :
  Sha3sum.err (Sha3sum.parseTagHash line) = None ->
  exists d f sp1 sp2 h,
    line = "SHA3-" ++ d ++ " (" ++ f ++ ")" ++ sp1 ++ "=" ++ sp2 ++ h
    /\ String.length d = 3 /\ allb isDigitByte d = true
    /\ allb isSpaceByte sp1 = true /\ allb isSpaceByte sp2 = true
    /\ allb isHexByte h = true
    /\ Sha3sum.algorithm (Sha3sum.parseTagHash line) = digitsVal 0 d
    /\ Sha3sum.fname (Sha3sum.parseTagHash line) = f
    /\ Sha3sum.hash (Sha3sum.parseTagHash line) = h
    /\ In (digitsVal 0 d) widths
    /\ Z.of_nat (String.length h) = (digitsVal 0 d / 4)%Z
    /\ f <> EmptyString.
Proof.
  intros Hok.
  destruct (parseTagHash_ok line Hok)
    as (c & He & Ha & Hv & Hf & Hfl & Hh & Hhl & _ & _).
  destruct (tag_exec_inv line c He)
    as (d & f & sp1 & sp2 & h & x & Hline & Hd3 & Hdd & _ & _ & Hs1 & Hs2
        & Hhx & _ & C1 & C2 & C3).
  destruct (Atoi_digits3 d Hd3 Hdd) as [Hatoi Hrange].
  rewrite C1, Hatoi in Ha. injection Ha as Ha.
  exists d, f, sp1, sp2, h.
  rewrite <- Ha in *. rewrite C2 in *. rewrite C3 in *.
  repeat split; try assumption.
  - now apply validAlgorithm_spec.
  - rewrite Hhl. apply Z.quot_div_nonneg; lia.
  - intros ->. now apply Hfl.
Qed.

Lemma parseTagHash_success_only_for_valid_entry_witness :
  Sha3sum.err (Sha3sum.parseTagHash
                 ("SHA3-224 (f) = " ++ replicate 56 "a"%char)) = None
  /\ exists d f sp1 sp2 h,
      "SHA3-224 (f) = " ++ replicate 56 "a"%char
      = "SHA3-" ++ d ++ " (" ++ f ++ ")" ++ sp1 ++ "=" ++ sp2 ++ h
      /\ In (digitsVal 0 d) widths
      /\ Z.of_nat (String.length h) = (digitsVal 0 d / 4)%Z
      /\ f <> EmptyString.
Proof.
  assert (H : Sha3sum.err (Sha3sum.parseTagHash
                 ("SHA3-224 (f) = " ++ replicate 56 "a"%char)) = None)
    by (vm_compute; reflexivity).
  split; [exact H|].
  destruct (parseTagHash_success_only_for_valid_entry _ H)
    as (d & f & sp1 & sp2 & h & A & _ & _ & _ & _ & _ & _ & _ & _ & B & C & D).
  exists d, f, sp1, sp2, h. repeat split; assumption.
Defined.

Lemma space_byte (c : ascii) : isSpaceByte c = true -> c = " "%char.
Proof.
  unfold isSpaceByte, isSpace. intros H. apply N.eqb_eq in H.
  now apply byteVal_inj.
Qed.

Lemma quarter_width (w : Z) (n : nat) :
  In w widths -> Z.of_nat n = (w / 4)%Z ->
  ((Z.of_nat n =? 56) || (Z.of_nat n =? 64) || (Z.of_nat n =? 96)
   || (Z.of_nat n =? 128))%Z = true
  /\ (Z.of_nat n * 4)%Z = w /\ 0 < n.
Proof.
  unfold widths. simpl. intros [<-|[<-|[<-|[<-|[]]]]] H;
    match type of H with
    | _ = ?e => let v := eval vm_compute in e in change e with v in H
    end;
    (repeat split; [rewrite H; reflexivity | rewrite H; reflexivity | lia]).
Qed.

(** The plain parser of [src/sha3sum.go] infers the width: a line made of
    [w/4] hex digits, two or more spaces and a non-empty file name without
    line feed parses, with that digest and the width [w]. *)
Lemma normal_line_infers_width (w : Z) (h sp f : string) :
  In w widths -> allb isHexByte h = true ->
  Z.of_nat (String.length h) = (w / 4)%Z ->
  allb isSpaceByte sp = true -> 2 <= String.length sp ->
  0 < String.length f -> allb notNL f = true ->
  Sha3sum.err (Sha3sum.parseNormalHash (h ++ sp ++ f)) = None
  /\ Sha3sum.algorithm (Sha3sum.parseNormalHash (h ++ sp ++ f)) = w
  /\ Sha3sum.hash (Sha3sum.parseNormalHash (h ++ sp ++ f)) = h.
Proof.
  intros Hw Hh Hlen Hsp Hsp2 Hf Hn.
  destruct (quarter_width w _ Hw Hlen) as (Hq & Hm & Hpos).
  destruct sp as [|s0 sp]; [simpl in Hsp2; lia|].
  simpl in Hsp. apply andb_true_iff in Hsp as [Hs0 Hsp].
  apply space_byte in Hs0. subst s0.
  pose proof (normal_exec_complete h sp f Hh Hpos Hsp Hf Hn) as Hex.
  destruct (exec Sha3sum.normalRegexp (h ++ String " " sp ++ f))
    as [c|] eqn:He; [clear Hex | now elim Hex].
  destruct (normal_exec_inv _ c He)
    as (h' & sp' & m & f' & Hline & Hh' & _ & _ & _ & Hf' & _ & C1 & _ & C3).
  destruct (prefix_unique isHexByte h h' (String " " sp ++ f)
              (" " ++ sp' ++ m ++ f') Hh Hh' eq_refl eq_refl Hline)
    as [<- _].
  rewrite (parseNormalHash_exec _ c He). cbv zeta.
  rewrite C1, C3, Hq.
  cbn [Sha3sum.err Sha3sum.algorithm Sha3sum.hash].
  destruct (String.length f' =? 0)%nat eqn:E;
    [apply Nat.eqb_eq in E; lia|].
  now repeat split.
Qed.

(** In [src/sha3sum.go] a line whose leading run of hex digits has a
    length other than 56, 64, 96 and 128 is a parse error. *)
Lemma normal_bad_length_is_error (h rest : string) :
  allb isHexByte h = true -> startsNot isHexByte rest ->
  ~ In (String.length h) [56; 64; 96; 128] ->
  Sha3sum.err (Sha3sum.parseNormalHash (h ++ rest)) <> None.
Proof.
  intros Hh Hrest Hnot Herr.
  destruct (exec Sha3sum.normalRegexp (h ++ rest)) as [c|] eqn:He.
  - destruct (normal_exec_inv _ c He)
      as (h' & sp' & m & f' & Hline & Hh' & _ & _ & _ & _ & _ & C1 & _ & _).
    destruct (prefix_unique isHexByte h h' rest (" " ++ sp' ++ m ++ f')
                Hh Hh' Hrest eq_refl Hline) as [<- _].
    rewrite (parseNormalHash_exec _ c He) in Herr. cbv zeta in Herr.
    rewrite C1 in Herr.
    destruct ((Z.of_nat (String.length h) =? 56)
              || (Z.of_nat (String.length h) =? 64)
              || (Z.of_nat (String.length h) =? 96)
              || (Z.of_nat (String.length h) =? 128))%Z eqn:Hq;
      [|discriminate Herr].
    apply Hnot. simpl.
    repeat (apply orb_true_iff in Hq as [Hq|Hq]);
      apply Z.eqb_eq in Hq; lia.
  - rewrite (parseNormalHash_nomatch _ He) in Herr. discriminate Herr.
Qed.

(** The plain parser of [src/unnamed/part_000] asks for four submatches of
    a pattern that has two groups, so it accepts no line at all. *)
Lemma part000_plain_grammar_never_parses (line : string) :
  Part000.err (Part000.parseNormalHash line) <> None.
Proof.
  unfold Part000.parseNormalHash.
  destruct (MatchString Part000.normalRegexp line); cbn [negb];
    [|discriminate].
  unfold FindStringSubmatch.
  destruct (exec Part000.normalRegexp line); discriminate.
Qed.

(** Every line made of hex digits, one or more spaces and a non-empty rest
    without line feed matches the pattern of [src/unnamed/part_000]. *)
Lemma part000_normal_exec_complete (h sp f : string) :
  allb isHexByte h = true -> 0 < String.length h ->
  allb isSpaceByte sp = true ->
  0 < String.length f -> allb notNL f = true ->
  exec Part000.normalRegexp (h ++ String " " sp ++ f) <> None.
Proof.
  intros Hh Hl Hs Hf Hn.
  destruct h as [|ch h]; [simpl in Hl; lia|].
  simpl in Hh. apply andb_true_iff in Hh as [Hch Hh].
  unfold exec.
  rewrite (decodeRunes_line (String ch h) (String " " sp) f)
    by (simpl; rewrite ?Hch, ?Hh, ?Hs; reflexivity).
  rewrite !asciiRunes_cons. cbn [pattern Part000.normalRegexp run app].
  unfold isHexByte in Hch. rewrite Hch.
  apply starCls_complete; [now apply Forall_asciiRunes|].
  cbn [isSpace]. change (isSpace (byteVal " ")) with true. cbv iota.
  apply starCls_complete; [now apply Forall_asciiRunes|].
  destruct (dot_plus_all f Hf Hn) as (x & w & rest & -> & Hx & Hall).
  rewrite Hx.
  erewrite Hall; [discriminate | reflexivity].
Qed.

(** So in [src/unnamed/part_000] a line of the plain grammar passes the
    pattern and is then refused for its number of submatches: the parser
    returns the error [bad line] and leaves digest, file name and width
    unset. *)
Lemma part000_plain_line_is_bad_line (h sp f : string) :
  allb isHexByte h = true -> 0 < String.length h ->
  allb isSpaceByte sp = true -> 0 < String.length sp ->
  0 < String.length f -> allb notNL f = true ->
  Part000.parseNormalHash (h ++ sp ++ f)
  = Part000.mkParse EmptyString EmptyString 0 (Some "bad line").
Proof.
  intros Hh Hl Hsp Hsp1 Hf Hn.
  destruct sp as [|s0 sp]; [simpl in Hsp1; lia|].
  simpl in Hsp. apply andb_true_iff in Hsp as [Hs0 Hsp].
  apply space_byte in Hs0. subst s0.
  pose proof (part000_normal_exec_complete h sp f Hh Hl Hsp Hf Hn) as Hex.
  unfold Part000.parseNormalHash, MatchString, FindStringSubmatch.
  destruct (exec Part000.normalRegexp (h ++ String " " sp ++ f))
    as [c|]; [reflexivity | now elim Hex].
Qed.

(** C3, what the code does.  On a line made of [w/4] hex digits, two or
    more spaces and a non-empty file name (without line feed, as every
    line that [readHashes] hands over), the plain parser of
    [src/sha3sum.go] succeeds with that digest and infers the width [w],
    while the plain parser of [src/unnamed/part_000] returns the error
    [bad line] with no digest, no file name and the width 0: its pattern
    has two groups and the parser asks for four submatches.  A leading
    run of hex digits whose length is not 56, 64, 96 or 128 is a parse
    error in both files. *)
Theorem plain_width_inference_by_source :
  (forall (w : Z) (h sp f : string),
      In w widths -> allb isHexByte h = true ->
      Z.of_nat (String.length h) = (w / 4)%Z ->
      allb isSpaceByte sp = true -> 2 <= String.length sp ->
      0 < String.length f -> allb notNL f = true ->
      (Sha3sum.err (Sha3sum.parseNormalHash (h ++ sp ++ f)) = None
       /\ Sha3sum.algorithm (Sha3sum.parseNormalHash (h ++ sp ++ f)) = w
       /\ Sha3sum.hash (Sha3sum.parseNormalHash (h ++ sp ++ f)) = h)
      /\ Part000.parseNormalHash (h ++ sp ++ f)
         = Part000.mkParse EmptyString EmptyString 0 (Some "bad line"))
  /\ (forall (h rest : string),
         allb isHexByte h = true -> startsNot isHexByte rest ->
         ~ In (String.length h) [56; 64; 96; 128] ->
         Sha3sum.err (Sha3sum.parseNormalHash (h ++ rest)) <> None
         /\ Part000.err (Part000.parseNormalHash (h ++ rest)) <> None).
Proof.
  split.
  - intros w h sp f Hw Hh Hlen Hsp Hsp2 Hf Hn. split.
    + now apply normal_line_infers_width.
    + destruct (quarter_width w _ Hw Hlen) as (_ & _ & Hpos).
      apply part000_plain_line_is_bad_line; try assumption. lia.
  - intros h rest Hh Hrest Hnot. split.
    + now apply normal_bad_length_is_error.
    + apply part000_plain_grammar_never_parses.
Qed.

Lemma plain_width_inference_by_source_witness :
  (Sha3sum.algorithm
     (Sha3sum.parseNormalHash (replicate 64 "a"%char ++ "  " ++ "f")) = 256%Z
   /\ Part000.parseNormalHash (replicate 64 "a"%char ++ "  " ++ "f")
      = Part000.mkParse EmptyString EmptyString 0 (Some "bad line"))
  /\ Sha3sum.err (Sha3sum.parseNormalHash ("abcd" ++ "  f")) <> None.
Proof.
  split.
  - assert (H : In 256%Z widths) by (unfold widths; simpl; tauto).
    destruct (proj1 plain_width_inference_by_source 256%Z
                    (replicate 64 "a"%char) "  " "f" H eq_refl eq_refl
                    eq_refl (le_n 2) (le_n 1) eq_refl)
      as [(_ & Ha & _) Hp].
    split; [exact Ha | exact Hp].
  - apply (proj2 plain_width_inference_by_source "abcd" "  f");
      try reflexivity. simpl. lia.
Defined.

(** The failing input of C3: a plain manifest line for the width 256 in
    both files, and a check run of [src/unnamed/part_000] on a manifest
    made of that line, with [--strict]. *)
Lemma part000_plain_line_run :
  Sha3sum.parseNormalHash (Demo.digest0 ++ "  f")
  = Sha3sum.mkParse Demo.digest0 "f" 256 false false None
  /\ Part000.parseNormalHash (Demo.digest0 ++ "  f")
     = Part000.mkParse EmptyString EmptyString 0 (Some "bad line")
  /\ Part000.main (Demo.env false Demo.zeroSum
                            [("sums", Demo.digest0 ++ "  f" ++ nl);
                             ("f", "x")])
                  (Demo.checkOptions000 false true)
     = ([Open "sums"; Stderr ("bad line" ++ nl)], Exit 1).
Proof. vm_compute. repeat split. Qed.

Lemma hash_not_zero_length (w : Z) (digest : string) :
  In w widths -> Z.of_nat (String.length digest) = (w / 4)%Z ->
  0 < String.length digest.
Proof. intros Hw Hl. now destruct (quarter_width w _ Hw Hl) as (_ & _ & H). Qed.

Lemma append_inv_tail (a b c : string) : a ++ c = b ++ c -> a = b.
Proof.
  intros H. apply (append_length_inj a b c c); [|exact H].
  apply (f_equal String.length) in H. rewrite !length_append in H. lia.
Qed.

(** The printed line of an entry, and what parsing it gives. *)
Lemma roundtrip_lines
        (digest filename : string) (w : Z) (portable binary : bool) :
  In w widths -> allb isHexByte digest = true ->
  Z.of_nat (String.length digest) = (w / 4)%Z ->
  0 < String.length filename -> portable && binary = false ->
  (allb notNL filename = true ->
   (portable = false -> binary = false ->
    startsNot isSpaceByte filename /\ startsNot isModeByte filename) ->
   exists line,
     stdoutText (trace (Sha3sum.printEntry filename w digest portable binary
                                           false)) = line ++ nl
     /\ Sha3sum.parseHash line false
        = Sha3sum.mkParse digest filename w portable binary None)
  /\ (exists line,
        stdoutText (trace (Sha3sum.printEntry filename w digest portable
                                              binary true)) = line ++ nl
        /\ (Sha3sum.err (Sha3sum.parseHash line true) = None ->
            Sha3sum.parseHash line true
            = Sha3sum.mkParse digest filename w false false None)).
Proof.
  intros Hw Hd Hl Hf Hpb.
  destruct (quarter_width w _ Hw Hl) as (Hq & Hm & Hpos).
  assert (Hflen : (String.length filename =? 0)%nat = false)
    by (apply Nat.eqb_neq; lia).
  split.
  - intros Hn Hstart.
    assert (Hfin : forall line c,
               exec Sha3sum.normalRegexp line = Some c ->
               c 1 = digest -> c 3 = filename ->
               (c 2 =? "?")%string = portable ->
               (c 2 =? "*")%string = binary ->
               Sha3sum.parseHash line false
               = Sha3sum.mkParse digest filename w portable binary None).
    { intros line c He C1 C3 Cp Cb. unfold Sha3sum.parseHash.
      rewrite (parseNormalHash_exec line c He). cbv zeta.
      now rewrite C1, C3, Cp, Cb, Hq, Hm, Hflen. }
    destruct portable; [|destruct binary].
    + destruct binary; [discriminate Hpb|].
      exists (digest ++ "  " ++ String "?" filename). split.
      * unfold Sha3sum.printEntry. simpl. now rewrite !append_assoc.
      * destruct (normal_exec_mode digest filename "?"%char Hd Hpos
                    eq_refl Hf Hn) as (c & He & C1 & C2 & C3).
        apply (Hfin _ c He C1 C3); rewrite C2; reflexivity.
    + exists (digest ++ "  " ++ String "*" filename). split.
      * unfold Sha3sum.printEntry. simpl. now rewrite !append_assoc.
      * destruct (normal_exec_mode digest filename "*"%char Hd Hpos
                    eq_refl Hf Hn) as (c & He & C1 & C2 & C3).
        apply (Hfin _ c He C1 C3); rewrite C2; reflexivity.
    + exists (digest ++ "  " ++ filename). split.
      * unfold Sha3sum.printEntry. simpl. now rewrite !append_assoc.
      * destruct (Hstart eq_refl eq_refl) as [Hs1 Hs2].
        destruct (normal_exec_plain digest filename Hd Hpos Hf Hn Hs1 Hs2)
          as (c & He & C1 & C2 & C3).
        apply (Hfin _ c He C1 C3); rewrite C2; reflexivity.
  - exists ("SHA3-" ++ fmtD w ++ " (" ++ filename ++ ") = " ++ digest). split.
    + unfold Sha3sum.printEntry, emit, trace. cbn [fst stdoutText].
      rewrite append_nil_r, !append_assoc. reflexivity.
    + unfold Sha3sum.parseHash. intros Hok.
      destruct (parseTagHash_ok _ Hok)
        as (c & He & Ha & Hv & Hfn & Hfl & Hh & Hhl & Hp & Hb).
      destruct (Sha3sum.parseTagHash
                  ("SHA3-" ++ fmtD w ++ " (" ++ filename ++ ") = " ++ digest))
        as [ph pf pa pp pb pe].
      cbn [Sha3sum.err Sha3sum.hash Sha3sum.fname Sha3sum.algorithm
           Sha3sum.portable Sha3sum.binary] in *.
      destruct (tag_exec_inv _ c He)
        as (d & f & sp1 & sp2 & h & x & Hline & Hd3 & Hdd & Hone & Hx & Hs1
            & Hs2 & Hhx & Hhpos & C1 & C2 & C3).
      destruct (fmtD_width w Hw) as [Hw3 Hwa].
      simpl in Hline. injection Hline as Hline.
      apply append_length_inj in Hline as [Hdw Hline]; [|congruence].
      simpl in Hline. injection Hline as Hline.
      (* split both sides at the last [=] *)
      assert (E1 : (filename ++ ") ") ++ String "=" (" " ++ digest)
                   = (f ++ ")" ++ sp1) ++ String "=" (sp2 ++ h)).
      { rewrite !append_assoc. simpl. exact Hline. }
      apply split_last in E1 as [E1 E2].
      * apply (prefix_unique isSpaceByte " " sp2 digest h eq_refl Hs2
                 (hex_startsNot_space _ Hd) (hex_startsNot_space _ Hhx))
          in E2 as [<- <-].
        assert (E3 : filename ++ String ")" " " = f ++ String ")" sp1)
          by (rewrite E1; reflexivity).
        apply split_last in E3 as [<- <-];
          [| reflexivity | now apply space_no_byte].
        rewrite C1, <- Hdw, Hwa in Ha. injection Ha as Ha.
        rewrite C2 in Hfn. rewrite C3 in Hh.
        congruence.
      * simpl. now apply hex_no_byte.
      * rewrite allb_append. rewrite (space_no_byte "="%char sp2 eq_refl Hs2).
        now rewrite (hex_no_byte "="%char h eq_refl Hhx).
Qed.

(** The tagged parser assigns neither mode flag, whatever the line. *)
Lemma parseTagHash_no_mode (line : string) :
  Sha3sum.portable (Sha3sum.parseTagHash line) = false
  /\ Sha3sum.binary (Sha3sum.parseTagHash line) = false.
Proof.
  unfold Sha3sum.parseTagHash. cbv zeta.
  destruct (negb (MatchString Sha3sum.tagRegexp line));
    [split; reflexivity|].
  destruct (negb (List.length (FindStringSubmatch Sha3sum.tagRegexp line)
                  =? 4)%nat); [split; reflexivity|].
  destruct (Atoi (nth 1 (FindStringSubmatch Sha3sum.tagRegexp line)
                      EmptyString)) as [a [e|]]; [split; reflexivity|].
  repeat match goal with
         | |- context [if ?b then _ else _] => destruct b
         end; split; reflexivity.
Qed.

(** C2, amended.  Plain grammar: the line [hashFiles] prints for a valid
    entry parses back to the same digest, file name, width and mode flags
    when the file name has no line feed and, for an entry without mode
    character, does not begin with a space, [*] or [?].  Tagged grammar:
    the printed line is [SHA3-], the width, the file name in parentheses,
    [=] and the digest, the same for every mode of the entry, and parsing
    it gives both mode flags unset, so the mode does not come back. *)
Theorem format_then_parse_roundtrip
        (digest filename : string) (w : Z) (portable binary tag : bool)
        (line : string) :
  In w widths -> allb isHexByte digest = true ->
  Z.of_nat (String.length digest) = (w / 4)%Z ->
  0 < String.length filename -> portable && binary = false ->
  stdoutText (trace (Sha3sum.printEntry filename w digest portable binary tag))
  = line ++ nl ->
  if tag
  then line = "SHA3-" ++ fmtD w ++ " (" ++ filename ++ ") = " ++ digest
       /\ Sha3sum.portable (Sha3sum.parseHash line true) = false
       /\ Sha3sum.binary (Sha3sum.parseHash line true) = false
  else allb notNL filename = true ->
       (portable = false -> binary = false ->
        startsNot isSpaceByte filename /\ startsNot isModeByte filename) ->
       Sha3sum.parseHash line false
       = Sha3sum.mkParse digest filename w portable binary None.
Proof.
  intros Hw Hd Hl Hf Hpb Hline.
  destruct tag.
  - split; [|apply parseTagHash_no_mode].
    assert (Hp : stdoutText (trace (Sha3sum.printEntry filename w digest
                                                       portable binary true))
                 = ("SHA3-" ++ fmtD w ++ " (" ++ filename ++ ") = " ++ digest)
                   ++ nl).
    { unfold Sha3sum.printEntry, emit, trace. cbn [fst stdoutText].
      rewrite append_nil_r, !append_assoc. reflexivity. }
    rewrite Hp in Hline. symmetry. exact (append_inv_tail _ _ _ Hline).
  - intros Hn Hstart.
    destruct (roundtrip_lines digest filename w portable binary Hw Hd Hl Hf Hpb)
      as [Hplain _].
    destruct (Hplain Hn Hstart) as (l0 & Hl0 & Hp).
    rewrite Hl0 in Hline. apply append_inv_tail in Hline. now subst l0.
Qed.

Lemma format_then_parse_roundtrip_witness :
  Sha3sum.parseHash (replicate 64 "a"%char ++ "  *f") false
  = Sha3sum.mkParse (replicate 64 "a"%char) "f" 256 false true None
  /\ ("SHA3-256 (f) = " ++ replicate 64 "a"%char
      = "SHA3-" ++ fmtD 256 ++ " (" ++ "f" ++ ") = " ++ replicate 64 "a"%char
      /\ Sha3sum.portable
           (Sha3sum.parseHash ("SHA3-256 (f) = " ++ replicate 64 "a"%char)
                              true) = false
      /\ Sha3sum.binary
           (Sha3sum.parseHash ("SHA3-256 (f) = " ++ replicate 64 "a"%char)
                              true) = false).
Proof.
  split.
  - apply (format_then_parse_roundtrip (replicate 64 "a"%char) "f" 256%Z
             false true false).
    all: try (vm_compute; reflexivity).
    all: try (simpl; lia).
    all: try (unfold widths; simpl; tauto).
  - apply (format_then_parse_roundtrip (replicate 64 "a"%char) "f" 256%Z
             false true true).
    all: try (vm_compute; reflexivity).
    all: try (simpl; lia).
    all: try (unfold widths; simpl; tauto).
Defined.

(** C2 as stated fails in both grammars.  Plain: the first character of a
    file name is taken for the mode character, so the entry without mode
    of the file [*f] comes back as the binary entry of [f].  Tagged: the
    line carries no mode, so the binary entry of the file [f] comes back
    without mode. *)
Lemma format_then_parse_counterexample :
  let d := replicate 64 "a"%char in
  (stdoutText (trace (Sha3sum.printEntry "*f" 256 d false false false))
   = (d ++ "  *f") ++ nl
   /\ Sha3sum.parseHash (d ++ "  *f") false
      = Sha3sum.mkParse d "f" 256 false true None
   /\ Sha3sum.parseHash (d ++ "  *f") false
      <> Sha3sum.mkParse d "*f" 256 false false None)
  /\ (stdoutText (trace (Sha3sum.printEntry "f" 256 d false true true))
      = ("SHA3-256 (f) = " ++ d) ++ nl
      /\ Sha3sum.parseHash ("SHA3-256 (f) = " ++ d) true
         = Sha3sum.mkParse d "f" 256 false false None
      /\ Sha3sum.parseHash ("SHA3-256 (f) = " ++ d) true
         <> Sha3sum.mkParse d "f" 256 false true None).
Proof. vm_compute. repeat split; discriminate. Qed.

(** The pattern of [tagRegexp] takes a file name of one character only,
    where the file names the command is given are longer: the tagged line
    printed for such a name is refused by the parser of the same file. *)
Lemma tagged_long_name_run :
  let d := replicate 64 "a"%char in
  stdoutText (trace (Sha3sum.printEntry "file.txt" 256 d false false true))
  = ("SHA3-256 (file.txt) = " ++ d) ++ nl
  /\ Sha3sum.parseHash ("SHA3-256 (file.txt) = " ++ d) true
     = Sha3sum.mkParse EmptyString EmptyString 0 false false (Some "bad checksum line").
Proof. vm_compute. split; reflexivity. Qed.

(* ================================================================== *)
(** * The manifest reader (claims C5, C10) *)
(* ================================================================== *)

Module ReaderFacts.
Import GoString Regexp GoLib Proc Preds Sha3sum.

Lemma bind_ret_l {A B : Type} (a : A) (f : A -> M B) : bind (ret a) f = f a.
Proof. unfold bind, ret. now destruct (f a). Qed.

(** The lists after appending the entries [ps] to [acc]. *)
Lemma fold_appendParse (ps : list ParseResult) (acc : HashLists) :
  let l := fold_left appendParse ps acc in
  hashes l = (hashes acc ++ map hash ps)%list
  /\ filenames l = (filenames acc ++ map fname ps)%list
  /\ algorithms l = (algorithms acc ++ map algorithm ps)%list
  /\ portables l = (portables acc ++ map portable ps)%list
  /\ binaries l = (binaries acc ++ map binary ps)%list.
Proof.
  revert acc. induction ps as [|p ps IH]; intros acc; simpl.
  - now rewrite !app_nil_r.
  - destruct (IH (appendParse acc p)) as (H1 & H2 & H3 & H4 & H5).
    rewrite H1, H2, H3, H4, H5. simpl. now rewrite <- !app_assoc.
Qed.

(** Without [strict] the loop returns an entry for every line. *)
Lemma readHashesLoop_lenient (tag : bool) (rs : list (string * bool))
      (line : string) (acc : HashLists) :
  readHashesLoop tag false rs line acc
  = ret (fold_left appendParse
                   (map (fun ln => parseHash ln tag) (assemble rs line)) acc).
Proof.
  revert line acc. induction rs as [|[part prefix] rs IH]; intros line acc.
  - reflexivity.
  - cbn [readHashesLoop assemble]. destruct prefix; cbn [negb].
    + apply IH.
    + replace (match err (parseHash (line ++ part) tag) with
               | Some _ => ret tt
               | None => ret tt
               end) with (@ret unit tt)
        by (destruct (err (parseHash (line ++ part) tag)); reflexivity).
      rewrite bind_ret_l. rewrite IH. reflexivity.
Qed.

(** With [strict] the loop returns the same when every line parses. *)
Lemma readHashesLoop_strict_ok (tag : bool) (rs : list (string * bool))
      (line : string) (acc : HashLists) :
  Forall (fun ln => err (parseHash ln tag) = None) (assemble rs line) ->
  readHashesLoop tag true rs line acc
  = ret (fold_left appendParse
                   (map (fun ln => parseHash ln tag) (assemble rs line)) acc).
Proof.
  revert line acc. induction rs as [|[part prefix] rs IH]; intros line acc H.
  - reflexivity.
  - cbn [readHashesLoop assemble] in *. destruct prefix; cbn [negb].
    + now apply IH.
    + inversion H as [|? ? H1 H2]; subst. rewrite H1.
      rewrite bind_ret_l. rewrite (IH _ _ H2). reflexivity.
Qed.

(** With [strict] the first line that does not parse ends the process. *)
Lemma readHashesLoop_strict_fail (tag : bool) (rs : list (string * bool))
      (line : string) (acc : HashLists) (pre post : list string)
      (ln : string) (e : error) :
  assemble rs line = (pre ++ ln :: post)%list ->
  Forall (fun x => err (parseHash x tag) = None) pre ->
  err (parseHash ln tag) = Some e ->
  readHashesLoop tag true rs line acc = ([Stderr (e ++ nl)], Exit 1).
Proof.
  revert line acc pre.
  induction rs as [|[part prefix] rs IH]; intros line acc pre Ha Hpre He.
  - simpl in Ha. destruct pre; discriminate.
  - cbn [readHashesLoop assemble] in *. destruct prefix; cbn [negb].
    + now apply (IH _ _ pre).
    + destruct pre as [|x pre]; simpl in Ha; injection Ha as Hx Ha.
      * subst ln. rewrite He. reflexivity.
      * subst x. inversion Hpre as [|? ? H1 H2]; subst. rewrite H1.
        rewrite bind_ret_l. now apply (IH _ _ pre).
Qed.

(** Whenever the loop returns, it returns an entry for every line. *)
Lemma readHashesLoop_returns (tag strict : bool) (rs : list (string * bool))
      (line : string) (acc : HashLists) (t : list Event) (l : HashLists) :
  readHashesLoop tag strict rs line acc = (t, Ret l) ->
  t = [] /\
  l = fold_left appendParse
                (map (fun ln => parseHash ln tag) (assemble rs line)) acc.
Proof.
  destruct strict.
  - revert line acc. induction rs as [|[part prefix] rs IH]; intros line acc.
    + simpl. intros H. injection H as <- <-. now split.
    + cbn [readHashesLoop assemble]. destruct prefix; cbn [negb].
      * apply IH.
      * destruct (err (parseHash (line ++ part) tag)) as [e|] eqn:He.
        -- discriminate.
        -- rewrite bind_ret_l. intros H.
           destruct (IH _ _ H) as [-> ->]. now split.
  - rewrite readHashesLoop_lenient. intros H. injection H as <- <-.
    now split.
Qed.

Lemma parseHash_nomatch (tag : bool) (ln : string) :
  MatchString (if tag then tagRegexp else normalRegexp) ln = false ->
  parseHash ln tag = mkParse EmptyString EmptyString 0 false false (Some "bad checksum line").
Proof.
  destruct tag; unfold parseHash, parseTagHash, parseNormalHash;
    intros ->; reflexivity.
Qed.

End ReaderFacts.

Import GoString Regexp GoLib Proc Preds ReaderFacts.

(** C10.  Whenever [readHashes] returns, its five lists have the length of
    the list of lines read, and the elements at each index are the five
    results of parsing the line at that index. *)
Theorem readHashes_lists_aligned
        (E : Env) (name : string) (tag strict : bool)
        (t : list Event) (l : Sha3sum.HashLists) :
  Sha3sum.readHashes E name tag strict = (t, Ret l) ->
  exists f, osOpen E name = inl f /\
    let lines := assemble (readLine E f) EmptyString in
    let entry := fun ln => Sha3sum.parseHash ln tag in
    Sha3sum.hashes l = map (fun ln => Sha3sum.hash (entry ln)) lines
    /\ Sha3sum.filenames l = map (fun ln => Sha3sum.fname (entry ln)) lines
    /\ Sha3sum.algorithms l = map (fun ln => Sha3sum.algorithm (entry ln)) lines
    /\ Sha3sum.portables l = map (fun ln => Sha3sum.portable (entry ln)) lines
    /\ Sha3sum.binaries l = map (fun ln => Sha3sum.binary (entry ln)) lines
    /\ List.length (Sha3sum.hashes l) = List.length lines
    /\ List.length (Sha3sum.filenames l) = List.length lines
    /\ List.length (Sha3sum.algorithms l) = List.length lines
    /\ List.length (Sha3sum.portables l) = List.length lines
    /\ List.length (Sha3sum.binaries l) = List.length lines.
Proof.
  unfold Sha3sum.readHashes. intros H.
  destruct (osOpen E name) as [f|e] eqn:Ho.
  - exists f. split; [reflexivity|].
    unfold bind, emit in H.
    destruct (Sha3sum.readHashesLoop tag strict (readLine E f) EmptyString Sha3sum.noLists)
      as [t' r] eqn:Hl.
    destruct r as [l'| |]; try discriminate H. injection H as <- <-.
    apply readHashesLoop_returns in Hl as [_ ->].
    destruct (fold_appendParse
                (map (fun ln => Sha3sum.parseHash ln tag)
                     (assemble (readLine E f) EmptyString)) Sha3sum.noLists)
      as (H1 & H2 & H3 & H4 & H5).
    cbv zeta in *. rewrite H1, H2, H3, H4, H5. simpl.
    rewrite !map_map, !length_map. now repeat split.
  - simpl in H. discriminate H.
Qed.

Lemma readHashes_lists_aligned_witness :
  exists l,
    Sha3sum.readHashes
      (Demo.env false Demo.zeroSum
                [("sums", Demo.digest0 ++ "  f" ++ nl ++ "junk" ++ nl)])
      "sums" false false = ([Open "sums"], Ret l)
    /\ List.length (Sha3sum.hashes l) = 2
    /\ List.length (Sha3sum.binaries l) = 2.
Proof.
  eexists. split; [vm_compute; reflexivity|].
  destruct (readHashes_lists_aligned
              (Demo.env false Demo.zeroSum
                        [("sums", Demo.digest0 ++ "  f" ++ nl ++ "junk" ++ nl)])
              "sums" false false _ _ eq_refl)
    as (f & Ho & _ & _ & _ & _ & _ & H1 & _ & _ & _ & H5).
  injection Ho as <-. split; [exact H1 | exact H5].
Defined.

(** C5, amended.  The lines are those that [ReadLine] delivers to their
    end, that is up to a part without the prefix flag ([assemble]).  With
    [strict] the first of them that fails to parse ends the whole read, the
    process dying with that parse error.  Without it each of them gives an
    entry, in line order, so there are as many entries as such lines; the
    entry of a malformed line holds what the parser had assigned before it
    failed, which is nothing but empty and zero fields when the line does
    not match the pattern of the grammar. *)
Theorem readHashes_strictness
        (E : Env) (name : string) (tag : bool) (f : File) :
  osOpen E name = inl f ->
  let lines := assemble (readLine E f) EmptyString in
  let entry := fun ln => Sha3sum.parseHash ln tag in
  (forall pre ln post e,
      lines = (pre ++ ln :: post)%list ->
      Forall (fun x => Sha3sum.err (entry x) = None) pre ->
      Sha3sum.err (entry ln) = Some e ->
      Sha3sum.readHashes E name tag true
      = ([Open name; Stderr (e ++ nl)], Exit 1))
  /\ (exists l,
         Sha3sum.readHashes E name tag false = ([Open name], Ret l)
         /\ Sha3sum.hashes l = map (fun ln => Sha3sum.hash (entry ln)) lines
         /\ Sha3sum.filenames l = map (fun ln => Sha3sum.fname (entry ln)) lines
         /\ Sha3sum.algorithms l
            = map (fun ln => Sha3sum.algorithm (entry ln)) lines
         /\ Sha3sum.portables l
            = map (fun ln => Sha3sum.portable (entry ln)) lines
         /\ Sha3sum.binaries l = map (fun ln => Sha3sum.binary (entry ln)) lines
         /\ List.length (Sha3sum.filenames l) = List.length lines)
  /\ (forall ln,
         MatchString (if tag then Sha3sum.tagRegexp else Sha3sum.normalRegexp)
                     ln = false ->
         entry ln
         = Sha3sum.mkParse EmptyString EmptyString 0 false false (Some "bad checksum line")).
Proof.
  intros Ho lines entry. repeat split.
  - intros pre ln post e Hl Hpre He.
    unfold Sha3sum.readHashes. rewrite Ho.
    rewrite (readHashesLoop_strict_fail tag _ EmptyString Sha3sum.noLists pre post ln e
               Hl Hpre He).
    reflexivity.
  - exists (fold_left Sha3sum.appendParse (map entry lines) Sha3sum.noLists).
    destruct (fold_appendParse (map entry lines) Sha3sum.noLists)
      as (H1 & H2 & H3 & H4 & H5).
    cbv zeta in *. rewrite H1, H2, H3, H4, H5. simpl.
    rewrite !map_map, !length_map. repeat split.
    unfold Sha3sum.readHashes. rewrite Ho.
    rewrite readHashesLoop_lenient. reflexivity.
  - intros ln. apply parseHash_nomatch.
Qed.

Lemma readHashes_strictness_witness :
  Sha3sum.readHashes
    (Demo.env false Demo.zeroSum
              [("sums", Demo.digest0 ++ "  f" ++ nl ++ "junk" ++ nl)])
    "sums" false true
  = ([Open "sums"; Stderr ("bad checksum line" ++ nl)], Exit 1).
Proof.
  refine (proj1 (readHashes_strictness
                   (Demo.env false Demo.zeroSum
                             [("sums", Demo.digest0 ++ "  f" ++ nl ++ "junk" ++ nl)])
                   "sums" false _ eq_refl)
                [Demo.digest0 ++ "  f"] "junk" [] "bad checksum line" _ _ _).
  - vm_compute. reflexivity.
  - constructor; [vm_compute; reflexivity | constructor].
  - vm_compute. reflexivity.
Defined.

(** C5 as stated fails: the entry appended for a malformed line is not
    always empty and zero.  Here the digest is too short for the declared
    width and the entry keeps digest, file name and width. *)
Lemma readHashes_placeholder_counterexample :
  Sha3sum.err (Sha3sum.parseHash "SHA3-256 (f) = ab" true) = Some "bad hash"
  /\ Sha3sum.readHashes
       (Demo.env false Demo.zeroSum [("sums", "SHA3-256 (f) = ab" ++ nl)])
       "sums" true false
     = ([Open "sums"],
        Ret (Sha3sum.mkLists ["ab"] ["f"] [256%Z] [false] [false])).
Proof. split; vm_compute; reflexivity. Qed.

(** Parts that [ReadLine] returns with the prefix flag and that no part
    without the flag follows are lost when the file ends: the loop returns
    at the error without looking at what it has gathered.  Here the
    manifest ends in such a part, as a last line without line feed does
    when it fills the buffer of the reader; it gets no entry, and with
    [strict] the read does not fail on it either.  Both source files
    behave so. *)
Lemma unfinished_last_line_run :
  let E := mkEnv false (fun _ => inl (mkFile [] None)) (mkFile [] None)
                 (fun _ => [("SHA3-256 (f) = " ++ Demo.digest0, false);
                            ("junk", true)])
                 Demo.zeroSum Demo.bytesEqb in
  Sha3sum.err (Sha3sum.parseHash "junk" true) = Some "bad checksum line"
  /\ (forall strict,
         Sha3sum.readHashes E "sums" true strict
         = ([Open "sums"],
            Ret (Sha3sum.mkLists [Demo.digest0] ["f"] [256%Z] [false]
                                 [false])))
  /\ (forall strict,
         Part000.readHashes E "sums" true strict
         = ([Open "sums"],
            Ret (Part000.mkLists [Demo.digest0] ["f"] [256%Z]))).
Proof.
  split; [vm_compute; reflexivity|].
  split; intros []; vm_compute; reflexivity.
Qed.

(* ================================================================== *)
(** * Hashing files, verifying and the command line (claims C1, C6, C7,
      C9) *)
(* ================================================================== *)

Module RunFacts.
Import GoString Regexp GoLib Proc Preds Sha3sum StringFacts ReaderFacts.

Lemma trace_bind_cons {A B : Type} (m : M A) (k : A -> M B)
      (e : Event) (t : list Event) :
  trace m = (e :: t)%list -> exists t', trace (bind m k) = (e :: t')%list.
Proof.
  destruct m as [tm [a| |]]; unfold trace; simpl; intros ->.
  - destruct (k a) as [t' r]. simpl. eauto.
  - eauto.
  - eauto.
Qed.

Lemma bind_exit {A B : Type} (t : list Event) (c : Z) (k : A -> M B) :
  bind (t, Exit c) k = (t, Exit c).
Proof. reflexivity. Qed.

(** Opening a file that does not exist ends the process. *)
Lemma openInput_failure (E : Env) (filename : string) (e : string) :
  filename <> "-" -> osOpen E filename = inr e ->
  openInput E filename = ([Open filename; Stderr (e ++ nl)], Exit 1).
Proof.
  intros Hn Ho. unfold openInput.
  destruct (String.eqb_spec filename "-") as [->|_]; [congruence|].
  rewrite Ho. reflexivity.
Qed.

Lemma openInput_success (E : Env) (filename : string) (f : File) :
  filename <> "-" -> osOpen E filename = inl f ->
  openInput E filename = ([Open filename], Ret f).
Proof.
  intros Hn Ho. unfold openInput.
  destruct (String.eqb_spec filename "-") as [->|_]; [congruence|].
  rewrite Ho. reflexivity.
Qed.

Lemma hashFile_open_failure (E : Env) (filename : string) (e : string)
      (a : Z) (p b : bool) :
  filename <> "-" -> osOpen E filename = inr e ->
  hashFile E filename a p b = ([Open filename; Stderr (e ++ nl)], Exit 1).
Proof.
  intros Hn Ho. unfold hashFile.
  rewrite (openInput_failure E filename e Hn Ho). reflexivity.
Qed.

Lemma substring_whole (s : string) : substring 0 (String.length s) s = s.
Proof. induction s as [|c s IH]; simpl; [reflexivity | now rewrite IH]. Qed.

Lemma slice_whole (s : string) : slice s 0 (String.length s) = Some s.
Proof.
  unfold slice. rewrite Nat.leb_refl, Nat.sub_0_r, substring_whole.
  reflexivity.
Qed.

Lemma bytes_append (a b : string) :
  list_byte_of_string (a ++ b)
  = (list_byte_of_string a ++ list_byte_of_string b)%list.
Proof.
  induction a as [|c a IH]; [reflexivity|].
  change (list_byte_of_string (String c (a ++ b))
          = (list_byte_of_string (String c a) ++ list_byte_of_string b)%list).
  unfold list_byte_of_string in *. simpl. now rewrite IH.
Qed.

(** A line that ends in a line feed is not the one-byte string made of a
    carriage return. *)
Lemma lf_line_not_cr (u : string) : (u ++ nl =? str1 "013")%string = false.
Proof.
  destruct u as [|c [|c' u]]; try reflexivity.
  - simpl. destruct (Ascii.eqb c "013"); reflexivity.
  - simpl. destruct (Ascii.eqb c "013"); reflexivity.
Qed.

Lemma readStrings_lines (data cur : string) :
  Forall (fun line => exists u, line = u ++ nl)
         (fst (readStrings cur data)).
Proof.
  revert cur. induction data as [|c d IH]; intros cur; simpl.
  - constructor.
  - destruct (Ascii.eqb_spec c "010") as [->|_].
    + specialize (IH EmptyString).
      destruct (readStrings EmptyString d) as [ls r]. simpl in *.
      constructor; [now exists cur | exact IH].
    + apply IH.
Qed.

(** [ReadString] loses nothing: the lines and the rest make up the data. *)
Lemma readStrings_data (data cur : string) :
  fold_right append EmptyString (fst (readStrings cur data))
  ++ snd (readStrings cur data) = cur ++ data.
Proof.
  revert cur. induction data as [|c d IH]; intros cur; simpl.
  - now rewrite append_nil_r.
  - destruct (Ascii.eqb_spec c "010") as [->|_].
    + specialize (IH EmptyString).
      destruct (readStrings EmptyString d) as [ls r]. simpl in *.
      rewrite append_assoc, IH. unfold str1.
      now rewrite append_assoc.
    + rewrite IH. unfold str1. now rewrite append_assoc.
Qed.

(** The text branch writes every line as it was read. *)
Lemma textLoop_writes_lines (lines : list string) (w : Z) (d : list byte)
      (final : option error) :
  Forall (fun line => exists u, line = u ++ nl) lines ->
  textLoop (Some (w, d)) lines final
  = ret (Some (w, (d ++ list_byte_of_string
                          (fold_right append EmptyString lines))%list),
         final).
Proof.
  revert d. induction lines as [|line rest IH]; intros d Hl.
  - simpl. now rewrite app_nil_r.
  - inversion Hl as [|x xs [u Hu] Hrest]; subst x xs.
    cbn [textLoop]. unfold sliceM. rewrite slice_whole.
    rewrite bind_ret_l. rewrite Hu at 1. rewrite lf_line_not_cr.
    rewrite bind_ret_l. cbn [hWrite]. rewrite bind_ret_l.
    rewrite (IH _ Hrest). cbn [fold_right].
    now rewrite bytes_append, app_assoc.
Qed.

(** The binary branch writes every chunk as it was read. *)
Lemma binaryLoop_writes_chunks (cs : list (list byte)) (w : Z)
      (d : list byte) (final : option error) :
  binaryLoop (Some (w, d)) cs final
  = ret (Some (w, (d ++ List.concat cs)%list), final).
Proof.
  revert d. induction cs as [|c cs IH]; intros d.
  - simpl. now rewrite app_nil_r.
  - cbn [binaryLoop List.concat].
    destruct c as [|x c].
    + simpl. rewrite IH. reflexivity.
    + cbn [List.length Nat.ltb Nat.leb]. cbn [hWrite]. rewrite bind_ret_l.
      rewrite IH. now rewrite app_assoc.
Qed.

Lemma newHash_width (w : Z) : In w widths -> newHash w = Some (w, []).
Proof.
  unfold widths. simpl.
  intros [<-|[<-|[<-|[<-|[]]]]]; reflexivity.
Qed.

Lemma bind_Ret_inv {A B : Type} (m : M A) (k : A -> M B)
      (t : list Event) (r : B) :
  bind m k = (t, Ret r) ->
  exists t1 a t2, m = (t1, Ret a) /\ k a = (t2, Ret r) /\ t = (t1 ++ t2)%list.
Proof.
  destruct m as [t1 [a| |]]; simpl; try discriminate.
  destruct (k a) as [t2 r2] eqn:Ek. intros H. inversion H; subst.
  exists t1, a, t2. auto.
Qed.

Ltac bind_inv H x :=
  let t1 := fresh "t" in
  let t2 := fresh "t" in
  apply bind_Ret_inv in H; destruct H as (t1 & x & t2 & _ & H & _).

(** Without [strict] the loop of [checkFiles] never leaves with an error. *)
Lemma checkLoop_lenient (E : Env) (l : HashLists) (b p st : bool)
      (rest : list string) (i : nat) (good bad : Z)
      (t : list Event) (r : error + Z * Z) :
  checkLoop E l b p false st i rest good bad = (t, Ret r) ->
  exists g bd, r = inr (g, bd).
Proof.
  revert i good bad t r.
  induction rest as [|filename rest IH]; intros i good bad t r H.
  - simpl in H. unfold ret in H. inversion H; subst. eauto.
  - cbn [checkLoop] in H.
    bind_inv H a. bind_inv H pf. bind_inv H bf.
    bind_inv H x. destruct x as [hex [e|]]; [eapply IH; exact H|].
    destruct (DecodeString hex) as [actual [e|]]; [eapply IH; exact H|].
    bind_inv H expected.
    destruct (DecodeString expected) as [expectedHash [e|]];
      [eapply IH; exact H|].
    destruct (secureEqual E actual expectedHash);
      bind_inv H u; eapply IH; exact H.
Qed.

Lemma result_bind_Ret {A B : Type} (m : M A) (k : A -> M B)
      (t : list Event) (a : A) :
  m = (t, Ret a) -> result (bind m k) = result (k a).
Proof. intros ->. unfold result. simpl. now destruct (k a). Qed.

Lemma trace_bind_cons_ex {A B : Type} (m : M A) (k : A -> M B) (e : Event) :
  (exists t, trace m = (e :: t)%list) ->
  exists t', trace (bind m k) = (e :: t')%list.
Proof. intros [t Ht]. eapply trace_bind_cons; eauto. Qed.

Lemma openInput_opens_first (E : Env) (f : string) :
  f <> "-" -> exists t, trace (openInput E f) = (Open f :: t)%list.
Proof.
  intros Hn. unfold openInput.
  destruct (String.eqb_spec f "-") as [->|_]; [congruence|].
  destruct (osOpen E f); eexists; reflexivity.
Qed.

Lemma hashFile_opens_first (E : Env) (f : string) (a : Z) (p b : bool) :
  f <> "-" -> exists t, trace (hashFile E f a p b) = (Open f :: t)%list.
Proof.
  intros Hn. unfold hashFile.
  apply trace_bind_cons_ex, openInput_opens_first, Hn.
Qed.

Lemma hashFiles_opens_first (E : Env) (f : string) (rest : list string)
      (a : Z) (p b tag : bool) :
  f <> "-" ->
  exists t, trace (hashFiles E (f :: rest) a p b tag) = (Open f :: t)%list.
Proof.
  intros Hn. unfold hashFiles. cbn [List.length Nat.eqb hashFilesLoop].
  apply trace_bind_cons_ex, hashFile_opens_first, Hn.
Qed.

End RunFacts.

Import GoString Regexp GoLib Proc Preds StringFacts ReaderFacts RunFacts.

(** C1, what the code does.  When a check run reaches the end of the
    manifest, [checkFiles] returns no error and the command exits with
    status 0, also when the count of entries that did not match is
    positive. *)
Theorem verify_mismatch_exits_zero
        (E : Env) (o : Sha3sum.Options) (cf : string) (a : Z)
        (l : Sha3sum.HashLists) (t1 t2 : list Event) (good bad : Z) :
  Sha3sum.optAlgorithm o = Some a ->
  Sha3sum.optCheck o = Some cf ->
  cf <> EmptyString ->
  Sha3sum.flagOf (Sha3sum.optVersion o) = false ->
  Sha3sum.flagOf (Sha3sum.optText o)
  && Sha3sum.flagOf (Sha3sum.optBinary o) = false ->
  Sha3sum.readHashes E cf (Sha3sum.flagOf (Sha3sum.optTag o))
                     (Sha3sum.flagOf (Sha3sum.optStrict o)) = (t1, Ret l) ->
  Sha3sum.checkLoop E l (Sha3sum.flagOf (Sha3sum.optBinary o))
                    (Sha3sum.flagOf (Sha3sum.optPortable o))
                    (Sha3sum.flagOf (Sha3sum.optStrict o))
                    (Sha3sum.flagOf (Sha3sum.optStatus o))
                    0 (Sha3sum.filenames l) 0 0
  = (t2, Ret (inr (good, bad))) ->
  (0 < bad)%Z ->
  result (Sha3sum.checkFiles E cf (Sha3sum.flagOf (Sha3sum.optBinary o))
                             (Sha3sum.flagOf (Sha3sum.optPortable o))
                             (Sha3sum.flagOf (Sha3sum.optTag o))
                             (Sha3sum.flagOf (Sha3sum.optStrict o))
                             (Sha3sum.flagOf (Sha3sum.optStatus o)))
  = Ret None
  /\ exitStatus (Sha3sum.main E o) = 0%Z.
Proof.
  intros Ha Hc Hcf Hv Htb Hr Hl Hbad.
  assert (R : result (Sha3sum.checkFiles E cf
                        (Sha3sum.flagOf (Sha3sum.optBinary o))
                        (Sha3sum.flagOf (Sha3sum.optPortable o))
                        (Sha3sum.flagOf (Sha3sum.optTag o))
                        (Sha3sum.flagOf (Sha3sum.optStrict o))
                        (Sha3sum.flagOf (Sha3sum.optStatus o))) = Ret None).
  { unfold Sha3sum.checkFiles.
    rewrite (result_bind_Ret (emit _) _ _ tt eq_refl).
    rewrite (result_bind_Ret _ _ _ _ Hr).
    rewrite (result_bind_Ret (emit _) _ _ tt eq_refl).
    rewrite (result_bind_Ret _ _ _ _ Hl).
    destruct (negb (Sha3sum.flagOf (Sha3sum.optStatus o)) && (0 <? bad)%Z);
      reflexivity. }
  split; [exact R|].
  unfold Sha3sum.main, exitStatus.
  rewrite Ha, Hc, Hv, Htb. cbn [Sha3sum.isNil Sha3sum.deref andb].
  rewrite !bind_ret_l.
  destruct (String.eqb_spec cf EmptyString) as [->|_]; [congruence|].
  destruct (Sha3sum.checkFiles E cf (Sha3sum.flagOf (Sha3sum.optBinary o))
                        (Sha3sum.flagOf (Sha3sum.optPortable o))
                        (Sha3sum.flagOf (Sha3sum.optTag o))
                        (Sha3sum.flagOf (Sha3sum.optStrict o))
                        (Sha3sum.flagOf (Sha3sum.optStatus o))) as [tr r].
  unfold result in R. simpl in R. subst r. reflexivity.
Qed.

Lemma verify_mismatch_exits_zero_witness :
  exitStatus (Sha3sum.main (Demo.env false Demo.zeroSum Demo.mismatchFiles)
                           (Demo.checkOptions true false)) = 0%Z.
Proof.
  refine (proj2 (verify_mismatch_exits_zero
                   (Demo.env false Demo.zeroSum Demo.mismatchFiles)
                   (Demo.checkOptions true false) "sums" 256
                   (Sha3sum.mkLists [Demo.digestA] ["f"] [256%Z]
                                    [false] [false])
                   [Open "sums"]
                   [Open "f"; Stdout ("f: FAILED" ++ nl)] 0 1
                   eq_refl eq_refl _ eq_refl eq_refl _ _ _)).
  - discriminate.
  - vm_compute. reflexivity.
  - vm_compute. reflexivity.
  - lia.
Defined.

(** The run of the command on a manifest whose one entry does not match:
    the entry is reported as failed, the warning is written, the status is
    0.  Both source files behave so. *)
Lemma mismatch_run :
  Sha3sum.main (Demo.env false Demo.zeroSum Demo.mismatchFiles)
               (Demo.checkOptions true false)
  = ([Stdout ("checking  sums" ++ nl); Open "sums";
      Stdout ("checking files [f]" ++ nl); Open "f";
      Stdout ("f: FAILED" ++ nl);
      Stderr ("sha3sum: WARNING 1 of 1 computed checksums did NOT match"
              ++ nl)], Ret tt)
  /\ Part000.main (Demo.env false Demo.zeroSum Demo.mismatchFiles)
                  (Demo.checkOptions000 true false)
     = ([Open "sums"; Open "f"; Stdout ("f: FAILED" ++ nl);
         Stderr ("sha3sum: WARNING 1 of 1 computed checksums did NOT match"
                 ++ nl)], Ret tt).
Proof. split; vm_compute; reflexivity. Qed.

(** Without [--strict] a check run that returns never returns an error. *)
Lemma checkFiles_lenient_returns_nil
      (E : Env) (cf : string) (b p tag st : bool)
      (t : list Event) (r : option error) :
  Sha3sum.checkFiles E cf b p tag false st = (t, Ret r) -> r = None.
Proof.
  unfold Sha3sum.checkFiles. intros H.
  bind_inv H u. bind_inv H l. bind_inv H u'.
  apply bind_Ret_inv in H. destruct H as (ta & x & tb & Hx & H & _).
  destruct x as [e|[g bd]].
  - apply checkLoop_lenient in Hx. destruct Hx as (g & bd & Hx). discriminate.
  - bind_inv H u''. unfold ret in H. now inversion H.
Qed.

(** C6, what the code does.  An entry whose file cannot be opened ends the
    process in the loop of [checkFiles]: the error is written to standard
    error and the exit status is 1, with [strict] set or not, and no later
    entry is looked at. *)
Theorem checkLoop_unopenable_file_dies
        (E : Env) (l : Sha3sum.HashLists) (b p strict st : bool) (i : nat)
        (filename : string) (rest : list string) (good bad : Z)
        (e : string) (a : Z) (pf bf : bool) :
  nth_error (Sha3sum.algorithms l) i = Some a ->
  nth_error (Sha3sum.portables l) i = Some pf ->
  nth_error (Sha3sum.binaries l) i = Some bf ->
  filename <> "-" ->
  osOpen E filename = inr e ->
  Sha3sum.checkLoop E l b p strict st i (filename :: rest) good bad
  = ([Open filename; Stderr (e ++ nl)], Exit 1).
Proof.
  intros Ha Hp Hb Hn Ho. cbn [Sha3sum.checkLoop].
  unfold Sha3sum.orIndex, Sha3sum.index. rewrite Ha, Hp, Hb.
  rewrite bind_ret_l.
  assert (Hp' : (if p then ret true else ret pf) = ret (p || pf))
    by (destruct p; reflexivity).
  assert (Hb' : (if b then ret true else ret bf) = ret (b || bf))
    by (destruct b; reflexivity).
  rewrite Hp', bind_ret_l, Hb', bind_ret_l.
  rewrite (hashFile_open_failure E filename e a _ _ Hn Ho). reflexivity.
Qed.

Lemma checkLoop_unopenable_file_dies_witness :
  Sha3sum.checkLoop
    (Demo.env false Demo.zeroSum Demo.missingFiles)
    (Sha3sum.mkLists [Demo.digest0; Demo.digest0] ["missing"; "f"]
                     [256%Z; 256%Z] [false; false] [false; false])
    false false false false 0 ["missing"; "f"] 0 0
  = ([Open "missing";
      Stderr ("open missing: no such file or directory" ++ nl)], Exit 1).
Proof.
  apply (checkLoop_unopenable_file_dies
           (Demo.env false Demo.zeroSum Demo.missingFiles)
           (Sha3sum.mkLists [Demo.digest0; Demo.digest0] ["missing"; "f"]
                            [256%Z; 256%Z] [false; false] [false; false])
           false false false false 0 "missing" ["f"] 0 0
           "open missing: no such file or directory" 256 false false).
  - reflexivity.
  - reflexivity.
  - reflexivity.
  - discriminate.
  - vm_compute. reflexivity.
Defined.

(** The run of the command, without [--strict], on a manifest that names a
    missing file and then a file that matches: the process exits with
    status 1 at the missing file and the second file is never opened. *)
Lemma missing_file_run :
  Sha3sum.main (Demo.env false Demo.zeroSum Demo.missingFiles)
               (Demo.checkOptions false false)
  = ([Stdout ("checking  sums" ++ nl); Open "sums";
      Stdout ("checking files [missing f]" ++ nl); Open "missing";
      Stderr ("open missing: no such file or directory" ++ nl)], Exit 1).
Proof. vm_compute. reflexivity. Qed.

(** C7, what the code does.  When [windows] holds (the variable WINDIR is
    set), with neither [binary] nor [portable], the digest is that of the lines [ReadString] returned, each
    written as it was read: these lines are a prefix of the content of the
    file (what follows the last line feed is left out), so every carriage
    return is hashed. *)
Theorem text_mode_hashes_lines_unchanged
        (E : Env) (filename : string) (w : Z) (f : File) :
  windows E = true ->
  filename <> "-" ->
  osOpen E filename = inl f ->
  readErr f = None ->
  In w widths ->
  let lines := fst (Sha3sum.readStrings EmptyString (Sha3sum.fileData f)) in
  let rest := snd (Sha3sum.readStrings EmptyString (Sha3sum.fileData f)) in
  let written := fold_right append EmptyString lines in
  Sha3sum.hashFile E filename w false false
  = ([Open filename],
     Ret (fold_left (fun result b => result ++ fmt02x b)
                    (keccakSum E w (list_byte_of_string written))
                    EmptyString, None))
  /\ written ++ rest = Sha3sum.fileData f.
Proof.
  intros Hw Hn Ho He Hin lines rest written. split.
  - unfold Sha3sum.hashFile.
    rewrite (openInput_success E filename f Hn Ho). cbn [bind].
    rewrite Hw, He, (newHash_width w Hin). cbn [orb negb].
    pose proof (textLoop_writes_lines _ w [] None
                  (readStrings_lines (Sha3sum.fileData f) EmptyString)) as T.
    unfold error in T. rewrite T. reflexivity.
  - apply (readStrings_data (Sha3sum.fileData f) EmptyString).
Qed.

Lemma text_mode_hashes_lines_unchanged_witness :
  Sha3sum.hashFile (Demo.env true Demo.idSum Demo.crlfFiles) "crlf" 256
                   false false
  = ([Open "crlf"], Ret ("610d0a620d0a", None)).
Proof.
  refine (proj1 (text_mode_hashes_lines_unchanged
                   (Demo.env true Demo.idSum Demo.crlfFiles) "crlf" 256
                   (mkFile [Demo.bytes ("a" ++ str1 "013" ++ nl
                                        ++ "b" ++ str1 "013" ++ nl)] None)
                   eq_refl _ eq_refl eq_refl _)).
  - discriminate.
  - unfold widths. simpl. tauto.
Defined.

(** With a digest that shows its input, the text-mode digests of the two
    variants of the same text differ, and the text-mode digest of the
    variant with carriage returns is the binary-mode and the portable-mode
    one. *)
Lemma text_mode_crlf_run :
  let E := Demo.env true Demo.idSum Demo.crlfFiles in
  Sha3sum.hashFile E "crlf" 256 false false
  = ([Open "crlf"], Ret ("610d0a620d0a", None))
  /\ Sha3sum.hashFile E "lf" 256 false false
     = ([Open "lf"], Ret ("610a620a", None))
  /\ Sha3sum.hashFile E "crlf" 256 false true
     = ([Open "crlf"], Ret ("610d0a620d0a", None))
  /\ Sha3sum.hashFile E "crlf" 256 true false
     = ([Open "crlf"], Ret ("610d0a620d0a", None)).
Proof. repeat split; vm_compute; reflexivity. Qed.

(** In the binary and the portable mode the chunks are written as read. *)
Lemma raw_mode_hashes_chunks
      (E : Env) (filename : string) (w : Z) (f : File) (p b : bool) :
  b || p || negb (windows E) = true ->
  filename <> "-" ->
  osOpen E filename = inl f ->
  readErr f = None ->
  In w widths ->
  Sha3sum.hashFile E filename w p b
  = ([Open filename],
     Ret (fold_left (fun result x => result ++ fmt02x x)
                    (keccakSum E w (List.concat (chunks f)))
                    EmptyString, None)).
Proof.
  intros Hm Hn Ho He Hin. unfold Sha3sum.hashFile.
  rewrite (openInput_success E filename f Hn Ho). cbn [bind].
  rewrite Hm, He, (newHash_width w Hin).
  pose proof (binaryLoop_writes_chunks (chunks f) w [] None) as T.
  unfold error in T. rewrite T. reflexivity.
Qed.

(** C9, what the code of [src/sha3sum.go] does.  Whatever the width given
    with [-a], valid or not, the command goes on to open the first file
    named on the command line. *)
Theorem main_opens_file_for_any_width
        (E : Env) (o : Sha3sum.Options) (a : Z) (f : string)
        (rest : list string) :
  Sha3sum.optAlgorithm o = Some a ->
  Sha3sum.optCheck o = Some EmptyString ->
  Sha3sum.flagOf (Sha3sum.optVersion o) = false ->
  Sha3sum.flagOf (Sha3sum.optText o)
  && Sha3sum.flagOf (Sha3sum.optBinary o) = false ->
  Sha3sum.Args o = f :: rest ->
  f <> "-" ->
  exists t, trace (Sha3sum.main E o) = Open f :: t.
Proof.
  intros Ha Hc Hv Htb Hargs Hn.
  unfold Sha3sum.main.
  rewrite Ha, Hc, Hv, Htb, Hargs.
  cbn [Sha3sum.isNil Sha3sum.deref andb negb List.length Nat.eqb String.eqb].
  rewrite !bind_ret_l. cbn [andb negb]. rewrite !bind_ret_l.
  apply trace_bind_cons_ex, hashFiles_opens_first. exact Hn.
Qed.

Lemma main_opens_file_for_any_width_witness :
  exists t,
    trace (Sha3sum.main (Demo.env false Demo.zeroSum [("f", "x")])
                        (Demo.hashOptions 100 ["f"]))
    = Open "f" :: t.
Proof.
  apply (main_opens_file_for_any_width
           (Demo.env false Demo.zeroSum [("f", "x")])
           (Demo.hashOptions 100 ["f"]) 100 "f" []).
  - reflexivity.
  - reflexivity.
  - reflexivity.
  - reflexivity.
  - reflexivity.
  - discriminate.
Defined.

(** The run of [src/sha3sum.go] with [-a 100 f]: the file is opened, then
    the write to the hash that was never made panics. *)
Lemma bad_width_run :
  Sha3sum.main (Demo.env false Demo.zeroSum [("f", "x")])
               (Demo.hashOptions 100 ["f"])
  = ([Open "f"], Panic).
Proof. vm_compute. reflexivity. Qed.

(** The copy [src/unnamed/part_000] does reject a width that is not one of
    the four before anything else happens. *)
Lemma part000_rejects_bad_width
      (E : Env) (o : Part000.Options) (a : Z) :
  Part000.optAlgorithm o = Some a ->
  Part000.validAlgorithm a = false ->
  Part000.flagOf (Part000.optVer o) = false ->
  Part000.main E o = ([Stderr ("bad algorithm" ++ nl)], Exit 1).
Proof.
  intros Ha Hv Hver. unfold Part000.main.
  rewrite Hver, Ha.
  cbn [Part000.isNil Sha3sum.isNil Part000.deref Sha3sum.deref].
  rewrite bind_ret_l, Hv. cbn [negb]. rewrite bind_ret_l. reflexivity.
Qed.

(* ================================================================== *)
(** * Further properties: digests of files *)
(* ================================================================== *)

Module HashFacts.
Import GoString Regexp GoLib Proc Preds Shapes Sha3sum.
Import StringFacts ReaderFacts RunFacts.

Lemma fold_hex_acc (bs : list byte) (acc : string) :
  fold_left (fun result b => result ++ fmt02x b) bs acc
  = acc ++ hexString bs.
Proof.
  unfold hexString. revert acc.
  induction bs as [|b bs IH]; intros acc; simpl.
  - now rewrite append_nil_r.
  - rewrite IH, (IH (fmt02x b)). now rewrite append_assoc.
Qed.

Lemma hexString_cons (b : byte) (bs : list byte) :
  hexString (b :: bs) = fmt02x b ++ hexString bs.
Proof. unfold hexString at 1. simpl. apply fold_hex_acc. Qed.

(** One byte written with [%02x] and read back. *)
Lemma decode_fmt02x (b : byte) (s : string) :
  DecodeString (fmt02x b ++ s)
  = (b :: fst (DecodeString s), snd (DecodeString s)).
Proof.
  destruct b; simpl; destruct (DecodeString s); reflexivity.
Qed.

Lemma decode_hexString (bs : list byte) :
  DecodeString (hexString bs) = (bs, None).
Proof.
  induction bs as [|b bs IH]; [reflexivity|].
  rewrite hexString_cons, decode_fmt02x, IH. reflexivity.
Qed.

Lemma fmt02x_shape (b : byte) :
  String.length (fmt02x b) = 2 /\ allb isLowerHexByte (fmt02x b) = true.
Proof. destruct b; split; reflexivity. Qed.

(** [hashFile] up to the choice of the input. *)
Lemma openInput_source (E : Env) (filename : string) :
  openInput E filename
  = match source E filename with
    | inl f => ([openEvent filename], Ret f)
    | inr e => ([openEvent filename; Stderr (e ++ nl)], Exit 1)
    end.
Proof.
  unfold openInput, source, openEvent.
  destruct (filename =? "-")%string; [reflexivity|].
  destruct (osOpen E filename); reflexivity.
Qed.

Lemma newHash_cases (a : Z) :
  (In a widths /\ newHash a = Some (a, [])) \/ newHash a = None.
Proof.
  unfold newHash, widths.
  destruct (Z.eqb_spec a 224) as [->|_]; [left; simpl; auto|].
  destruct (Z.eqb_spec a 256) as [->|_]; [left; simpl; auto|].
  destruct (Z.eqb_spec a 384) as [->|_]; [left; simpl; auto|].
  destruct (Z.eqb_spec a 512) as [->|_]; [left; simpl; auto 6|].
  now right.
Qed.

(** Without a hash the loops return only when nothing was to be written. *)
Lemma binaryLoop_nil (cs : list (list byte)) (final : option error)
      (t : list Event) (x : Hash * option error) :
  binaryLoop None cs final = (t, Ret x) -> fst x = None.
Proof.
  revert t. induction cs as [|c cs IH]; intros t H.
  - simpl in H. unfold ret in H. now inversion H.
  - cbn [binaryLoop] in H. destruct (0 <? List.length c)%nat.
    + discriminate H.
    + eapply IH; eauto.
Qed.

Lemma textLoop_nil (lines : list string) (final : option error)
      (t : list Event) (x : Hash * option error) :
  textLoop None lines final = (t, Ret x) -> fst x = None.
Proof.
  destruct lines as [|line rest]; intros H.
  - simpl in H. unfold ret in H. now inversion H.
  - cbn [textLoop] in H. unfold sliceM in H. rewrite slice_whole in H.
    rewrite bind_ret_l in H.
    destruct (line =? str1 "013")%string.
    + destruct (slice line 0 (String.length line - 1)); discriminate H.
    + discriminate H.
Qed.

(** With a hash both loops return it with what they wrote. *)
Lemma loops_return (E : Env) (a : Z) (f : File) (c : bool) :
  exists data,
    (if c
     then binaryLoop (Some (a, [])) (chunks f) (readErr f)
     else textLoop (Some (a, []))
                   (fst (readStrings EmptyString (fileData f))) (readErr f))
    = ret (Some (a, data), readErr f).
Proof.
  destruct c.
  - eexists. apply binaryLoop_writes_chunks.
  - eexists. apply textLoop_writes_lines, readStrings_lines.
Qed.

Lemma hashFile_raw (E : Env) (filename : string) (w : Z) (f : File)
      (p b : bool) :
  b || p || negb (windows E) = true ->
  source E filename = inl f ->
  readErr f = None ->
  In w widths ->
  hashFile E filename w p b
  = ([openEvent filename],
     Ret (hexString (keccakSum E w (List.concat (chunks f))), None)).
Proof.
  intros Hm Ho He Hin. unfold hashFile.
  rewrite openInput_source, Ho. cbn [bind].
  rewrite Hm, (newHash_width w Hin).
  pose proof (binaryLoop_writes_chunks (chunks f) w [] (readErr f)) as T.
  rewrite T, He. reflexivity.
Qed.

Lemma hashFile_text (E : Env) (filename : string) (w : Z) (f : File) :
  windows E = true ->
  source E filename = inl f ->
  readErr f = None ->
  In w widths ->
  hashFile E filename w false false
  = ([openEvent filename],
     Ret (hexString
            (keccakSum E w
               (list_byte_of_string
                  (fold_right append EmptyString
                     (fst (readStrings EmptyString (fileData f)))))),
          None)).
Proof.
  intros Hw Ho He Hin. unfold hashFile.
  rewrite openInput_source, Ho. cbn [bind].
  rewrite Hw, (newHash_width w Hin). cbn [orb negb].
  pose proof (textLoop_writes_lines _ w [] (readErr f)
                (readStrings_lines (fileData f) EmptyString)) as T.
  rewrite T, He. reflexivity.
Qed.

(** A content without line feed gives [ReadString] no line. *)
Lemma readStrings_no_lf (data cur : string) :
  allb notNL data = true -> fst (readStrings cur data) = [].
Proof.
  revert cur. induction data as [|c d IH]; intros cur H; [reflexivity|].
  simpl in H. apply andb_true_iff in H as [Hc Hd].
  simpl. destruct (Ascii.eqb_spec c "010") as [->|_]; [discriminate Hc|].
  now apply IH.
Qed.

Lemma hashFile_ret_inv
      (E : Env) (filename : string) (a : Z) (p b : bool)
      (t : list Event) (h : string) (e : option error) :
  hashFile E filename a p b = (t, Ret (h, e)) ->
  e = None /\ In a widths /\ t = [openEvent filename]
  /\ exists f data,
       source E filename = inl f /\ readErr f = None
       /\ h = hexString (keccakSum E a data).
Proof.
  unfold hashFile. rewrite openInput_source.
  destruct (source E filename) as [f|e0]; [|discriminate].
  cbn [bind].
  destruct (newHash_cases a) as [[Hin Hn]|Hn]; rewrite Hn.
  - destruct (loops_return E a f
                (b || p || negb (windows E))) as [data ->].
    rewrite bind_ret_l.
    destruct (readErr f) as [e1|] eqn:He; [discriminate|].
    cbn. intros H. inversion H; subst.
    repeat split; auto. exists f, data. auto.
  - intros H.
    match type of H with
    | (let (_, _) := ?m in _) = _ => destruct m as [t1 r1] eqn:Hm
    end.
    inversion H; subst. clear H.
    apply bind_Ret_inv in Hm.
    destruct Hm as (t2 & [h' e'] & t3 & Hloop & Hk & _).
    assert (Hh : h' = None).
    { destruct (b || p || negb (windows E)).
      - apply binaryLoop_nil in Hloop. exact Hloop.
      - apply textLoop_nil in Hloop. exact Hloop. }
    subst h'. destruct e'; discriminate Hk.
Qed.

End HashFacts.

Import GoString Regexp GoLib Proc Preds Shapes.
Import StringFacts ReaderFacts RunFacts HashFacts.

(** Whenever [hashFile] returns, the error it returns is nil, the width is
    one of the four, the run has done nothing but take its input, and the
    string returned is the hex form of a digest of that width. *)
Theorem hashFile_returns
        (E : Env) (filename : string) (a : Z) (p b : bool)
        (t : list Event) (h : string) (e : option error) :
  Sha3sum.hashFile E filename a p b = (t, Ret (h, e)) ->
  e = None /\ In a widths /\ t = [openEvent filename]
  /\ exists f data,
       source E filename = inl f /\ readErr f = None
       /\ h = hexString (keccakSum E a data).
Proof. apply hashFile_ret_inv. Qed.

Lemma hashFile_returns_witness :
  (None : option error) = None /\ In 256%Z widths
  /\ [Open "f"] = [openEvent "f"]
  /\ exists f data,
       source (Demo.env false Demo.zeroSum Demo.mismatchFiles) "f" = inl f
       /\ readErr f = None
       /\ Demo.digest0
          = hexString (keccakSum (Demo.env false Demo.zeroSum
                                           Demo.mismatchFiles) 256 data).
Proof.
  apply (hashFile_returns
           (Demo.env false Demo.zeroSum Demo.mismatchFiles)
           "f" 256 false false [Open "f"] Demo.digest0 None).
  vm_compute. reflexivity.
Defined.

(** An input that cannot be opened, or whose reading ends with an error,
    ends the process in [hashFile]: the text of the error goes to standard
    error and the exit status is 1. *)
Theorem hashFile_io_error_dies
        (E : Env) (filename : string) (a : Z) (p b : bool) (e : string) :
  In a widths ->
  source E filename = inr e
  \/ (exists f, source E filename = inl f /\ readErr f = Some e) ->
  Sha3sum.hashFile E filename a p b
  = ([openEvent filename; Stderr (e ++ nl)], Exit 1).
Proof.
  intros Hin H. unfold Sha3sum.hashFile. rewrite openInput_source.
  destruct H as [Ho|(f & Ho & He)]; rewrite Ho; [reflexivity|].
  cbn [bind]. rewrite (newHash_width a Hin).
  destruct (loops_return E a f (b || p || negb (windows E))) as [data ->].
  rewrite bind_ret_l, He. reflexivity.
Qed.

Lemma hashFile_io_error_dies_witness :
  Sha3sum.hashFile (Demo.env false Demo.zeroSum Demo.missingFiles)
                   "missing" 256 false true
  = ([Open "missing";
      Stderr ("open missing: no such file or directory" ++ nl)], Exit 1).
Proof.
  apply (hashFile_io_error_dies
           (Demo.env false Demo.zeroSum Demo.missingFiles)
           "missing" 256 false true
           "open missing: no such file or directory").
  - unfold widths. simpl. tauto.
  - left. reflexivity.
Defined.

(** The hex string [hashFile] builds from a digest has two characters per
    byte, all of them digits or [a] to [f], and [hex.DecodeString] gives
    the digest back without error. *)
Theorem hexString_round_trip (sum : list byte) :
  DecodeString (hexString sum) = (sum, None)
  /\ String.length (hexString sum) = 2 * List.length sum
  /\ allb isLowerHexByte (hexString sum) = true.
Proof.
  split; [apply decode_hexString|].
  induction sum as [|b bs [IHl IHa]]; [split; reflexivity|].
  rewrite hexString_cons, length_append, allb_append, IHl, IHa.
  destruct (fmt02x_shape b) as [-> ->]. split; [simpl; lia | reflexivity].
Qed.

(** With [windows] set and neither mode flag, a file whose content ends
    with a line feed, or is empty, has the digest it has in the binary and
    portable modes. *)
Theorem text_mode_agrees_on_terminated_files
        (E : Env) (filename : string) (w : Z) (f : File) (p b : bool) :
  windows E = true ->
  source E filename = inl f ->
  readErr f = None ->
  In w widths ->
  snd (Sha3sum.readStrings EmptyString (Sha3sum.fileData f)) = EmptyString ->
  Sha3sum.hashFile E filename w false false
  = Sha3sum.hashFile E filename w p b.
Proof.
  intros Hw Ho He Hin Hrest.
  rewrite (hashFile_text E filename w f Hw Ho He Hin).
  pose proof (readStrings_data (Sha3sum.fileData f) EmptyString) as Hd.
  rewrite Hrest, append_nil_r in Hd.
  change (EmptyString ++ Sha3sum.fileData f) with (Sha3sum.fileData f) in Hd.
  destruct (b || p) eqn:Hbp.
  - rewrite Hd. unfold Sha3sum.fileData.
    rewrite list_byte_of_string_of_list_byte.
    symmetry. apply hashFile_raw; auto. now rewrite Hbp.
  - apply orb_false_iff in Hbp as [-> ->].
    now rewrite (hashFile_text E filename w f Hw Ho He Hin).
Qed.

Lemma text_mode_agrees_on_terminated_files_witness :
  Sha3sum.hashFile (Demo.env true Demo.idSum Demo.crlfFiles) "lf" 256
                   false false
  = Sha3sum.hashFile (Demo.env true Demo.idSum Demo.crlfFiles) "lf" 256
                     false true.
Proof.
  refine (text_mode_agrees_on_terminated_files
            (Demo.env true Demo.idSum Demo.crlfFiles) "lf" 256
            (mkFile [Demo.bytes ("a" ++ nl ++ "b" ++ nl)] None) false true
            eq_refl eq_refl eq_refl _ eq_refl).
  unfold widths. simpl. tauto.
Defined.

(** With [windows] set and neither mode flag, a file without any line feed
    has the digest of the empty input, whatever it holds. *)
Theorem text_mode_ignores_unterminated_file
        (E : Env) (filename : string) (w : Z) (f : File) :
  windows E = true ->
  source E filename = inl f ->
  readErr f = None ->
  In w widths ->
  allb notNL (Sha3sum.fileData f) = true ->
  Sha3sum.hashFile E filename w false false
  = ([openEvent filename], Ret (hexString (keccakSum E w []), None)).
Proof.
  intros Hw Ho He Hin Hn.
  rewrite (hashFile_text E filename w f Hw Ho He Hin).
  now rewrite (readStrings_no_lf _ EmptyString Hn).
Qed.

Lemma text_mode_ignores_unterminated_file_witness :
  Sha3sum.hashFile (Demo.env true Demo.idSum [("one", "abc")]) "one" 256
                   false false
  = ([Open "one"], Ret (EmptyString, None)).
Proof.
  refine (text_mode_ignores_unterminated_file
            (Demo.env true Demo.idSum [("one", "abc")]) "one" 256
            (mkFile [Demo.bytes "abc"] None)
            eq_refl eq_refl eq_refl _ eq_refl).
  unfold widths. simpl. tauto.
Defined.

(** The copy [src/unnamed/part_000] hashes a file as [src/sha3sum.go] does
    in its binary and portable modes and wherever [windows] is not set.
    The hash constructors of the copy are not among the sources; they are
    taken to be those of the environment, as for [src/sha3sum.go]. *)
Theorem part000_hashFile_is_raw_mode
        (E : Env) (filename : string) (a : Z) (p b : bool) :
  b || p || negb (windows E) = true ->
  Part000.hashFile E filename a = Sha3sum.hashFile E filename a p b.
Proof.
  intros Hm. unfold Part000.hashFile, Sha3sum.hashFile. rewrite Hm.
  reflexivity.
Qed.

Lemma part000_hashFile_is_raw_mode_witness :
  Part000.hashFile (Demo.env true Demo.idSum Demo.crlfFiles) "crlf" 256
  = Sha3sum.hashFile (Demo.env true Demo.idSum Demo.crlfFiles) "crlf" 256
                     true false.
Proof.
  apply (part000_hashFile_is_raw_mode
           (Demo.env true Demo.idSum Demo.crlfFiles) "crlf" 256 true false).
  reflexivity.
Defined.

(* ================================================================== *)
(** * Further properties: the two line grammars *)
(* ================================================================== *)

Module LineFacts.
Import GoString Regexp GoLib Proc Preds Shapes Sha3sum.
Import StringFacts RegexpFacts TagFacts ParseFacts NormalFacts GrammarFacts.

(** [parseTagHash] in terms of the submatches. *)
Lemma parseTagHash_exec (line : string) (c : caps) :
  exec tagRegexp line = Some c ->
  Atoi (c 1) = (digitsVal 0 (c 1), None) ->
  0 < String.length (c 2) ->
  parseTagHash line =
  let a := digitsVal 0 (c 1) in
  if validAlgorithm a
  then
    if (Z.of_nat (String.length (c 3%nat)) =? Z.quot a 4)%Z
    then mkParse (c 3) (c 2) a false false None
    else mkParse (c 3) (c 2) a false false (Some "bad hash")
  else mkParse EmptyString EmptyString a false false (Some "bad algorithm").
Proof.
  intros He Ha Hf. unfold parseTagHash, MatchString, FindStringSubmatch.
  rewrite He.
  cbn [negb ngroups tagRegexp seq map List.length Nat.eqb nth].
  rewrite Ha.
  cbn [algorithm withErr withAlgorithm zeroParse]. cbv zeta.
  destruct (validAlgorithm (digitsVal 0 (c 1%nat)));
    cbn [negb hash fname algorithm portable binary err
         withErr withAlgorithm withFname withHash zeroParse];
    [|reflexivity].
  destruct (String.length (c 2%nat)) eqn:Hl; [lia|].
  cbn [Nat.eqb].
  destruct (Z.of_nat (String.length (c 3%nat))
            =? Z.quot (digitsVal 0 (c 1%nat)) 4)%Z;
    reflexivity.
Qed.

Lemma digits_ascii (d : string) :
  allb isDigitByte d = true -> allb isAscii d = true.
Proof.
  apply allb_impl. intros c H. apply N.ltb_lt.
  rewrite isDigitByte_isDigit in H. now apply isDigit_lt.
Qed.

Lemma decodeRunes_ascii (a : string) :
  allb isAscii a = true -> decodeRunes a = asciiRunes a.
Proof.
  intros H. rewrite <- (append_nil_r a) at 1.
  rewrite (decodeRunes_ascii_prefix a EmptyString H).
  simpl. now rewrite app_nil_r.
Qed.

(** The runes of a line of the tagged shape. *)
Lemma decodeRunes_tag_line (d f sp1 sp2 h : string) (x : rune) :
  allb isDigitByte d = true ->
  decodeRunes f = [(x, f)] ->
  allb isSpaceByte sp1 = true -> allb isSpaceByte sp2 = true ->
  allb isHexByte h = true ->
  decodeRunes ("SHA3-" ++ d ++ " (" ++ f ++ ")" ++ sp1 ++ "=" ++ sp2 ++ h)
  = (asciiRunes "SHA3-" ++ asciiRunes d ++ asciiRunes " ("
     ++ (x, f) :: asciiRunes ")" ++ asciiRunes sp1 ++ asciiRunes "="
     ++ asciiRunes sp2 ++ asciiRunes h)%list.
Proof.
  intros Hd Hf H1 H2 Hh.
  rewrite (decodeRunes_ascii_prefix "SHA3-") by reflexivity.
  rewrite (decodeRunes_ascii_prefix d) by now apply digits_ascii.
  rewrite (decodeRunes_ascii_prefix " (") by reflexivity.
  change (")" ++ sp1 ++ "=" ++ sp2 ++ h)
    with (String ")" (sp1 ++ "=" ++ sp2 ++ h)).
  rewrite (decodeRunes_app_ascii f _ ")") by reflexivity.
  rewrite Hf.
  change (String ")" (sp1 ++ "=" ++ sp2 ++ h))
    with (")" ++ sp1 ++ "=" ++ sp2 ++ h).
  rewrite (decodeRunes_ascii_prefix ")") by reflexivity.
  rewrite (decodeRunes_ascii_prefix sp1)
    by (revert H1; apply allb_impl, isSpaceByte_ascii).
  rewrite (decodeRunes_ascii_prefix "=") by reflexivity.
  rewrite (decodeRunes_ascii_prefix sp2)
    by (revert H2; apply allb_impl, isSpaceByte_ascii).
  rewrite (decodeRunes_ascii h)
    by (revert Hh; apply allb_impl, isHexByte_ascii).
  reflexivity.
Qed.

(** The submatches of a line of the tagged shape. *)
Lemma tag_exec_complete (d f sp1 sp2 h : string) (x : rune) :
  String.length d = 3 -> allb isDigitByte d = true ->
  decodeRunes f = [(x, f)] -> notRParen x = true ->
  allb isSpaceByte sp1 = true -> allb isSpaceByte sp2 = true ->
  allb isHexByte h = true -> 0 < String.length h ->
  exists c,
    exec tagRegexp ("SHA3-" ++ d ++ " (" ++ f ++ ")" ++ sp1 ++ "=" ++ sp2 ++ h)
    = Some c
    /\ c 1 = d /\ c 2 = f /\ c 3 = h.
Proof.
  intros Hl Hd Hf Hx H1 H2 Hh Hhl.
  unfold exec.
  rewrite (decodeRunes_tag_line d f sp1 sp2 h x Hd Hf H1 H2 Hh).
  destruct d as [|a [|b [|c3 [|? ?]]]]; try discriminate Hl.
  simpl in Hd.
  apply andb_true_iff in Hd as [Ha Hd].
  apply andb_true_iff in Hd as [Hb Hd].
  apply andb_true_iff in Hd as [Hc _].
  rewrite isDigitByte_isDigit in Ha, Hb, Hc.
  destruct h as [|ch h]; [simpl in Hhl; lia|].
  assert (Hh' := Hh). simpl in Hh'. apply andb_true_iff in Hh' as [Hch Hh'].
  unfold isHexByte in Hch.
  cbn [pattern tagRegexp].
  rewrite run_lits.
  change (asciiRunes (String a (String b (String c3 EmptyString))))
    with [(byteVal a, str1 a); (byteVal b, str1 b); (byteVal c3, str1 c3)].
  change (asciiRunes (String ch h))
    with ((byteVal ch, str1 ch) :: asciiRunes h).
  cbn [run app]. rewrite Ha, Hb, Hc.
  rewrite run_lits. cbn [run]. rewrite Hx.
  rewrite run_lits. cbn [run].
  eexists. split.
  - apply starCls_greedy;
      [now apply Forall_asciiRunes | reflexivity |].
    cbv beta. rewrite run_lits. cbn [run].
    apply starCls_greedy;
      [now apply Forall_asciiRunes | exact (hex_not_space _ Hch) |].
    cbv beta iota. rewrite Hch.
    match goal with
    | |- starCls _ _ ?c ?k = _ =>
      pose proof (fun r => starCls_greedy isHex (asciiRunes h) [] c k r
                             (Forall_asciiRunes isHex h Hh') I) as G
    end.
    rewrite app_nil_r in G. apply G. reflexivity.
  - unfold setCap. cbn [Nat.eqb].
    rewrite consumed_cons3, consumed_cons1, consumed_all.
    cbn [bytesOf]. rewrite bytesOf_asciiRunes.
    repeat split; rewrite ?append_nil_r; reflexivity.
Qed.

Lemma normal_success_shape (line : string) :
  err (parseNormalHash line) = None ->
  exists h sp m f,
    line = h ++ " " ++ sp ++ m ++ f
    /\ allb isHexByte h = true /\ allb isSpaceByte sp = true
    /\ (m = EmptyString \/ m = "*" \/ m = "?")
    /\ 0 < String.length f /\ allb notNL f = true
    /\ hash (parseNormalHash line) = h
    /\ fname (parseNormalHash line) = f
    /\ In (algorithm (parseNormalHash line)) widths
    /\ (Z.of_nat (String.length h) * 4)%Z
       = algorithm (parseNormalHash line)
    /\ portable (parseNormalHash line) = (m =? "?")%string
    /\ binary (parseNormalHash line) = (m =? "*")%string
    /\ portable (parseNormalHash line)
       && binary (parseNormalHash line) = false.
Proof.
  intros Herr.
  destruct (exec normalRegexp line) as [c|] eqn:He.
  - rewrite (parseNormalHash_exec line c He) in *. cbv zeta in *.
    destruct (normal_exec_inv line c He)
      as (h & sp & m & f & Hline & Hh & Hhl & Hsp & Hm & Hf & Hn
          & Hc1 & Hc2 & Hc3).
    rewrite Hc1, Hc2, Hc3 in *.
    destruct ((Z.of_nat (String.length h) =? 56)
              || (Z.of_nat (String.length h) =? 64)
              || (Z.of_nat (String.length h) =? 96)
              || (Z.of_nat (String.length h) =? 128))%Z eqn:Hw;
      [|discriminate Herr].
    exists h, sp, m, f.
    cbn [hash fname algorithm portable
         binary].
    repeat split; auto.
    + unfold widths.
      repeat (apply orb_true_iff in Hw as [Hw|Hw]);
        apply Z.eqb_eq in Hw; rewrite Hw; simpl; auto 6.
    + destruct Hm as [->|[->| ->]]; reflexivity.
  - rewrite (parseNormalHash_nomatch line He) in Herr. discriminate Herr.
Qed.

Lemma tag_parsers_agree (line : string) :
  Part000.hash (Part000.parseTagHash line)
  = Sha3sum.hash (Sha3sum.parseTagHash line)
  /\ Part000.fname (Part000.parseTagHash line)
     = Sha3sum.fname (Sha3sum.parseTagHash line)
  /\ Part000.algorithm (Part000.parseTagHash line)
     = Sha3sum.algorithm (Sha3sum.parseTagHash line)
  /\ Part000.err (Part000.parseTagHash line)
     = Sha3sum.err (Sha3sum.parseTagHash line).
Proof.
  unfold Part000.parseTagHash, Sha3sum.parseTagHash, Part000.tagRegexp.
  destruct (MatchString Sha3sum.tagRegexp line); cbn [negb];
    [|repeat split].
  destruct (negb (List.length (FindStringSubmatch Sha3sum.tagRegexp line)
                  =? 4)%nat); [repeat split|].
  destruct (Atoi (nth 1 (FindStringSubmatch Sha3sum.tagRegexp line)
                      EmptyString)) as [a [e|]]; [repeat split|].
  cbn [Part000.algorithm Part000.withErr Part000.withAlgorithm
       Part000.zeroParse Sha3sum.algorithm Sha3sum.withErr
       Sha3sum.withAlgorithm Sha3sum.zeroParse].
  change (Part000.validAlgorithm a) with (Sha3sum.validAlgorithm a).
  destruct (Sha3sum.validAlgorithm a); cbn [negb]; [|repeat split].
  cbn [Part000.fname Part000.withFname Sha3sum.fname Sha3sum.withFname].
  destruct (String.length (nth 2 (FindStringSubmatch Sha3sum.tagRegexp line)
                               EmptyString) =? 0)%nat; [repeat split|].
  cbn [Part000.hash Part000.withHash Part000.algorithm Part000.withFname
       Part000.withErr Part000.withAlgorithm Part000.zeroParse
       Sha3sum.hash Sha3sum.withHash Sha3sum.algorithm Sha3sum.withFname
       Sha3sum.withErr Sha3sum.withAlgorithm Sha3sum.zeroParse].
  destruct (negb (Z.of_nat (String.length
                              (nth 3 (FindStringSubmatch Sha3sum.tagRegexp
                                                         line) EmptyString))
                  =? Z.quot a 4)%Z); repeat split.
Qed.

End LineFacts.

Import StringFacts RegexpFacts TagFacts ParseFacts NormalFacts GrammarFacts.
Import LineFacts.

(** What [parseTagHash] returns for a line of the tagged shape whose file
    name is a single character other than the closing parenthesis: the
    entry when the three digits are one of the four widths and the digest
    has a quarter of the width in characters; else the error [bad
    algorithm], with only the width set, or the error [bad hash], with
    width, file name and digest set. *)
Theorem parseTagHash_of_tagged_line
        (d f sp1 sp2 h : string) (x : rune) :
  String.length d = 3 -> allb isDigitByte d = true ->
  decodeRunes f = [(x, f)] -> notRParen x = true ->
  allb isSpaceByte sp1 = true -> allb isSpaceByte sp2 = true ->
  allb isHexByte h = true -> 0 < String.length h ->
  Sha3sum.parseTagHash
    ("SHA3-" ++ d ++ " (" ++ f ++ ")" ++ sp1 ++ "=" ++ sp2 ++ h)
  = let a := digitsVal 0 d in
    if Sha3sum.validAlgorithm a
    then
      if (Z.of_nat (String.length h) =? Z.quot a 4)%Z
      then Sha3sum.mkParse h f a false false None
      else Sha3sum.mkParse h f a false false (Some "bad hash")
    else Sha3sum.mkParse EmptyString EmptyString a false false
                         (Some "bad algorithm").
Proof.
  intros Hl Hd Hf Hx H1 H2 Hh Hhl.
  destruct (tag_exec_complete d f sp1 sp2 h x Hl Hd Hf Hx H1 H2 Hh Hhl)
    as (c & He & Hc1 & Hc2 & Hc3).
  rewrite (parseTagHash_exec _ c He).
  - rewrite Hc1, Hc2, Hc3. reflexivity.
  - rewrite Hc1. apply (Atoi_digits3 d Hl Hd).
  - rewrite Hc2. destruct f; [discriminate Hf | simpl; lia].
Qed.

Lemma parseTagHash_of_tagged_line_witness :
  Sha3sum.parseTagHash ("SHA3-" ++ "999" ++ " (" ++ "f" ++ ")" ++ " " ++ "="
                        ++ " " ++ "ab")
  = Sha3sum.mkParse EmptyString EmptyString 999 false false
                    (Some "bad algorithm").
Proof.
  apply (parseTagHash_of_tagged_line "999" "f" " " " " "ab" 102%N);
    try reflexivity.
  simpl. lia.
Defined.

(** [parseNormalHash] succeeds only on a line made of hex digits, one or
    more spaces, at most one mode character and a non-empty file name
    without line feed.  The entry has that digest, whose length is a
    quarter of the width returned, that file name, and the flag of the
    mode character, never both flags. *)
Theorem parseNormalHash_success_shape (line : string) :
  Sha3sum.err (Sha3sum.parseNormalHash line) = None ->
  exists h sp m f,
    line = h ++ " " ++ sp ++ m ++ f
    /\ allb isHexByte h = true /\ allb isSpaceByte sp = true
    /\ (m = EmptyString \/ m = "*" \/ m = "?")
    /\ 0 < String.length f /\ allb notNL f = true
    /\ Sha3sum.hash (Sha3sum.parseNormalHash line) = h
    /\ Sha3sum.fname (Sha3sum.parseNormalHash line) = f
    /\ In (Sha3sum.algorithm (Sha3sum.parseNormalHash line)) widths
    /\ (Z.of_nat (String.length h) * 4)%Z
       = Sha3sum.algorithm (Sha3sum.parseNormalHash line)
    /\ Sha3sum.portable (Sha3sum.parseNormalHash line) = (m =? "?")%string
    /\ Sha3sum.binary (Sha3sum.parseNormalHash line) = (m =? "*")%string
    /\ Sha3sum.portable (Sha3sum.parseNormalHash line)
       && Sha3sum.binary (Sha3sum.parseNormalHash line) = false.
Proof. apply normal_success_shape. Qed.

Lemma parseNormalHash_success_shape_witness :
  exists h sp m f,
    Demo.digest0 ++ "  *f" = h ++ " " ++ sp ++ m ++ f
    /\ allb isHexByte h = true /\ allb isSpaceByte sp = true
    /\ (m = EmptyString \/ m = "*" \/ m = "?")
    /\ 0 < String.length f /\ allb notNL f = true
    /\ Sha3sum.hash (Sha3sum.parseNormalHash (Demo.digest0 ++ "  *f")) = h
    /\ Sha3sum.fname (Sha3sum.parseNormalHash (Demo.digest0 ++ "  *f")) = f
    /\ In (Sha3sum.algorithm
             (Sha3sum.parseNormalHash (Demo.digest0 ++ "  *f"))) widths
    /\ (Z.of_nat (String.length h) * 4)%Z
       = Sha3sum.algorithm (Sha3sum.parseNormalHash (Demo.digest0 ++ "  *f"))
    /\ Sha3sum.portable (Sha3sum.parseNormalHash (Demo.digest0 ++ "  *f"))
       = (m =? "?")%string
    /\ Sha3sum.binary (Sha3sum.parseNormalHash (Demo.digest0 ++ "  *f"))
       = (m =? "*")%string
    /\ Sha3sum.portable (Sha3sum.parseNormalHash (Demo.digest0 ++ "  *f"))
       && Sha3sum.binary (Sha3sum.parseNormalHash (Demo.digest0 ++ "  *f"))
       = false.
Proof.
  apply (parseNormalHash_success_shape (Demo.digest0 ++ "  *f")).
  vm_compute. reflexivity.
Defined.

(** The tagged parsers of the two sources return the same digest, file
    name, width and error for every line. *)
Theorem part000_parseTagHash_agrees (line : string) :
  Part000.hash (Part000.parseTagHash line)
  = Sha3sum.hash (Sha3sum.parseTagHash line)
  /\ Part000.fname (Part000.parseTagHash line)
     = Sha3sum.fname (Sha3sum.parseTagHash line)
  /\ Part000.algorithm (Part000.parseTagHash line)
     = Sha3sum.algorithm (Sha3sum.parseTagHash line)
  /\ Part000.err (Part000.parseTagHash line)
     = Sha3sum.err (Sha3sum.parseTagHash line).
Proof. apply tag_parsers_agree. Qed.

(* ================================================================== *)
(** * Further properties: reading a manifest and verifying it *)
(* ================================================================== *)

Module VerifyFacts.
Import GoString Regexp GoLib Proc Preds Shapes Sha3sum.
Import StringFacts RegexpFacts TagFacts ParseFacts NormalFacts GrammarFacts.
Import ReaderFacts RunFacts HashFacts LineFacts.

Lemma fromHexChar_hex (c : ascii) :
  isHexByte c = true -> exists n, fromHexChar c = Some n.
Proof.
  destruct c as [[] [] [] [] [] [] [] []]; intros H;
    try discriminate H; eexists; reflexivity.
Qed.

(** A string of hex digits of even length decodes without error. *)
Lemma decode_hex_ok (s : string) :
  allb isHexByte s = true -> Nat.even (String.length s) = true ->
  snd (DecodeString s) = None.
Proof.
  assert (G : forall s,
             (allb isHexByte s = true -> Nat.even (String.length s) = true ->
              snd (DecodeString s) = None)
             /\ (forall c, allb isHexByte (String c s) = true ->
                           Nat.even (String.length (String c s)) = true ->
                           snd (DecodeString (String c s)) = None)).
  { clear s. induction s as [|q s [IH1 IH2]].
    - split; [reflexivity|]. intros c _ H. discriminate H.
    - split; [apply IH2|].
      intros c Hh He.
      simpl in Hh. apply andb_true_iff in Hh as [Hc Hh].
      apply andb_true_iff in Hh as [Hq Hs].
      destruct (fromHexChar_hex c Hc) as [n Hn].
      destruct (fromHexChar_hex q Hq) as [m Hm].
      cbn [DecodeString]. rewrite Hn, Hm.
      specialize (IH1 Hs He).
      destruct (DecodeString s) as [bs e]. exact IH1. }
  apply G.
Qed.

(** With [strict] the loop of [readHashes] returns only when every line
    has parsed. *)
Lemma strict_lines_parse (tag : bool) (rs : list (string * bool))
      (line : string) (acc : HashLists) (t : list Event) (l : HashLists) :
  readHashesLoop tag true rs line acc = (t, Ret l) ->
  Forall (fun ln => err (parseHash ln tag) = None) (assemble rs line).
Proof.
  revert line acc t.
  induction rs as [|[part prefix] rs IH]; intros line acc t H.
  - constructor.
  - cbn [readHashesLoop assemble] in *. destruct prefix; cbn [negb] in H.
    + eapply IH; eauto.
    + destruct (err (parseHash (line ++ part) tag)) as [e|] eqn:He.
      * discriminate H.
      * rewrite bind_ret_l in H. constructor; [exact He | eapply IH; eauto].
Qed.

Lemma width_even (a : Z) (n : nat) :
  validAlgorithm a = true -> Z.of_nat n = Z.quot a 4 -> Nat.even n = true.
Proof.
  intros Hv Hn. apply validAlgorithm_spec in Hv. simpl in Hv.
  assert (Hc : n = 56 \/ n = 64 \/ n = 96 \/ n = 128).
  { destruct Hv as [<-|[<-|[<-|[<-|[]]]]];
      match type of Hn with
      | _ = ?e => let v := eval vm_compute in e in change e with v in Hn
      end; lia. }
  destruct Hc as [->|[->|[->| ->]]]; reflexivity.
Qed.

(** The digest of an entry that parsed decodes without error. *)
Lemma parsed_hash_decodes (ln : string) (tag : bool) :
  err (parseHash ln tag) = None ->
  snd (DecodeString (hash (parseHash ln tag))) = None.
Proof.
  unfold parseHash. destruct tag; intros H.
  - destruct (parseTagHash_ok ln H)
      as (c & He & Ha & Hv & _ & _ & Hh & Hl & _).
    destruct (tag_exec_inv ln c He)
      as (d & f & sp1 & sp2 & h & x & _ & _ & _ & _ & _ & _ & _ & Hhex & _
          & _ & _ & Hc3).
    rewrite Hh, Hc3. rewrite Hc3 in Hl.
    apply decode_hex_ok; [exact Hhex|].
    eapply width_even; eauto.
  - destruct (normal_success_shape ln H)
      as (h & sp & m & f & _ & Hhex & _ & _ & _ & _ & Hh & _ & Hin & Hl & _).
    rewrite Hh. apply decode_hex_ok; [exact Hhex|].
    apply (width_even (algorithm (parseNormalHash ln))).
    + apply validAlgorithm_spec. exact Hin.
    + rewrite <- Hl. now rewrite Z.quot_mul by lia.
Qed.

(** The loop of [checkFiles] leaves with an error only at a digest of the
    manifest that does not decode. *)
Lemma checkLoop_error_free (E : Env) (l : HashLists) (b p strict st : bool)
      (rest : list string) (i : nat) (good bad : Z)
      (t : list Event) (r : error + Z * Z) :
  Forall (fun s => snd (DecodeString s) = None) (hashes l) ->
  checkLoop E l b p strict st i rest good bad = (t, Ret r) ->
  exists g bd, r = inr (g, bd).
Proof.
  intros Hall. revert i good bad t r.
  induction rest as [|filename rest IH]; intros i good bad t r H.
  - simpl in H. unfold ret in H. inversion H; subst. eauto.
  - cbn [checkLoop] in H.
    bind_inv H a. bind_inv H pf. bind_inv H bf.
    apply bind_Ret_inv in H. destruct H as (ta & x & tb & Hx & H & _).
    destruct x as [hex e].
    destruct (hashFile_ret_inv _ _ _ _ _ _ _ _ Hx)
      as (-> & _ & _ & f & data & _ & _ & ->).
    rewrite decode_hexString in H.
    apply bind_Ret_inv in H. destruct H as (tc & expected & td & Hi & H & _).
    assert (Hd : snd (DecodeString expected) = None).
    { unfold index in Hi.
      destruct (nth_error (hashes l) i) as [y|] eqn:Hn; [|discriminate Hi].
      unfold ret in Hi. inversion Hi; subst.
      apply nth_error_In in Hn.
      exact (proj1 (Forall_forall _ _) Hall _ Hn). }
    destruct (DecodeString expected) as [expectedHash e]. simpl in Hd.
    subst e.
    destruct (secureEqual E (keccakSum E a data) expectedHash);
      bind_inv H u; eapply IH; exact H.
Qed.

(** One turn of the loop of [checkFiles] on an entry whose file can be
    hashed and whose digest decodes. *)
Lemma checkLoop_step (E : Env) (l : HashLists) (bf pf strict st : bool)
      (i : nat) (fn : string) (rest : list string) (good bad : Z)
      (a : Z) (pi bi : bool) (expected : string) (ex : list byte)
      (t : list Event) (h : string) (e : option error) :
  nth_error (algorithms l) i = Some a ->
  nth_error (portables l) i = Some pi ->
  nth_error (binaries l) i = Some bi ->
  nth_error (hashes l) i = Some expected ->
  hashFile E fn a (pf || pi) (bf || bi) = (t, Ret (h, e)) ->
  DecodeString expected = (ex, None) ->
  exists sum,
    h = hexString sum
    /\ checkLoop E l bf pf strict st i (fn :: rest) good bad
       = let ok := secureEqual E sum ex in
         bind (t ++ (if st then []
                     else [Stdout (fn ++ (if ok then ": OK" else ": FAILED")
                                      ++ nl)]), Ret tt)%list
              (fun _ => checkLoop E l bf pf strict st (S i) rest
                                  (if ok then good + 1 else good)%Z
                                  (if ok then bad else bad + 1)%Z).
Proof.
  intros Ha Hp Hb Hh Hf Hd.
  destruct (hashFile_ret_inv _ _ _ _ _ _ _ _ Hf)
    as (-> & _ & _ & f & data & _ & _ & ->).
  exists (keccakSum E a data). split; [reflexivity|].
  cbn [checkLoop]. unfold orIndex, index. rewrite Ha, Hp, Hb, Hh.
  rewrite bind_ret_l.
  assert (Hp' : (if pf then ret true else ret pi) = ret (pf || pi))
    by (destruct pf; reflexivity).
  assert (Hb' : (if bf then ret true else ret bi) = ret (bf || bi))
    by (destruct bf; reflexivity).
  rewrite Hp', bind_ret_l, Hb', bind_ret_l, Hf.
  cbn [bind]. rewrite decode_hexString. cbv beta iota.
  rewrite bind_ret_l, Hd. cbv zeta.
  destruct (secureEqual E (keccakSum E a data) ex), st; cbn [negb bind];
    match goal with
    | |- context [checkLoop ?A ?B ?C ?D ?F ?G ?H ?I ?J ?K] =>
      destruct (checkLoop A B C D F G H I J K) as [t' r']
    end;
    rewrite <- ?app_assoc; reflexivity.
Qed.

Lemma lowerHex_isHex (s : string) :
  allb isLowerHexByte s = true -> allb isHexByte s = true.
Proof.
  apply allb_impl. intros c.
  destruct c as [[] [] [] [] [] [] [] []]; intros H;
    try discriminate H; reflexivity.
Qed.

Lemma hexString_shape (sum : list byte) :
  String.length (hexString sum) = 2 * List.length sum
  /\ allb isLowerHexByte (hexString sum) = true.
Proof.
  induction sum as [|b bs [IHl IHa]]; [split; reflexivity|].
  rewrite hexString_cons, length_append, allb_append, IHl, IHa.
  destruct (fmt02x_shape b) as [-> ->]. split; [simpl; lia | reflexivity].
Qed.

Lemma bytesEqb_refl (x : list byte) : Demo.bytesEqb x x = true.
Proof.
  induction x as [|c x IH]; [reflexivity|].
  simpl. rewrite IH. destruct c; reflexivity.
Qed.

(** Whenever [checkFiles] returns, it returns no error. *)
Lemma checkFiles_ret_nil (E : Env) (cf : string) (b p tag strict st : bool)
      (t : list Event) (r : option error) :
  Sha3sum.checkFiles E cf b p tag strict st = (t, Ret r) -> r = None.
Proof.
  unfold Sha3sum.checkFiles. intros H.
  bind_inv H u.
  apply bind_Ret_inv in H. destruct H as (ta & l & tb & Hr & H & _).
  bind_inv H u'.
  apply bind_Ret_inv in H. destruct H as (tc & x & td & Hx & H & _).
  destruct x as [e|[g bd]].
  - exfalso. destruct strict.
    + unfold Sha3sum.readHashes in Hr. bind_inv Hr u''.
      destruct (osOpen E cf) as [f|e0]; [|discriminate Hr].
      pose proof (strict_lines_parse _ _ _ _ _ _ Hr) as Hok.
      apply readHashesLoop_returns in Hr as [_ Hl].
      destruct (fold_appendParse
                  (map (fun ln => Sha3sum.parseHash ln tag)
                       (assemble (readLine E f) EmptyString))
                  Sha3sum.noLists) as (Hh & _).
      cbv zeta in Hh. rewrite <- Hl in Hh. simpl in Hh.
      apply checkLoop_error_free in Hx.
      * destruct Hx as (g & bd & Hx). discriminate Hx.
      * rewrite Hh, map_map. apply Forall_forall.
        intros s Hs. apply in_map_iff in Hs as (ln & <- & Hin).
        apply parsed_hash_decodes.
        exact (proj1 (Forall_forall _ _) Hok _ Hin).
    + apply checkLoop_lenient in Hx. destruct Hx as (g & bd & Hx).
      discriminate Hx.
  - bind_inv H u''. unfold ret in H. now inversion H.
Qed.

End VerifyFacts.

Import VerifyFacts.

(** Whenever [checkFiles] returns, it returns no error, with [strict] set
    or not: an unreadable file ends the process in [hashFile], the digest
    computed always decodes, and with [strict] every digest of the lists
    has passed the parser.  So [main] never takes its last [os.Exit(1)]
    after a check. *)
Theorem checkFiles_never_returns_error
        (E : Env) (cf : string) (b p tag strict st : bool)
        (t : list Event) (r : option error) :
  Sha3sum.checkFiles E cf b p tag strict st = (t, Ret r) -> r = None.
Proof. apply checkFiles_ret_nil. Qed.

Lemma checkFiles_never_returns_error_witness :
  (None : option error) = None.
Proof.
  apply (checkFiles_never_returns_error
           (Demo.env false Demo.zeroSum Demo.mismatchFiles)
           "sums" false false true true false
           [Stdout ("checking  sums" ++ nl); Open "sums";
            Stdout ("checking files [f]" ++ nl); Open "f";
            Stdout ("f: FAILED" ++ nl);
            Stderr ("sha3sum: WARNING 1 of 1 computed checksums did NOT match"
                    ++ nl)]
           None).
  vm_compute. reflexivity.
Defined.

(** One turn of the loop of [checkFiles]: for an entry whose file is hashed
    and whose recorded digest decodes, the entry is reported [OK] and
    counted as good when [securecompare.Equal] holds between the bytes of
    the digest computed and the bytes decoded from the manifest, else it is
    reported [FAILED] and counted as bad; with [status] nothing is printed.
    The mode of the file is the flag of the command line or that of the
    entry. *)
Theorem checkLoop_classifies_entry
        (E : Env) (l : Sha3sum.HashLists) (bf pf strict st : bool)
        (i : nat) (fn : string) (rest : list string) (good bad : Z)
        (a : Z) (pi bi : bool) (expected : string) (ex : list byte)
        (t : list Event) (h : string) (e : option error) :
  nth_error (Sha3sum.algorithms l) i = Some a ->
  nth_error (Sha3sum.portables l) i = Some pi ->
  nth_error (Sha3sum.binaries l) i = Some bi ->
  nth_error (Sha3sum.hashes l) i = Some expected ->
  Sha3sum.hashFile E fn a (pf || pi) (bf || bi) = (t, Ret (h, e)) ->
  DecodeString expected = (ex, None) ->
  exists sum,
    h = hexString sum
    /\ Sha3sum.checkLoop E l bf pf strict st i (fn :: rest) good bad
       = let ok := secureEqual E sum ex in
         bind (t ++ (if st then []
                     else [Stdout (fn ++ (if ok then ": OK" else ": FAILED")
                                      ++ nl)]), Ret tt)%list
              (fun _ => Sha3sum.checkLoop E l bf pf strict st (S i) rest
                                          (if ok then good + 1 else good)%Z
                                          (if ok then bad else bad + 1)%Z).
Proof. apply checkLoop_step. Qed.

Lemma checkLoop_classifies_entry_witness :
  exists sum,
    Demo.digest0 = hexString sum
    /\ Sha3sum.checkLoop
         (Demo.env false Demo.zeroSum Demo.mismatchFiles)
         (Sha3sum.mkLists [Demo.digestA] ["f"] [256%Z] [false] [false])
         false false false false 0 ["f"] 0 0
       = let ok := secureEqual
                     (Demo.env false Demo.zeroSum Demo.mismatchFiles) sum
                     (repeat "170"%byte 32) in
         bind ([Open "f"]
               ++ [Stdout ("f" ++ (if ok then ": OK" else ": FAILED") ++ nl)],
               Ret tt)%list
              (fun _ =>
                 Sha3sum.checkLoop
                   (Demo.env false Demo.zeroSum Demo.mismatchFiles)
                   (Sha3sum.mkLists [Demo.digestA] ["f"] [256%Z]
                                    [false] [false])
                   false false false false 1 []
                   (if ok then 0 + 1 else 0)%Z (if ok then 0 else 0 + 1)%Z).
Proof.
  apply (checkLoop_classifies_entry
           (Demo.env false Demo.zeroSum Demo.mismatchFiles)
           (Sha3sum.mkLists [Demo.digestA] ["f"] [256%Z] [false] [false])
           false false false false 0 "f" [] 0 0 256 false false
           Demo.digestA (repeat "170"%byte 32) [Open "f"] Demo.digest0 None);
    try reflexivity.
Defined.

(** Generating and then checking.  When [hashFile] gives a digest of the
    size of the width for a file, the line [hashFiles] prints for it in the
    plain grammar parses back to the same digest, name, width and mode, and
    the loop of [checkFiles] run on that entry reports the file [OK] and
    counts one good and no bad entry.  The file name must be one that the
    plain grammar can carry, and [securecompare.Equal] must hold between a
    slice and itself. *)
Theorem generated_plain_entry_verifies
        (E : Env) (fn : string) (w : Z) (p b strict st : bool)
        (t : list Event) (h : string) (e : option error) (line : string) :
  Sha3sum.hashFile E fn w p b = (t, Ret (h, e)) ->
  Z.of_nat (String.length h) = (w / 4)%Z ->
  (forall x, secureEqual E x x = true) ->
  p && b = false ->
  0 < String.length fn -> allb notNL fn = true ->
  (p = false -> b = false ->
   startsNot isSpaceByte fn /\ startsNot isModeByte fn) ->
  stdoutText (trace (Sha3sum.printEntry fn w h p b false)) = line ++ nl ->
  Sha3sum.parseHash line false = Sha3sum.mkParse h fn w p b None
  /\ Sha3sum.checkLoop
       E (Sha3sum.appendParse Sha3sum.noLists (Sha3sum.parseHash line false))
       false false strict st 0 [fn] 0 0
     = ((t ++ if st then [] else [Stdout (fn ++ ": OK" ++ nl)])%list,
        Ret (inr (1, 0)%Z)).
Proof.
  intros Hf Hlen Hrefl Hpb Hfn Hnl Hstart Hline.
  destruct (hashFile_ret_inv _ _ _ _ _ _ _ _ Hf)
    as (-> & Hin & Ht & f & data & Hsrc & Herr & Hh).
  assert (Hhex : allb isHexByte h = true).
  { rewrite Hh. apply lowerHex_isHex, hexString_shape. }
  destruct (roundtrip_lines h fn w p b Hin Hhex Hlen Hfn Hpb)
    as [Hplain _].
  destruct (Hplain Hnl Hstart) as (line0 & Hl0 & Hparse).
  rewrite Hl0 in Hline. apply append_inv_tail in Hline. subst line0.
  split; [exact Hparse|].
  rewrite Hparse.
  destruct (checkLoop_step E
              (Sha3sum.appendParse Sha3sum.noLists
                                   (Sha3sum.mkParse h fn w p b None))
              false false strict st 0 fn [] 0 0 w p b h
              (keccakSum E w data) t h None
              eq_refl eq_refl eq_refl eq_refl Hf)
    as (sum & Hsum & Heq).
  { rewrite Hh. apply decode_hexString. }
  assert (sum = keccakSum E w data).
  { pose proof Hsum as D. rewrite Hh in D.
    apply (f_equal DecodeString) in D. rewrite !decode_hexString in D.
    now inversion D. }
  subst sum. rewrite Heq. cbv zeta. rewrite Hrefl.
  destruct st; cbn [bind Sha3sum.checkLoop]; unfold ret; rewrite !app_nil_r;
    reflexivity.
Qed.

Lemma generated_plain_entry_verifies_witness :
  Sha3sum.parseHash (Demo.digest0 ++ "  *f") false
  = Sha3sum.mkParse Demo.digest0 "f" 256 false true None
  /\ Sha3sum.checkLoop
       (Demo.env false Demo.zeroSum Demo.mismatchFiles)
       (Sha3sum.appendParse Sha3sum.noLists
                            (Sha3sum.parseHash (Demo.digest0 ++ "  *f") false))
       false false false false 0 ["f"] 0 0
     = (([Open "f"] ++ [Stdout ("f" ++ ": OK" ++ nl)])%list,
        Ret (inr (1, 0)%Z)).
Proof.
  apply (generated_plain_entry_verifies
           (Demo.env false Demo.zeroSum Demo.mismatchFiles)
           "f" 256 false true false false [Open "f"] Demo.digest0 None
           (Demo.digest0 ++ "  *f")).
  - vm_compute. reflexivity.
  - vm_compute. reflexivity.
  - intros x. apply bytesEqb_refl.
  - reflexivity.
  - simpl. lia.
  - reflexivity.
  - discriminate.
  - vm_compute. reflexivity.
Defined.

(* ================================================================== *)
(** * Further properties: long lines, counters and the second copy *)
(* ================================================================== *)

Module LoopFacts.
Import GoString Regexp GoLib Proc Preds Shapes.
Import StringFacts ReaderFacts RunFacts HashFacts.

(** The parts of one line are joined before the line is parsed. *)
Lemma readHashesLoop_parts (tag strict : bool) (parts : list string)
      (last : string) (rs : list (string * bool)) (line : string)
      (acc : Sha3sum.HashLists) :
  Sha3sum.readHashesLoop tag strict (lineParts parts last ++ rs)%list line acc
  = Sha3sum.readHashesLoop tag strict ((joinParts parts last, false) :: rs)
                           line acc.
Proof.
  revert line. induction parts as [|part parts IH]; intros line.
  - reflexivity.
  - change (lineParts (part :: parts) last ++ rs)%list
      with ((part, true) :: (lineParts parts last ++ rs))%list.
    cbn [Sha3sum.readHashesLoop negb]. rewrite IH.
    cbn [Sha3sum.readHashesLoop negb joinParts fold_right].
    fold (joinParts parts last). now rewrite append_assoc.
Qed.

(** Parts with the prefix flag that nothing follows leave the lists as
    they are: the loop returns at the end of the file without looking at
    the line it has gathered. *)
Lemma readHashesLoop_unfinished (tag strict : bool) (tail : list string)
      (line : string) (acc : Sha3sum.HashLists) :
  Sha3sum.readHashesLoop tag strict (map (fun p => (p, true)) tail) line acc
  = ret acc.
Proof.
  revert line. induction tail as [|part tail IH]; intros line.
  - reflexivity.
  - cbn [map Sha3sum.readHashesLoop negb]. apply IH.
Qed.

Lemma readHashesLoop_pieces (tag strict : bool)
      (pieces : list (list string * string)) (tail : list string)
      (acc : Sha3sum.HashLists) :
  Sha3sum.readHashesLoop
    tag strict
    (flat_map (fun pl => lineParts (fst pl) (snd pl)) pieces
     ++ map (fun p => (p, true)) tail)%list
    EmptyString acc
  = Sha3sum.readHashesLoop
      tag strict (map (fun pl => (joinParts (fst pl) (snd pl), false)) pieces)
      EmptyString acc.
Proof.
  revert acc. induction pieces as [|[parts last] pieces IH]; intros acc.
  - cbn [flat_map map app]. apply readHashesLoop_unfinished.
  - cbn [flat_map map fst snd]. rewrite <- app_assoc.
    rewrite readHashesLoop_parts.
    cbn [Sha3sum.readHashesLoop negb].
    destruct (Sha3sum.err
                (Sha3sum.parseHash (EmptyString ++ joinParts parts last) tag))
      as [e|]; [destruct strict|]; rewrite ?bind_ret_l, ?IH; reflexivity.
Qed.

(** Whatever [ReadLine] returns before its error is made of completed
    lines, each in one or more parts, and then of parts with the prefix
    flag that nothing completes. *)
Lemma readLine_results_shape (rs : list (string * bool)) :
  exists (pieces : list (list string * string)) (tail : list string),
    rs = (flat_map (fun pl => lineParts (fst pl) (snd pl)) pieces
          ++ map (fun p => (p, true)) tail)%list.
Proof.
  induction rs as [|[part prefix] rs (pieces & tail & ->)].
  - exists [], []. reflexivity.
  - destruct prefix.
    + destruct pieces as [|[parts last] pieces].
      * exists [], (part :: tail). reflexivity.
      * exists ((part :: parts, last) :: pieces), tail. reflexivity.
    + exists (([], part) :: pieces), tail. reflexivity.
Qed.

End LoopFacts.

Import LoopFacts.

(** The reader sees the lines that [ReadLine] completes.  Parts delivered
    with the prefix flag are joined with the parts that follow, up to a
    part without the flag, and the line they make is parsed, wherever the
    line was cut.  Parts with the flag that the end of the file follows
    ([tail]) are dropped: they give no entry and, with [strict], no error.
    So a run returns the same lists, or ends the same way, as the run
    whose [ReadLine] gives each completed line in one part and nothing
    else.  Every list of results of [ReadLine] has this form
    ([readLine_results_shape]). *)
Theorem readHashes_joins_long_lines
        (E E' : Env) (name : string) (tag strict : bool) (f f' : File)
        (pieces : list (list string * string)) (tail : list string) :
  osOpen E name = inl f ->
  osOpen E' name = inl f' ->
  readLine E f
  = (flat_map (fun pl => lineParts (fst pl) (snd pl)) pieces
     ++ map (fun p => (p, true)) tail)%list ->
  readLine E' f'
  = map (fun pl => (joinParts (fst pl) (snd pl), false)) pieces ->
  Sha3sum.readHashes E name tag strict = Sha3sum.readHashes E' name tag strict.
Proof.
  intros Ho Ho' Hr Hr'. unfold Sha3sum.readHashes.
  rewrite Ho, Ho', Hr, Hr', readHashesLoop_pieces. reflexivity.
Qed.

Lemma readHashes_joins_long_lines_witness :
  Sha3sum.readHashes
    (mkEnv false (Demo.lookup Demo.mismatchFiles) (mkFile [] None)
           (fun _ => [("SHA3-256 (f) = ", true); (Demo.digestA, false);
                      ("SHA3-256 (g) = ", true); ("junk", true)])
           Demo.zeroSum Demo.bytesEqb)
    "sums" true true
  = Sha3sum.readHashes
      (mkEnv false (Demo.lookup Demo.mismatchFiles) (mkFile [] None)
             (fun _ => [("SHA3-256 (f) = " ++ Demo.digestA, false)])
             Demo.zeroSum Demo.bytesEqb)
      "sums" true true.
Proof.
  apply (readHashes_joins_long_lines
           (mkEnv false (Demo.lookup Demo.mismatchFiles) (mkFile [] None)
                  (fun _ => [("SHA3-256 (f) = ", true);
                             (Demo.digestA, false);
                             ("SHA3-256 (g) = ", true); ("junk", true)])
                  Demo.zeroSum Demo.bytesEqb)
           (mkEnv false (Demo.lookup Demo.mismatchFiles) (mkFile [] None)
                  (fun _ => [("SHA3-256 (f) = " ++ Demo.digestA, false)])
                  Demo.zeroSum Demo.bytesEqb)
           "sums" true true
           (mkFile [Demo.bytes ("SHA3-256 (f) = " ++ Demo.digestA ++ nl)]
                   None)
           (mkFile [Demo.bytes ("SHA3-256 (f) = " ++ Demo.digestA ++ nl)]
                   None)
           [(["SHA3-256 (f) = "], Demo.digestA)]
           ["SHA3-256 (g) = "; "junk"]);
    reflexivity.
Defined.

(** The plain parser of [src/unnamed/part_000] returns an error and no
    field for every line: [bad line] when the line matches the pattern,
    which has two groups where the code asks for four submatches, and
    [bad checksum line] when it does not. *)
Theorem part000_plain_parser_rejects_every_line (line : string) :
  Part000.parseNormalHash line
  = Part000.mkParse EmptyString EmptyString 0
      (Some (if MatchString Part000.normalRegexp line
             then "bad line" else "bad checksum line")).
Proof.
  unfold Part000.parseNormalHash, MatchString, FindStringSubmatch.
  destruct (exec Part000.normalRegexp line); reflexivity.
Qed.

(** When the loop of [checkFiles] runs to its end, neither counter has
    gone down and together they have grown by at most the number of
    entries: an entry is counted once, or not at all. *)
Theorem checkLoop_counters_bounded
        (E : Env) (l : Sha3sum.HashLists) (b p strict st : bool)
        (rest : list string) (i : nat) (good bad : Z)
        (t : list Event) (g' b' : Z) :
  Sha3sum.checkLoop E l b p strict st i rest good bad
  = (t, Ret (inr (g', b'))) ->
  (good <= g')%Z /\ (bad <= b')%Z
  /\ (g' + b' <= good + bad + Z.of_nat (List.length rest))%Z.
Proof.
  revert i good bad t.
  induction rest as [|filename rest IH]; intros i good bad t H.
  - simpl in H. unfold ret in H. inversion H; subst. simpl. lia.
  - cbn [Sha3sum.checkLoop] in H.
    bind_inv H a. bind_inv H pf. bind_inv H bf.
    bind_inv H x. destruct x as [hex [e|]].
    { destruct strict; [discriminate H|].
      apply IH in H. cbn [List.length]. lia. }
    destruct (DecodeString hex) as [actual [e|]].
    { destruct strict; [discriminate H|].
      apply IH in H. cbn [List.length]. lia. }
    bind_inv H expected.
    destruct (DecodeString expected) as [expectedHash [e|]].
    { destruct strict; [discriminate H|].
      apply IH in H. cbn [List.length]. lia. }
    destruct (secureEqual E actual expectedHash);
      bind_inv H u; apply IH in H; cbn [List.length]; lia.
Qed.

Lemma checkLoop_counters_bounded_witness :
  (0 <= 0)%Z /\ (0 <= 1)%Z /\ (0 + 1 <= 0 + 0 + Z.of_nat 1)%Z.
Proof.
  apply (checkLoop_counters_bounded
           (Demo.env false Demo.zeroSum Demo.mismatchFiles)
           (Sha3sum.mkLists [Demo.digestA] ["f"] [256%Z] [false] [false])
           false false false false ["f"] 0 0 0
           [Open "f"; Stdout ("f: FAILED" ++ nl)] 0 1).
  vm_compute. reflexivity.
Defined.

(** In [src/unnamed/part_000] the loop of [checkFiles], when it runs to
    its end, has counted every entry as good or as bad: an entry whose
    digest does not decode is counted as bad, not skipped. *)
Theorem part000_checkLoop_counts_every_entry
        (E : Env) (l : Part000.HashLists) (strict st : bool)
        (rest : list string) (i : nat) (good bad : Z)
        (t : list Event) (g' b' : Z) :
  Part000.checkLoop E l strict st i rest good bad
  = (t, Ret (inr (g', b'))) ->
  (good <= g')%Z /\ (bad <= b')%Z
  /\ (g' + b' = good + bad + Z.of_nat (List.length rest))%Z.
Proof.
  revert i good bad t.
  induction rest as [|filename rest IH]; intros i good bad t H.
  - simpl in H. unfold ret in H. inversion H; subst. simpl. lia.
  - cbn [Part000.checkLoop] in H.
    bind_inv H a. bind_inv H x. destruct x as [hex err].
    assert (K : forall (m : M unit) (t' : list Event),
               bind m (fun _ : unit =>
                         Part000.checkLoop E l strict st (S i) rest
                                           (good + 1) bad)
               = (t', Ret (inr (g', b'))) \/
               bind m (fun _ : unit =>
                         Part000.checkLoop E l strict st (S i) rest
                                           good (bad + 1))
               = (t', Ret (inr (g', b'))) ->
               (good <= g')%Z /\ (bad <= b')%Z
               /\ (g' + b'
                   = good + bad + Z.of_nat (List.length (filename :: rest)))%Z).
    { intros m t' [K|K]; bind_inv K u; apply IH in K; cbn [List.length];
        lia. }
    destruct err as [e|], strict; try (unfold ret in H; discriminate H);
      destruct (DecodeString hex) as [actual [e2|]];
      try (unfold ret in H; discriminate H);
      bind_inv H expected;
      destruct (DecodeString expected) as [expectedHash [e3|]];
      try (unfold ret in H; discriminate H);
      cbn [Part000.isSome negb andb] in H;
      try (destruct (secureEqual E actual expectedHash));
      eapply K; eauto.
Qed.

Lemma part000_checkLoop_counts_every_entry_witness :
  (0 <= 0)%Z /\ (0 <= 1)%Z /\ (0 + 1 = 0 + 0 + Z.of_nat 1)%Z.
Proof.
  apply (part000_checkLoop_counts_every_entry
           (Demo.env false Demo.zeroSum Demo.mismatchFiles)
           (Part000.mkLists ["xyz"] ["f"] [256%Z])
           false false ["f"] 0 0 0
           [Open "f"; Stdout ("f: FAILED" ++ nl)] 0 1).
  vm_compute. reflexivity.
Defined.

(* ================================================================== *)
(** * Further properties: generating and the command line *)
(* ================================================================== *)

Module MainFacts.
Import GoString Regexp GoLib Proc Preds Shapes Sha3sum.
Import StringFacts ReaderFacts RunFacts HashFacts.

Lemma printEntry_returns (fn : string) (w : Z) (h : string)
      (p b tag : bool) :
  printEntry fn w h p b tag = (trace (printEntry fn w h p b tag), Ret tt).
Proof. unfold printEntry. destruct tag, p, b; reflexivity. Qed.

Lemma hashFilesLoop_entries (E : Env) (files hs : list string) (w : Z)
      (p b tag : bool) (err : option error) (rest : list string) :
  Forall2 (fun fn h => exists t e, hashFile E fn w p b = (t, Ret (h, e)))
          files hs ->
  hashFilesLoop E (files ++ rest) w p b tag err
  = bind (flat_map (entryEvents w p b tag) (combine files hs), Ret tt)
         (fun _ => hashFilesLoop E rest w p b tag err).
Proof.
  intros H. induction H as [|fn h files hs (t & e & Hf) _ IH].
  - simpl. destruct (hashFilesLoop E rest w p b tag err). reflexivity.
  - destruct (hashFile_ret_inv _ _ _ _ _ _ _ _ Hf) as (-> & _ & -> & _).
    cbn [app hashFilesLoop combine flat_map]. rewrite Hf. cbn [bind].
    rewrite printEntry_returns, IH. cbn [bind].
    destruct (hashFilesLoop E rest w p b tag err) as [t' r'].
    unfold entryEvents at 2. cbn [fst snd app].
    now rewrite <- app_assoc.
Qed.

End MainFacts.

Import MainFacts.

(** In generate mode, for files that [hashFile] all hashes, [hashFiles]
    takes the files in the order given and prints one line for each, in
    the grammar chosen, and returns no error.  The list names standard
    input at most once: [hashFile] closes [os.Stdin] after the first [-],
    so each file is hashed as it would be alone. *)
Theorem hashFiles_prints_one_line_per_file
        (E : Env) (files hs : list string) (w : Z) (p b tag : bool) :
  files <> [] ->
  stdinUses files <= 1 ->
  Forall2 (fun fn h =>
             exists t e, Sha3sum.hashFile E fn w p b = (t, Ret (h, e)))
          files hs ->
  Sha3sum.hashFiles E files w p b tag
  = (flat_map (entryEvents w p b tag) (combine files hs), Ret None).
Proof.
  intros Hne _ H. unfold Sha3sum.hashFiles.
  destruct files as [|fn files]; [congruence|]. cbn [List.length Nat.eqb].
  rewrite <- (app_nil_r (fn :: files)) at 1.
  rewrite (hashFilesLoop_entries E (fn :: files) hs w p b tag None [] H).
  cbn [bind Sha3sum.hashFilesLoop]. unfold ret. now rewrite app_nil_r.
Qed.

Lemma hashFiles_prints_one_line_per_file_witness :
  Sha3sum.hashFiles (Demo.env false Demo.zeroSum Demo.mismatchFiles)
                    ["f"; "sums"] 256 false true false
  = ([Open "f"; Stdout (Demo.digest0 ++ "  "); Stdout "*";
      Stdout ("f" ++ nl);
      Open "sums"; Stdout (Demo.digest0 ++ "  "); Stdout "*";
      Stdout ("sums" ++ nl)], Ret None).
Proof.
  apply (hashFiles_prints_one_line_per_file
           (Demo.env false Demo.zeroSum Demo.mismatchFiles)
           ["f"; "sums"] [Demo.digest0; Demo.digest0] 256 false true false).
  - discriminate.
  - vm_compute. lia.
  - repeat constructor; eexists; eexists; vm_compute; reflexivity.
Defined.

(** In generate mode the first file that cannot be hashed ends the run:
    the lines of the files before it have been printed, its error is on
    standard error, and no later file is opened.  The files up to that one
    name standard input at most once, so each of them is hashed as it
    would be alone. *)
Theorem hashFiles_stops_at_first_failure
        (E : Env) (pre hs : list string) (bad : string) (post : list string)
        (w : Z) (p b tag : bool) (tb : list Event) (c : Z) :
  stdinUses (pre ++ [bad]) <= 1 ->
  Forall2 (fun fn h =>
             exists t e, Sha3sum.hashFile E fn w p b = (t, Ret (h, e)))
          pre hs ->
  Sha3sum.hashFile E bad w p b = (tb, Exit c) ->
  Sha3sum.hashFiles E (pre ++ bad :: post) w p b tag
  = ((flat_map (entryEvents w p b tag) (combine pre hs) ++ tb)%list, Exit c).
Proof.
  intros _ H Hb. unfold Sha3sum.hashFiles.
  assert (Hl : (List.length (pre ++ bad :: post) =? 0)%nat = false)
    by (rewrite length_app; simpl; apply Nat.eqb_neq; lia).
  rewrite Hl.
  rewrite (hashFilesLoop_entries E pre hs w p b tag None (bad :: post) H).
  cbn [bind Sha3sum.hashFilesLoop]. rewrite Hb. reflexivity.
Qed.

Lemma hashFiles_stops_at_first_failure_witness :
  Sha3sum.hashFiles (Demo.env false Demo.zeroSum Demo.missingFiles)
                    (["f"] ++ "missing" :: ["sums"]) 256 false false false
  = (([Open "f"; Stdout (Demo.digest0 ++ "  "); Stdout ("f" ++ nl)]
      ++ [Open "missing";
          Stderr ("open missing: no such file or directory" ++ nl)])%list,
     Exit 1).
Proof.
  apply (hashFiles_stops_at_first_failure
           (Demo.env false Demo.zeroSum Demo.missingFiles)
           ["f"] [Demo.digest0] "missing" ["sums"] 256 false false false
           [Open "missing";
            Stderr ("open missing: no such file or directory" ++ nl)] 1).
  - vm_compute. lia.
  - repeat constructor; eexists; eexists; vm_compute; reflexivity.
  - vm_compute. reflexivity.
Defined.

(** [--quiet] changes nothing in [src/sha3sum.go]: the run of [main] is
    the same with the flag set, unset or nil. *)
Theorem main_ignores_quiet
        (E : Env) (o : Sha3sum.Options) (st q q' strict : option bool) :
  Sha3sum.main E (withCheckFlags st q strict o)
  = Sha3sum.main E (withCheckFlags st q' strict o).
Proof.
  unfold Sha3sum.main, withCheckFlags.
  cbn [Sha3sum.optAlgorithm Sha3sum.optBinary Sha3sum.optCheck
       Sha3sum.optPortable Sha3sum.optText Sha3sum.optTag Sha3sum.optStatus
       Sha3sum.optQuiet Sha3sum.optStrict Sha3sum.optVersion Sha3sum.Args].
  destruct (Sha3sum.optCheck o) as [c|]; cbn [Sha3sum.isNil Sha3sum.deref];
    rewrite ?bind_ret_l; cbn [andb]; reflexivity.
Qed.

(** Without [--check], [src/sha3sum.go] takes no notice of [--status],
    [--quiet] and [--strict]: the run of [main] is the same whatever the
    three flags are, and the message kept for this case is not printed
    on their account. *)
Theorem main_generate_ignores_check_flags
        (E : Env) (o : Sha3sum.Options)
        (st q strict st' q' strict' : option bool) :
  Sha3sum.optCheck o = Some EmptyString ->
  Sha3sum.main E (withCheckFlags st q strict o)
  = Sha3sum.main E (withCheckFlags st' q' strict' o).
Proof.
  intros Hc. unfold Sha3sum.main, withCheckFlags.
  cbn [Sha3sum.optAlgorithm Sha3sum.optBinary Sha3sum.optCheck
       Sha3sum.optPortable Sha3sum.optText Sha3sum.optTag Sha3sum.optStatus
       Sha3sum.optQuiet Sha3sum.optStrict Sha3sum.optVersion Sha3sum.Args].
  rewrite Hc. cbn [Sha3sum.isNil Sha3sum.deref String.eqb].
  rewrite ?bind_ret_l. cbn [andb]. reflexivity.
Qed.

Lemma main_generate_ignores_check_flags_witness :
  Sha3sum.main (Demo.env false Demo.zeroSum Demo.mismatchFiles)
               (withCheckFlags (Some true) (Some true) (Some true)
                               (Demo.hashOptions 256 ["f"]))
  = Sha3sum.main (Demo.env false Demo.zeroSum Demo.mismatchFiles)
                 (withCheckFlags (Some false) (Some false) (Some false)
                                 (Demo.hashOptions 256 ["f"])).
Proof.
  apply (main_generate_ignores_check_flags
           (Demo.env false Demo.zeroSum Demo.mismatchFiles)
           (Demo.hashOptions 256 ["f"])).
  reflexivity.
Defined.

(** [src/unnamed/part_000] without [--check]: any of [--status], [--quiet]
    and [--strict] ends the run with a message and status 1 before a file
    is touched. *)
Theorem part000_generate_rejects_check_flags
        (E : Env) (o : Part000.Options) (a : Z) :
  Part000.flagOf (Part000.optVer o) = false ->
  Part000.optAlgorithm o = Some a ->
  Part000.validAlgorithm a = true ->
  Part000.optCheckFilename o = None
  \/ Part000.optCheckFilename o = Some EmptyString ->
  Part000.flagOf (Part000.optStat o) || Part000.flagOf (Part000.optQ o)
  || Part000.flagOf (Part000.optStrict o) = true ->
  Part000.main E o
  = ([Stderr ("silent, warn, strict and/or quiet can only be used with check"
              ++ nl)], Exit 1).
Proof.
  intros Hv Ha Hval Hc Hf. unfold Part000.main.
  rewrite Hv, Ha.
  cbn [Part000.isNil Sha3sum.isNil Part000.deref Sha3sum.deref].
  rewrite bind_ret_l, Hval. cbn [negb]. rewrite bind_ret_l.
  destruct Hc as [-> | ->];
    cbn [Part000.isNil Sha3sum.isNil Part000.deref Sha3sum.deref String.eqb];
    rewrite ?bind_ret_l; rewrite Hf; reflexivity.
Qed.

Lemma part000_generate_rejects_check_flags_witness :
  Part000.main (Demo.env false Demo.zeroSum Demo.mismatchFiles)
               (Part000.mkOptions (Some 256%Z) (Some EmptyString) (Some false)
                                  (Some false) (Some false) (Some true)
                                  (Some false) ["f"])
  = ([Stderr ("silent, warn, strict and/or quiet can only be used with check"
              ++ nl)], Exit 1).
Proof.
  apply (part000_generate_rejects_check_flags
           (Demo.env false Demo.zeroSum Demo.mismatchFiles)
           (Part000.mkOptions (Some 256%Z) (Some EmptyString) (Some false)
                              (Some false) (Some false) (Some true)
                              (Some false) ["f"]) 256);
    try reflexivity.
  right. reflexivity.
Defined.

(** With no file on the command line, generation reads standard input: no
    file is opened and the one line printed carries the name [-]. *)
Theorem main_without_files_reads_stdin
        (E : Env) (o : Sha3sum.Options) (a : Z) :
  Sha3sum.optAlgorithm o = Some a ->
  In a widths ->
  Sha3sum.optCheck o = Some EmptyString ->
  Sha3sum.flagOf (Sha3sum.optVersion o) = false ->
  Sha3sum.flagOf (Sha3sum.optText o)
  && Sha3sum.flagOf (Sha3sum.optBinary o) = false ->
  Sha3sum.Args o = [] ->
  readErr (stdin E) = None ->
  Sha3sum.flagOf (Sha3sum.optBinary o)
  || Sha3sum.flagOf (Sha3sum.optPortable o) || negb (windows E) = true ->
  Sha3sum.main E o
  = (UseStdin
     :: trace (Sha3sum.printEntry
                 "-" a
                 (hexString (keccakSum E a (List.concat (chunks (stdin E)))))
                 (Sha3sum.flagOf (Sha3sum.optPortable o))
                 (Sha3sum.flagOf (Sha3sum.optBinary o))
                 (Sha3sum.flagOf (Sha3sum.optTag o))),
     Ret tt).
Proof.
  intros Ha Hin Hc Hv Htb Hargs He Hm.
  unfold Sha3sum.main. rewrite Ha, Hc, Hv, Htb, Hargs.
  cbn [Sha3sum.isNil Sha3sum.deref andb negb List.length Nat.eqb String.eqb].
  rewrite !bind_ret_l. cbn [andb negb]. rewrite !bind_ret_l.
  unfold Sha3sum.hashFiles.
  cbn [List.length Nat.eqb Sha3sum.hashFilesLoop].
  rewrite (hashFile_raw E "-" a (stdin E) _ _ Hm eq_refl He Hin).
  cbn [bind].
  pose proof (printEntry_returns
                "-" a
                (hexString (keccakSum E a (List.concat (chunks (stdin E)))))
                (Sha3sum.flagOf (Sha3sum.optPortable o))
                (Sha3sum.flagOf (Sha3sum.optBinary o))
                (Sha3sum.flagOf (Sha3sum.optTag o))) as Hpe.
  destruct (Sha3sum.printEntry
              "-" a
              (hexString (keccakSum E a (List.concat (chunks (stdin E)))))
              (Sha3sum.flagOf (Sha3sum.optPortable o))
              (Sha3sum.flagOf (Sha3sum.optBinary o))
              (Sha3sum.flagOf (Sha3sum.optTag o))) as [tp rp].
  unfold trace in *. cbn [fst] in *. inversion Hpe; subst.
  cbn. now rewrite !app_nil_r.
Qed.

Lemma main_without_files_reads_stdin_witness :
  Sha3sum.main (Demo.env false Demo.zeroSum Demo.mismatchFiles)
               (Demo.hashOptions 256 [])
  = ([UseStdin; Stdout (Demo.digest0 ++ "  "); Stdout ("-" ++ nl)], Ret tt).
Proof.
  apply (main_without_files_reads_stdin
           (Demo.env false Demo.zeroSum Demo.mismatchFiles)
           (Demo.hashOptions 256 []) 256); try reflexivity.
  unfold widths. simpl. tauto.
Defined.

(* ================================================================== *)
(** * Further properties: what a check run writes *)
(* ================================================================== *)

Module OutputFacts.
Import GoString Regexp GoLib Proc Preds Shapes.
Import StringFacts ReaderFacts RunFacts HashFacts LineFacts VerifyFacts.

Lemma stdoutText_app (a b : list Event) :
  stdoutText (a ++ b) = stdoutText a ++ stdoutText b.
Proof.
  induction a as [|[x|x|x|] a IH]; simpl; rewrite ?IH, ?append_assoc;
    reflexivity.
Qed.

Lemma stderrText_app (a b : list Event) :
  stderrText (a ++ b) = stderrText a ++ stderrText b.
Proof.
  induction a as [|[x|x|x|] a IH]; simpl; rewrite ?IH, ?append_assoc;
    reflexivity.
Qed.

Lemma mute_app (a b : list Event) : mute a -> mute b -> mute (a ++ b).
Proof.
  intros [A1 A2] [B1 B2]. unfold mute.
  now rewrite stdoutText_app, stderrText_app, A1, A2, B1, B2.
Qed.

Lemma mute_nil : mute [].
Proof. split; reflexivity. Qed.

Lemma mute_openEvent (fn : string) : mute [openEvent fn].
Proof. unfold openEvent. destruct (fn =? "-")%string; split; reflexivity. Qed.

Lemma index_ret {A : Type} (xs : list A) (i : nat) (t : list Event) (x : A) :
  Sha3sum.index xs i = (t, Ret x) -> t = [].
Proof.
  unfold Sha3sum.index. destruct (nth_error xs i); [|discriminate].
  unfold ret. intros H. now inversion H.
Qed.

Lemma orIndex_ret (flag : bool) (xs : list bool) (i : nat)
      (t : list Event) (x : bool) :
  Sha3sum.orIndex flag xs i = (t, Ret x) -> t = [].
Proof.
  unfold Sha3sum.orIndex. destruct flag; [|apply index_ret].
  unfold ret. intros H. now inversion H.
Qed.

(** With [status] a loop of [checkFiles] that returns has written
    nothing. *)
Lemma checkLoop_status_mute (E : Env) (l : Sha3sum.HashLists)
      (b p strict : bool) (rest : list string) (i : nat) (good bad : Z)
      (t : list Event) (r : error + Z * Z) :
  Sha3sum.checkLoop E l b p strict true i rest good bad = (t, Ret r) ->
  mute t.
Proof.
  revert i good bad t.
  induction rest as [|filename rest IH]; intros i good bad t H.
  - simpl in H. unfold ret in H. inversion H; subst. apply mute_nil.
  - cbn [Sha3sum.checkLoop] in H.
    apply bind_Ret_inv in H. destruct H as (t1 & a & t1' & H1 & H & ->).
    apply index_ret in H1. subst t1.
    apply bind_Ret_inv in H. destruct H as (t2 & pf & t2' & H2 & H & ->).
    apply orIndex_ret in H2. subst t2.
    apply bind_Ret_inv in H. destruct H as (t3 & bf & t3' & H3 & H & ->).
    apply orIndex_ret in H3. subst t3.
    apply bind_Ret_inv in H. destruct H as (t4 & x & t4' & H4 & H & ->).
    destruct x as [hex e].
    destruct (hashFile_ret_inv _ _ _ _ _ _ _ _ H4)
      as (-> & _ & -> & _ & data & _ & _ & ->).
    cbn [app]. change (openEvent filename :: t4')
      with ([openEvent filename] ++ t4')%list.
    apply mute_app; [apply mute_openEvent|].
    rewrite decode_hexString in H.
    apply bind_Ret_inv in H. destruct H as (t5 & expected & t5' & H5 & H & ->).
    apply index_ret in H5. subst t5. cbn [app].
    destruct (DecodeString expected) as [expectedHash [e|]].
    { destruct strict.
      - unfold ret in H. inversion H; subst. apply mute_nil.
      - eapply IH; eauto. }
    destruct (secureEqual E (keccakSum E a data) expectedHash);
      cbn [negb] in H; rewrite bind_ret_l in H; eapply IH; eauto.
Qed.

Lemma readHashes_ret (E : Env) (cf : string) (tag strict : bool)
      (t : list Event) (l : Sha3sum.HashLists) :
  Sha3sum.readHashes E cf tag strict = (t, Ret l) -> t = [Open cf].
Proof.
  unfold Sha3sum.readHashes. intros H.
  apply bind_Ret_inv in H. destruct H as (t1 & u & t2 & H1 & H & ->).
  unfold emit in H1. inversion H1; subst.
  destruct (osOpen E cf); [|discriminate H].
  apply readHashesLoop_returns in H as [-> _]. reflexivity.
Qed.

End OutputFacts.

Import OutputFacts.

(** A check with [--status] that comes to its end tells nothing about the
    files: it returns no error, it has written nothing to standard error,
    and what it has written to standard output are the two progress lines,
    which hold the name of the manifest and the names read from it. *)
Theorem status_check_reveals_nothing
        (E : Env) (cf : string) (b p tag strict : bool)
        (t : list Event) (r : option error) :
  Sha3sum.checkFiles E cf b p tag strict true = (t, Ret r) ->
  r = None /\ stderrText t = EmptyString
  /\ exists l,
       Sha3sum.readHashes E cf tag strict = ([Open cf], Ret l)
       /\ stdoutText t
          = ("checking " ++ " " ++ cf ++ nl)
            ++ ("checking files" ++ " "
                ++ Sha3sum.fmtStrings (Sha3sum.filenames l) ++ nl).
Proof.
  intros H. split; [exact (checkFiles_ret_nil _ _ _ _ _ _ _ _ _ H)|].
  unfold Sha3sum.checkFiles in H.
  apply bind_Ret_inv in H. destruct H as (t1 & u1 & t1' & H1 & H & ->).
  unfold emit in H1. inversion H1; subst. clear H1.
  apply bind_Ret_inv in H. destruct H as (t2 & l & t2' & H2 & H & ->).
  pose proof (readHashes_ret _ _ _ _ _ _ H2) as ->.
  apply bind_Ret_inv in H. destruct H as (t3 & u3 & t3' & H3 & H & ->).
  unfold emit in H3. inversion H3; subst. clear H3.
  apply bind_Ret_inv in H. destruct H as (t4 & x & t4' & H4 & H & ->).
  destruct (checkLoop_status_mute _ _ _ _ _ _ _ _ _ _ _ H4) as [M1 M2].
  assert (T : t4' = []).
  { destruct x as [e|[g bd]].
    - unfold ret in H. now inversion H.
    - cbn [negb andb] in H. rewrite bind_ret_l in H. unfold ret in H.
      now inversion H. }
  subst t4'. rewrite app_nil_r. split.
  - cbn [app stderrText]. exact M2.
  - exists l. split; [exact H2|].
    cbn [app stdoutText]. rewrite M1, append_nil_r. reflexivity.
Qed.

Lemma status_check_reveals_nothing_witness :
  (None : option error) = None
  /\ stderrText [Stdout ("checking  sums" ++ nl); Open "sums";
                 Stdout ("checking files [f]" ++ nl); Open "f"]
     = EmptyString
  /\ exists l,
       Sha3sum.readHashes (Demo.env false Demo.zeroSum Demo.mismatchFiles)
                          "sums" true false = ([Open "sums"], Ret l)
       /\ stdoutText [Stdout ("checking  sums" ++ nl); Open "sums";
                      Stdout ("checking files [f]" ++ nl); Open "f"]
          = ("checking " ++ " " ++ "sums" ++ nl)
            ++ ("checking files" ++ " "
                ++ Sha3sum.fmtStrings (Sha3sum.filenames l) ++ nl).
Proof.
  apply (status_check_reveals_nothing
           (Demo.env false Demo.zeroSum Demo.mismatchFiles)
           "sums" false false true false
           [Stdout ("checking  sums" ++ nl); Open "sums";
            Stdout ("checking files [f]" ++ nl); Open "f"] None).
  vm_compute. reflexivity.
Defined.

(** A check of a manifest without any line opens no file but the
    manifest, prints the two progress lines and no warning, and returns
    no error. *)
Theorem checkFiles_empty_manifest
        (E : Env) (cf : string) (b p tag strict st : bool) (f : File) :
  osOpen E cf = inl f ->
  readLine E f = [] ->
  Sha3sum.checkFiles E cf b p tag strict st
  = ([Stdout ("checking " ++ " " ++ cf ++ nl); Open cf;
      Stdout ("checking files" ++ " " ++ "[]" ++ nl)], Ret None).
Proof.
  intros Ho Hr. unfold Sha3sum.checkFiles, Sha3sum.readHashes.
  rewrite Ho, Hr. destruct st; reflexivity.
Qed.

Lemma checkFiles_empty_manifest_witness :
  Sha3sum.checkFiles (Demo.env false Demo.zeroSum [("sums", EmptyString)])
                     "sums" false false true true false
  = ([Stdout ("checking " ++ " " ++ "sums" ++ nl); Open "sums";
      Stdout ("checking files" ++ " " ++ "[]" ++ nl)], Ret None).
Proof.
  apply (checkFiles_empty_manifest
           (Demo.env false Demo.zeroSum [("sums", EmptyString)])
           "sums" false false true true false
           (mkFile [Demo.bytes EmptyString] None));
    reflexivity.
Defined.

(* ================================================================== *)
(** * Further properties: checking with [src/unnamed/part_000] *)
(* ================================================================== *)

Module Part000Facts.
Import GoString Regexp GoLib Proc Preds Shapes.
Import StringFacts ReaderFacts RunFacts HashFacts LineFacts VerifyFacts.
Import OutputFacts.

Lemma hashFile000_eq (E : Env) (fn : string) (a : Z) :
  Part000.hashFile E fn a = Sha3sum.hashFile E fn a false true.
Proof. reflexivity. Qed.

Lemma parsed_hash_decodes000 (ln : string) (tag : bool) :
  Part000.err (Part000.parseHash ln tag) = None ->
  snd (DecodeString (Part000.hash (Part000.parseHash ln tag))) = None.
Proof.
  unfold Part000.parseHash. destruct tag; intros H.
  - destruct (tag_parsers_agree ln) as (Hh & _ & _ & He).
    rewrite Hh. rewrite He in H.
    exact (parsed_hash_decodes ln true H).
  - now apply part000_plain_grammar_never_parses in H.
Qed.

Lemma readHashesLoop000_ret (tag strict : bool) (rs : list (string * bool))
      (line : string) (acc : Part000.HashLists)
      (t : list Event) (l : Part000.HashLists) :
  Part000.readHashesLoop tag strict rs line acc = (t, Ret l) ->
  t = []
  /\ Part000.hashes l
     = (Part000.hashes acc
        ++ map (fun ln => Part000.hash (Part000.parseHash ln tag))
               (assemble rs line))%list
  /\ (strict = true ->
      Forall (fun ln => Part000.err (Part000.parseHash ln tag) = None)
             (assemble rs line)).
Proof.
  revert line acc t.
  induction rs as [|[part prefix] rs IH]; intros line acc t H.
  - simpl in H. unfold ret in H. inversion H; subst.
    simpl. rewrite app_nil_r. auto.
  - cbn [Part000.readHashesLoop assemble] in *.
    destruct prefix; cbn [negb] in H.
    + eapply IH; eauto.
    + assert (K : Part000.readHashesLoop
                    tag strict rs EmptyString
                    (Part000.appendParse
                       acc (Part000.parseHash (line ++ part) tag))
                  = (t, Ret l)
                  /\ (strict = true ->
                      Part000.err (Part000.parseHash (line ++ part) tag)
                      = None)).
      { destruct (Part000.err (Part000.parseHash (line ++ part) tag))
          as [e|] eqn:He.
        - destruct strict; [discriminate H|].
          rewrite bind_ret_l in H. split; [exact H | discriminate].
        - rewrite bind_ret_l in H. auto. }
      destruct K as [K1 K2].
      destruct (IH _ _ _ K1) as (-> & Hh & Hs).
      split; [reflexivity|]. split.
      * rewrite Hh. cbn [Part000.appendParse Part000.hashes map].
        now rewrite <- app_assoc.
      * intros Hst. constructor; auto.
Qed.

Lemma checkLoop000_error_free (E : Env) (l : Part000.HashLists)
      (strict st : bool) (rest : list string) (i : nat) (good bad : Z)
      (t : list Event) (r : error + Z * Z) :
  (strict = true ->
   Forall (fun s => snd (DecodeString s) = None) (Part000.hashes l)) ->
  Part000.checkLoop E l strict st i rest good bad = (t, Ret r) ->
  (exists g bd, r = inr (g, bd)) /\ (st = true -> mute t).
Proof.
  intros Hall. revert i good bad t r.
  induction rest as [|filename rest IH]; intros i good bad t r H.
  - simpl in H. unfold ret in H. inversion H; subst.
    split; [eauto | intros _; apply mute_nil].
  - cbn [Part000.checkLoop] in H.
    apply bind_Ret_inv in H. destruct H as (t1 & a & t1' & H1 & H & ->).
    apply index_ret in H1. subst t1.
    apply bind_Ret_inv in H. destruct H as (t4 & x & t4' & H4 & H & ->).
    destruct x as [hex e]. rewrite hashFile000_eq in H4.
    destruct (hashFile_ret_inv _ _ _ _ _ _ _ _ H4)
      as (-> & _ & -> & _ & data & _ & _ & ->).
    rewrite decode_hexString in H.
    apply bind_Ret_inv in H. destruct H as (t5 & expected & t5' & H5 & H & ->).
    assert (Hd : strict = true -> snd (DecodeString expected) = None).
    { intros Hs. unfold Part000.index, Sha3sum.index in H5.
      destruct (nth_error (Part000.hashes l) i) as [y|] eqn:Hn;
        [|discriminate H5].
      unfold ret in H5. injection H5 as _ Hy. rewrite <- Hy.
      apply nth_error_In in Hn.
      exact (proj1 (Forall_forall _ _) (Hall Hs) _ Hn). }
    apply index_ret in H5. subst t5. cbn [app].
    assert (K : forall (m : M unit) (g bd : Z) (t' : list Event),
               (st = true -> m = ret tt) ->
               bind m (fun _ : unit =>
                         Part000.checkLoop E l strict st (S i) rest g bd)
               = (t', Ret r) ->
               (exists g0 bd0, r = inr (g0, bd0))
               /\ (st = true -> mute (openEvent filename :: t'))).
    { intros m g bd t' Hm K.
      apply bind_Ret_inv in K. destruct K as (ta & u & tb & Ka & K & ->).
      destruct (IH _ _ _ _ _ K) as [R M]. split; [exact R|].
      intros Hst. rewrite (Hm Hst) in Ka. unfold ret in Ka.
      inversion Ka; subst. cbn [app].
      change (openEvent filename :: tb)
        with ([openEvent filename] ++ tb)%list.
      apply mute_app; [apply mute_openEvent | auto]. }
    destruct (DecodeString expected) as [expectedHash [e|]].
    + destruct strict.
      * specialize (Hd eq_refl). discriminate Hd.
      * cbn [Part000.isSome negb andb] in H.
        eapply K; [|exact H]. intros ->. reflexivity.
    + assert (H' : (if secureEqual E (keccakSum E a data) expectedHash
                    then
                      bind (if negb st
                            then emit (Stdout (filename ++ ": OK" ++ nl))
                            else ret tt)
                           (fun _ => Part000.checkLoop E l strict st (S i)
                                                       rest (good + 1) bad)
                    else
                      bind (if negb st
                            then emit (Stdout (filename ++ ": FAILED" ++ nl))
                            else ret tt)
                           (fun _ => Part000.checkLoop E l strict st (S i)
                                                       rest good (bad + 1)))
                   = (t5', Ret r))
        by (destruct strict; exact H).
      destruct (secureEqual E (keccakSum E a data) expectedHash);
        (eapply K; [|exact H']); intros ->; reflexivity.
Qed.

End Part000Facts.

Import Part000Facts.

(** Whenever [checkFiles] of [src/unnamed/part_000] returns, it returns no
    error, with [strict] set or not; with [status] it has then written
    nothing at all, neither to standard output nor to standard error,
    whatever the digests of the files are. *)
Theorem part000_check_returns_nil_and_status_is_silent
        (E : Env) (cf : string) (tag strict st : bool)
        (t : list Event) (r : option error) :
  Part000.checkFiles E cf tag strict st = (t, Ret r) ->
  r = None
  /\ (st = true ->
      stdoutText t = EmptyString /\ stderrText t = EmptyString).
Proof.
  unfold Part000.checkFiles. intros H.
  apply bind_Ret_inv in H. destruct H as (ta & l & tb & Hr & H & ->).
  apply bind_Ret_inv in H. destruct H as (tc & x & td & Hx & H & ->).
  unfold Part000.readHashes in Hr.
  apply bind_Ret_inv in Hr. destruct Hr as (t1 & u & t2 & H1 & Hr & ->).
  unfold emit in H1. inversion H1; subst. clear H1.
  destruct (osOpen E cf) as [f|e0]; [|discriminate Hr].
  destruct (readHashesLoop000_ret _ _ _ _ _ _ _ Hr) as (-> & Hh & Hs).
  simpl in Hh.
  assert (Hall : strict = true ->
                 Forall (fun s => snd (DecodeString s) = None)
                        (Part000.hashes l)).
  { intros Hst. rewrite Hh. apply Forall_forall.
    intros s Hin. apply in_map_iff in Hin as (ln & <- & Hin).
    apply parsed_hash_decodes000.
    exact (proj1 (Forall_forall _ _) (Hs Hst) _ Hin). }
  destruct (checkLoop000_error_free E l strict st _ _ _ _ _ _ Hall Hx)
    as [(g & bd & ->) M].
  split.
  - bind_inv H u'. unfold ret in H. now inversion H.
  - intros Hst. subst st. cbn [negb andb] in H. rewrite bind_ret_l in H.
    unfold ret in H. inversion H; subst.
    apply (mute_app [Open cf] (tc ++ [])); [split; reflexivity|].
    rewrite app_nil_r. auto.
Qed.

Lemma part000_check_returns_nil_and_status_is_silent_witness :
  (None : option error) = None
  /\ (true = true ->
      stdoutText [Open "sums"; Open "f"] = EmptyString
      /\ stderrText [Open "sums"; Open "f"] = EmptyString).
Proof.
  apply (part000_check_returns_nil_and_status_is_silent
           (Demo.env false Demo.zeroSum Demo.mismatchFiles)
           "sums" true true true [Open "sums"; Open "f"] None).
  vm_compute. reflexivity.
Defined.

(** An entry whose recorded digest does not decode ([hex.DecodeString]
    fails on it) while its file can be hashed: with [strict] the loop of
    [checkFiles] ends there and returns the decoding error; without it the
    entry is passed over, nothing is printed for it and neither counter
    changes. *)
Theorem checkLoop_undecodable_digest
        (E : Env) (l : Sha3sum.HashLists) (bf pf strict st : bool)
        (i : nat) (fn : string) (rest : list string) (good bad : Z)
        (a : Z) (pi bi : bool) (expected : string) (ex : list byte)
        (err : error) (t : list Event) (h : string) (e : option error) :
  nth_error (Sha3sum.algorithms l) i = Some a ->
  nth_error (Sha3sum.portables l) i = Some pi ->
  nth_error (Sha3sum.binaries l) i = Some bi ->
  nth_error (Sha3sum.hashes l) i = Some expected ->
  Sha3sum.hashFile E fn a (pf || pi) (bf || bi) = (t, Ret (h, e)) ->
  DecodeString expected = (ex, Some err) ->
  Sha3sum.checkLoop E l bf pf strict st i (fn :: rest) good bad
  = if strict then (t, Ret (inl err))
    else bind (t, Ret tt)
              (fun _ => Sha3sum.checkLoop E l bf pf strict st (S i) rest
                                          good bad).
Proof.
  intros Ha Hp Hb Hh Hf Hd.
  destruct (hashFile_ret_inv _ _ _ _ _ _ _ _ Hf)
    as (-> & _ & _ & f & data & _ & _ & ->).
  cbn [Sha3sum.checkLoop]. unfold Sha3sum.orIndex, Sha3sum.index.
  rewrite Ha, Hp, Hb, Hh. rewrite bind_ret_l.
  assert (Hp' : (if pf then ret true else ret pi) = ret (pf || pi))
    by (destruct pf; reflexivity).
  assert (Hb' : (if bf then ret true else ret bi) = ret (bf || bi))
    by (destruct bf; reflexivity).
  rewrite Hp', bind_ret_l, Hb', bind_ret_l, Hf.
  cbn [bind]. rewrite decode_hexString. cbv beta iota.
  rewrite bind_ret_l, Hd.
  destruct strict.
  - unfold ret. now rewrite app_nil_r.
  - destruct (Sha3sum.checkLoop E l bf pf false st (S i) rest good bad).
    reflexivity.
Qed.

Lemma checkLoop_undecodable_digest_witness :
  Sha3sum.checkLoop
    (Demo.env false Demo.zeroSum Demo.mismatchFiles)
    (Sha3sum.mkLists ["abc"] ["f"] [256%Z] [false] [false])
    false false false false 0 ["f"] 0 0
  = bind ([Open "f"], Ret tt)
         (fun _ =>
            Sha3sum.checkLoop
              (Demo.env false Demo.zeroSum Demo.mismatchFiles)
              (Sha3sum.mkLists ["abc"] ["f"] [256%Z] [false] [false])
              false false false false 1 [] 0 0).
Proof.
  apply (checkLoop_undecodable_digest
           (Demo.env false Demo.zeroSum Demo.mismatchFiles)
           (Sha3sum.mkLists ["abc"] ["f"] [256%Z] [false] [false])
           false false false false 0 "f" [] 0 0 256 false false
           "abc" ["171"%byte] ErrLength [Open "f"] Demo.digest0 None);
    reflexivity.
Defined.

(* ================================================================== *)
(** * Further properties: entries that cannot be verified *)
(* ================================================================== *)

Module PlaceholderFacts.
Import GoString Regexp GoLib Proc Preds Shapes.
Import StringFacts ReaderFacts RunFacts HashFacts.

(** With [strict] the reader of [src/unnamed/part_000] dies at the first
    line when that line does not parse. *)
Lemma readHashesLoop000_first_fails (tag : bool) (rs : list (string * bool))
      (line : string) (acc : Part000.HashLists) (ln : string)
      (rest : list string) (e : error) :
  assemble rs line = ln :: rest ->
  Part000.err (Part000.parseHash ln tag) = Some e ->
  Part000.readHashesLoop tag true rs line acc = ([Stderr (e ++ nl)], Exit 1).
Proof.
  revert line acc.
  induction rs as [|[part prefix] rs IH]; intros line acc Ha He.
  - discriminate Ha.
  - cbn [Part000.readHashesLoop assemble] in *. destruct prefix; cbn [negb].
    + now apply IH.
    + injection Ha as Hl _. rewrite Hl, He. reflexivity.
Qed.

(** Without [strict] it returns an entry for every line. *)
Lemma readHashesLoop000_lenient (tag : bool) (rs : list (string * bool))
      (line : string) (acc : Part000.HashLists) :
  Part000.readHashesLoop tag false rs line acc
  = ret (fold_left Part000.appendParse
                   (map (fun ln => Part000.parseHash ln tag)
                        (assemble rs line)) acc).
Proof.
  revert line acc. induction rs as [|[part prefix] rs IH]; intros line acc.
  - reflexivity.
  - cbn [Part000.readHashesLoop assemble]. destruct prefix; cbn [negb].
    + apply IH.
    + destruct (Part000.err (Part000.parseHash (line ++ part) tag));
        rewrite bind_ret_l, IH; reflexivity.
Qed.

Lemma fold_appendParse000 (ps : list Part000.ParseResult)
      (acc : Part000.HashLists) :
  Part000.filenames (fold_left Part000.appendParse ps acc)
  = (Part000.filenames acc ++ map Part000.fname ps)%list
  /\ Part000.algorithms (fold_left Part000.appendParse ps acc)
     = (Part000.algorithms acc ++ map Part000.algorithm ps)%list.
Proof.
  revert acc. induction ps as [|p ps IH]; intros acc; simpl.
  - now rewrite !app_nil_r.
  - destruct (IH (Part000.appendParse acc p)) as [H1 H2].
    rewrite H1, H2. simpl. now rewrite <- !app_assoc.
Qed.

End PlaceholderFacts.

Import PlaceholderFacts.

(** [src/unnamed/part_000] cannot check a manifest in the plain grammar,
    not even one it has printed itself.  With [strict] the run dies at the
    first line with the error of the plain parser.  Without it the first
    entry has the empty file name and the width 0, and the run dies on
    opening the file of that name. *)
Theorem part000_cannot_check_plain_manifest
        (E : Env) (cf : string) (strict st : bool) (f : File)
        (ln : string) (rest : list string) (e : string) :
  osOpen E cf = inl f ->
  assemble (readLine E f) EmptyString = ln :: rest ->
  osOpen E EmptyString = inr e ->
  Part000.checkFiles E cf false strict st
  = if strict
    then ([Open cf;
           Stderr ((if MatchString Part000.normalRegexp ln
                    then "bad line" else "bad checksum line") ++ nl)],
          Exit 1)
    else ([Open cf; Open EmptyString; Stderr (e ++ nl)], Exit 1).
Proof.
  intros Ho Ha He. unfold Part000.checkFiles, Part000.readHashes.
  rewrite Ho. destruct strict.
  - rewrite (readHashesLoop000_first_fails
               false (readLine E f) EmptyString Part000.noLists ln rest
               (if MatchString Part000.normalRegexp ln
                then "bad line" else "bad checksum line") Ha).
    + reflexivity.
    + unfold Part000.parseHash.
      unfold Part000.parseNormalHash, MatchString, FindStringSubmatch.
      destruct (exec Part000.normalRegexp ln); reflexivity.
  - rewrite readHashesLoop000_lenient, Ha.
    destruct (fold_appendParse000
                (map (fun l0 => Part000.parseHash l0 false) (ln :: rest))
                Part000.noLists) as [Hf Hal].
    cbn [bind emit ret app].
    set (l := fold_left Part000.appendParse
                        (map (fun l0 => Part000.parseHash l0 false)
                             (ln :: rest)) Part000.noLists) in *.
    assert (P : forall x, Part000.parseHash x false
                          = Part000.mkParse EmptyString EmptyString 0
                              (Some (if MatchString Part000.normalRegexp x
                                     then "bad line"
                                     else "bad checksum line"))).
    { intros x. unfold Part000.parseHash, Part000.parseNormalHash,
                  MatchString, FindStringSubmatch.
      destruct (exec Part000.normalRegexp x); reflexivity. }
    cbn [map Part000.noLists Part000.filenames Part000.algorithms app]
      in Hf, Hal.
    rewrite (P ln) in Hf, Hal. cbn [Part000.fname Part000.algorithm] in Hf, Hal.
    rewrite Hf. cbn [Part000.checkLoop].
    unfold Part000.index, Sha3sum.index. rewrite Hal. cbn [nth_error].
    rewrite bind_ret_l.
    unfold Part000.hashFile, Part000.openInput.
    cbn [String.eqb]. rewrite He. reflexivity.
Qed.

Lemma part000_cannot_check_plain_manifest_witness :
  Part000.checkFiles (Demo.env false Demo.zeroSum Demo.missingFiles)
                     "sums" false false false
  = ([Open "sums"; Open EmptyString;
      Stderr ("open : no such file or directory" ++ nl)], Exit 1).
Proof.
  apply (part000_cannot_check_plain_manifest
           (Demo.env false Demo.zeroSum Demo.missingFiles)
           "sums" false false
           (mkFile [Demo.bytes (Demo.digest0 ++ "  missing" ++ nl
                                ++ Demo.digest0 ++ "  f" ++ nl)] None)
           (Demo.digest0 ++ "  missing") [Demo.digest0 ++ "  f"]
           "open : no such file or directory").
  - reflexivity.
  - vm_compute. reflexivity.
  - reflexivity.
Defined.

(** An entry whose width is not one of the four never gets past the loop
    of [checkFiles]: [hashFile] has no hash for it, so the run ends there
    with an exit or a panic, with [strict] set or not.  The entries that
    the reader keeps for lines that do not match the grammar are of this
    kind: their width is 0. *)
Theorem checkLoop_invalid_width_never_returns
        (E : Env) (l : Sha3sum.HashLists) (bf pf strict st : bool)
        (i : nat) (fn : string) (rest : list string) (good bad : Z)
        (a : Z) (t : list Event) (r : error + Z * Z) :
  nth_error (Sha3sum.algorithms l) i = Some a ->
  ~ In a widths ->
  Sha3sum.checkLoop E l bf pf strict st i (fn :: rest) good bad
  <> (t, Ret r).
Proof.
  intros Ha Hn H. cbn [Sha3sum.checkLoop] in H.
  apply bind_Ret_inv in H. destruct H as (t1 & a' & t1' & H1 & H & _).
  unfold Sha3sum.index in H1. rewrite Ha in H1. unfold ret in H1.
  injection H1 as _ <-.
  bind_inv H p'. bind_inv H b'.
  apply bind_Ret_inv in H. destruct H as (ta & x & tb & Hx & _).
  destruct x as [hex e].
  destruct (hashFile_ret_inv _ _ _ _ _ _ _ _ Hx) as (_ & Hin & _).
  contradiction.
Qed.

Lemma checkLoop_invalid_width_never_returns_witness :
  Sha3sum.checkLoop
    (Demo.env false Demo.zeroSum Demo.mismatchFiles)
    (Sha3sum.appendParse Sha3sum.noLists (Sha3sum.parseHash "junk" false))
    false false false false 0 [EmptyString] 0 0
  <> ([Open EmptyString], Ret (inr (0, 0)%Z)).
Proof.
  apply (checkLoop_invalid_width_never_returns
           (Demo.env false Demo.zeroSum Demo.mismatchFiles)
           (Sha3sum.appendParse Sha3sum.noLists
                                (Sha3sum.parseHash "junk" false))
           false false false false 0 EmptyString [] 0 0 0).
  - vm_compute. reflexivity.
  - unfold widths. simpl. intros [H|[H|[H|[H|[]]]]]; discriminate H.
Defined.
